(** * Z402 Python SDK core: spend ledger, request pipeline, webhook authenticator

    A shallow embedding of
    - [z402/utils/budget.py]   (class [BudgetManager]),
    - [z402/utils/retry.py]    ([is_retryable_error], [retry_with_backoff]),
    - [z402/utils/http.py]     ([AsyncHTTPClient._build_url], [_build_headers],
                                [_handle_response], [request]),
    - [z402/utils/webhook.py]  ([verify_webhook], [construct_webhook_signature]),
    - [z402/exceptions.py]     (the exception classes),
    - [z402/client.py]         ([Z402Client.__init__], [Z402Client.pay]),
    - [z402/middleware.py]     ([Z402Middleware.__call__]),
    followed by the properties of these functions.

    Conventions of the embedding.
    - A finite [Decimal] is the rational number [Q] it denotes; its
      arithmetic rounds to the 28 significant digits of the default
      context, its comparisons are exact (module [PyDecimal]).  Amounts and
      limits are strings that [Decimal] reads as finite numbers, with
      exponents far inside the range of the context.
    - A [float] is an IEEE 754 binary64 number ([SpecFloat.spec_float]).
    - A [datetime] is a number of microseconds [Z] counted from
      1970-01-01T00:00:00; every call of [datetime.now()] / [time.time()]
      is an explicit clock argument.
    - A Python [str] is a [string] holding its UTF-8 encoding, so that
      [s.encode("utf-8")] is the list of its bytes.
    - A [dict] used as a map is a [gmap]; the dicts of JSON data, whose
      order [json.dumps] follows, are lists of items. *)

From Stdlib Require Import ZArith QArith Lia Lqa List String Ascii Bool.
From Stdlib Require Import DecimalString DecimalZ.
From Stdlib.Floats Require SpecFloat.
From Stdlib.Strings Require Import Byte.
From stdpp Require Import gmap strings.
Import ListNotations.

Local Open Scope string_scope.
Local Open Scope list_scope.
Local Open Scope Z_scope.

(** ** Python values (JSON bodies, metadata) *)

#[local] Unset Elimination Schemes.
Inductive pyval : Type :=
  | PyNone
  | PyBool (b : bool)
  | PyInt (n : Z)
  | PyFloat (q : Q)
  | PyStr (s : string)
  | PyList (l : list pyval)
  | PyDict (d : list (string * pyval)).   (* items in insertion order *)
#[local] Set Elimination Schemes.

(** [bool(v)]: the truth value Python gives to [v] in [if v:] and [v or w]. *)
Definition truthy (v : pyval) : bool :=
  match v with
  | PyNone => false
  | PyBool b => b
  | PyInt n => negb (n =? 0)
  | PyFloat q => negb (Qeq_bool q 0)
  | PyStr s => negb (String.eqb s EmptyString)
  | PyList l => match l with [] => false | _ => true end
  | PyDict d => match d with [] => false | _ => true end
  end.

(** [a or b] on Python values. *)
Definition py_or (a b : pyval) : pyval := if truthy a then a else b.

(** [d[key]] for a dict given by its items. *)
Fixpoint dict_get (d : list (string * pyval)) (key : string) : option pyval :=
  match d with
  | [] => None
  | (k, v) :: rest => if String.eqb k key then Some v else dict_get rest key
  end.

(** ** Built-in string operations used by the sources *)

Module Builtins.

(** [s.startswith(p)] *)
Fixpoint startswith (p s : string) : bool :=
  match p, s with
  | EmptyString, _ => true
  | String a p', String b s' => Ascii.eqb a b && startswith p' s'
  | String _ _, EmptyString => false
  end.

(** [s.split(sep)] for a one-character separator. *)
Fixpoint split (sep : ascii) (s : string) : list string :=
  match s with
  | EmptyString => [EmptyString]
  | String c s' =>
      if Ascii.eqb c sep then EmptyString :: split sep s'
      else match split sep s' with
           | hd :: tl => String c hd :: tl
           | [] => [String c EmptyString]
           end
  end.

(** [s.split(sep, 1)[1]]: what follows the first [sep]; [None] stands for
    the [IndexError] when [sep] does not occur. *)
Fixpoint after_first (sep : ascii) (s : string) : option string :=
  match s with
  | EmptyString => None
  | String c s' => if Ascii.eqb c sep then Some s' else after_first sep s'
  end.

(** [all(pred(c) for c in s)] *)
Fixpoint all_chars (pred : ascii -> bool) (s : string) : bool :=
  match s with
  | EmptyString => true
  | String a s' => pred a && all_chars pred s'
  end.

(** [c in s] for a character [c]. *)
Fixpoint contains (c : ascii) (s : string) : bool :=
  match s with
  | EmptyString => false
  | String a s' => Ascii.eqb a c || contains c s'
  end.

(** [next((p for p in parts if pred(p)), None)] *)
Fixpoint next_such (pred : string -> bool) (parts : list string) : option string :=
  match parts with
  | [] => None
  | p :: rest => if pred p then Some p else next_such pred rest
  end.

(** The ASCII characters that [int()] skips around the digits: tab, line
    feed, vertical tab, form feed, carriage return and the space. *)
Definition is_space (c : ascii) : bool :=
  let n := nat_of_ascii c in
  ((9 <=? n) && (n <=? 13) || (n =? 32))%nat.

Definition is_digit (c : ascii) : bool :=
  let n := nat_of_ascii c in ((48 <=? n) && (n <=? 57))%nat.

Fixpoint lstrip (s : string) : string :=
  match s with
  | String c s' => if is_space c then lstrip s' else s
  | EmptyString => EmptyString
  end.

Fixpoint rstrip (s : string) : string :=
  match s with
  | String c s' =>
      match rstrip s' with
      | EmptyString => if is_space c then EmptyString else String c EmptyString
      | r => String c r
      end
  | EmptyString => EmptyString
  end.

Definition strip (s : string) : string := rstrip (lstrip s).

(** [s.rstrip(c)] for a one-character argument: the trailing [c]s go. *)
Fixpoint rstrip_char (c : ascii) (s : string) : string :=
  match s with
  | String x s' =>
      match rstrip_char c s' with
      | EmptyString => if Ascii.eqb x c then EmptyString else String x EmptyString
      | r => String x r
      end
  | EmptyString => EmptyString
  end.

(** The digits of an integer literal: a digit first, then digits with
    single underscores between them.  Returns the digits without the
    underscores. *)
Fixpoint int_digits (s : string) (after_digit : bool) : option string :=
  match s with
  | EmptyString => if after_digit then Some EmptyString else None
  | String c s' =>
      if is_digit c then option_map (String c) (int_digits s' true)
      else if Ascii.eqb c "_" && after_digit then int_digits s' false
      else None
  end.

(** [int(s)] on a string of ASCII characters; [None] stands for
    [ValueError].  On other strings [int()] consults the Unicode database
    (the decimal digits and the white space of every script), and it
    refuses more digits than the interpreter's limit (4300 by default):
    the functions whose argument is any header take [int] as a parameter,
    and use [py_int] where the text is the decimal digits of a clock
    value. *)
Definition py_int (s : string) : option Z :=
  let s1 := strip s in
  let '(negative, body) :=
    match s1 with
    | String c r =>
        if Ascii.eqb c "-" then (true, r)
        else if Ascii.eqb c "+" then (false, r)
        else (false, s1)
    | EmptyString => (false, s1)
    end in
  match int_digits body false with
  | Some ds =>
      match NilEmpty.uint_of_string ds with
      | Some u => Some (if negative then - Z.of_uint u else Z.of_uint u)
      | None => None
      end
  | None => None
  end.

(** [str(n)] for an [int]. *)
Definition py_str (n : Z) : string := NilZero.string_of_int (Z.to_int n).

(** [s.encode("utf-8")]. *)
Definition encode_utf8 (s : string) : list byte := list_byte_of_string s.

Definition is_cont (b : byte) : bool :=
  let n := Byte.to_N b in ((128 <=? n) && (n <=? 191))%N.

Definition in_range (lo hi : N) (b : byte) : bool :=
  let n := Byte.to_N b in ((lo <=? n) && (n <=? hi))%N.

(** Well-formed UTF-8 (Unicode, table 3-7). *)
Fixpoint valid_utf8 (bs : list byte) : bool :=
  match bs with
  | [] => true
  | b0 :: r0 =>
      if in_range 0 127 b0 then valid_utf8 r0
      else match r0 with
      | [] => false
      | b1 :: r1 =>
          if in_range 194 223 b0 then is_cont b1 && valid_utf8 r1
          else match r1 with
          | [] => false
          | b2 :: r2 =>
              if in_range 224 224 b0
              then in_range 160 191 b1 && is_cont b2 && valid_utf8 r2
              else if in_range 237 237 b0
              then in_range 128 159 b1 && is_cont b2 && valid_utf8 r2
              else if in_range 225 239 b0
              then is_cont b1 && is_cont b2 && valid_utf8 r2
              else match r2 with
              | [] => false
              | b3 :: r3 =>
                  if in_range 240 240 b0
                  then in_range 144 191 b1 && is_cont b2 && is_cont b3 && valid_utf8 r3
                  else if in_range 241 243 b0
                  then is_cont b1 && is_cont b2 && is_cont b3 && valid_utf8 r3
                  else if in_range 244 244 b0
                  then in_range 128 143 b1 && is_cont b2 && is_cont b3 && valid_utf8 r3
                  else false
              end
          end
      end
  end.

(** [b.decode("utf-8")]; [None] stands for [UnicodeDecodeError]. *)
Definition decode_utf8 (bs : list byte) : option string :=
  if valid_utf8 bs then Some (string_of_list_byte bs) else None.

(** Strings on which [hmac.compare_digest] accepts a [str] argument. *)
Fixpoint is_ascii (s : string) : bool :=
  match s with
  | EmptyString => true
  | String c s' => (nat_of_ascii c <? 128)%nat && is_ascii s'
  end.

End Builtins.

(** ** The exception classes: [z402/exceptions.py] *)

Module Exceptions.

(** One constructor per class, with the arguments of its [__init__]. *)
Inductive Z402Error : Type :=
  | BaseZ402Error (message : pyval) (status_code : option Z)
                  (code : option string) (details : pyval)
  | AuthenticationError (message details : pyval)
  | InvalidRequestError (message details : pyval)
  | NotFoundError (message details : pyval)
  | RateLimitError (message : pyval) (retry_after : option Z) (details : pyval)
  | PaymentRequiredError (message amount resource details : pyval)
  | APIError (message : pyval) (status_code : option Z)
             (code : option string) (details : pyval)
  | NetworkError (message details : pyval)
  | WebhookVerificationError (message details : pyval)
  | BudgetExceededError (message : pyval) (limit current : option Q)
                        (details : pyval)
  | WalletError (message details : pyval).

(** [self.status_code], as set by [super().__init__]. *)
Definition status_code_of (e : Z402Error) : option Z :=
  match e with
  | BaseZ402Error _ sc _ _ => sc
  | AuthenticationError _ _ => Some 401
  | InvalidRequestError _ _ => Some 400
  | NotFoundError _ _ => Some 404
  | RateLimitError _ _ _ => Some 429
  | PaymentRequiredError _ _ _ _ => Some 402
  | APIError _ sc _ _ => sc
  | NetworkError _ _ => Some 0
  | WebhookVerificationError _ _ => Some 400
  | BudgetExceededError _ _ _ _ => None
  | WalletError _ _ => None
  end.

(** [self.code]. *)
Definition code_of (e : Z402Error) : option string :=
  match e with
  | BaseZ402Error _ _ c _ => c
  | AuthenticationError _ _ => Some "authentication_error"
  | InvalidRequestError _ _ => Some "invalid_request"
  | NotFoundError _ _ => Some "not_found"
  | RateLimitError _ _ _ => Some "rate_limit"
  | PaymentRequiredError _ _ _ _ => Some "payment_required"
  | APIError _ _ c _ => c
  | NetworkError _ _ => Some "network_error"
  | WebhookVerificationError _ _ => Some "webhook_verification_error"
  | BudgetExceededError _ _ _ _ => Some "budget_exceeded"
  | WalletError _ _ => Some "wallet_error"
  end.

(** [self.message] and [self.details], the first and the last argument of
    every [__init__]. *)
Definition message_of (e : Z402Error) : pyval :=
  match e with
  | BaseZ402Error m _ _ _ | AuthenticationError m _ | InvalidRequestError m _
  | NotFoundError m _ | RateLimitError m _ _ | PaymentRequiredError m _ _ _
  | APIError m _ _ _ | NetworkError m _ | WebhookVerificationError m _
  | BudgetExceededError m _ _ _ | WalletError m _ => m
  end.

Definition details_of (e : Z402Error) : pyval :=
  match e with
  | BaseZ402Error _ _ _ d | AuthenticationError _ d | InvalidRequestError _ d
  | NotFoundError _ d | RateLimitError _ _ d | PaymentRequiredError _ _ _ d
  | APIError _ _ _ d | NetworkError _ d | WebhookVerificationError _ d
  | BudgetExceededError _ _ _ d | WalletError _ d => d
  end.

(** What a Python call can raise: an SDK error, another [Exception]
    (named by its class), or a [BaseException] outside [Exception]. *)
Inductive exn : Type :=
  | Z402 (e : Z402Error)
  | OtherException (class_name : string)
  | OtherBaseException (class_name : string).

(** [except Exception] catches it. *)
Definition is_Exception (e : exn) : bool :=
  match e with OtherBaseException _ => false | _ => true end.

End Exceptions.

(** ** [decimal.Decimal] under the default context

    [Decimal(s)] is exact.  An arithmetic operation computes its exact
    result and rounds it to [prec = 28] significant digits, a tie going to
    the even digit ([ROUND_HALF_EVEN]); [int] operands are converted
    exactly first.  Exponents stay far inside the context's range
    ([Emin = -999999], [Emax = 999999]). *)

Module PyDecimal.

(** [getcontext().prec] *)
Definition prec : Z := 28.

(** The number of decimal digits of a positive integer. *)
Definition digits (p : positive) : Z :=
  Z.of_nat (Decimal.nb_digits (Pos.to_uint p)).

(** [|x| / 10^e] as a fraction. *)
Definition scaled (x : Q) (e : Z) : Z * Z :=
  if 0 <=? e then (Z.abs (Qnum x), Zpos (Qden x) * 10 ^ e)
  else (Z.abs (Qnum x) * 10 ^ (- e), Zpos (Qden x)).

(** The exponent of the leading digit of [x]: the [k] with
    [10^k <= |x| < 10^(k+1)] ([Decimal.adjusted()]). *)
Definition adjusted (x : Q) : Z :=
  match Z.abs (Qnum x) with
  | Zpos n =>
      let k := digits n - digits (Qden x) in
      let '(a, b) := scaled x k in
      if b <=? a then k else k - 1
  | _ => 0
  end.

(** The integer nearest to [a / b], for [0 <= a] and [0 < b]; of two
    nearest integers, the even one. *)
Definition round_half_even (a b : Z) : Z :=
  let q := a / b in
  match 2 * (a mod b) ?= b with
  | Lt => q
  | Gt => q + 1
  | Eq => if Z.even q then q else q + 1
  end.

(** The rounding that ends every operation: [prec] significant digits. *)
Definition round_to_context (x : Q) : Q :=
  if Qnum x =? 0 then 0%Q
  else
    let e := adjusted x - (prec - 1) in
    let '(a, b) := scaled x e in
    let m := round_half_even a b in
    let m := if Qnum x <? 0 then - m else m in
    Qred (if 0 <=? e then inject_Z (m * 10 ^ e)
          else Qmake m (Z.to_pos (10 ^ (- e)))).

(** [x + y], [x - y], [x * y] and [x / y] (for [y] other than zero). *)
Definition add (x y : Q) : Q := round_to_context (x + y)%Q.
Definition sub (x y : Q) : Q := round_to_context (x - y)%Q.
Definition mul (x y : Q) : Q := round_to_context (x * y)%Q.
Definition div (x y : Q) : Q := round_to_context (x / y)%Q.

End PyDecimal.

(** ** The spend ledger: [z402/utils/budget.py] *)

Module Budget.
Import Exceptions.

(** [x > y] on decimals. *)
Definition Qgtb (x y : Q) : bool := negb (Qle_bool x y).

(** Truth value of an [Optional[Decimal]]: [None] and a zero decimal are
    both false. *)
Definition is_set (o : option Q) : bool :=
  match o with
  | Some q => negb (Qeq_bool q 0)
  | None => false
  end.

(** [timedelta(days=1)] and [timedelta(hours=h)] in microseconds. *)
Definition timedelta_days (d : Z) : Z := d * 86400000000.
Definition timedelta_hours (h : Z) : Z := h * 3600000000.

(** [datetime.min] and [datetime.max], the first microsecond of year 1 and
    the last of year 9999; a subtraction whose result is outside them
    raises [OverflowError].  The clock reads far inside the range, so that
    only a caller's [hours] can take a result outside it. *)
Definition datetime_min : Z := -62135596800000000.
Definition datetime_max : Z := 253402300799999999.

Definition is_datetime (t : Z) : bool :=
  (datetime_min <=? t) && (t <=? datetime_max).

(** One entry of [self._transactions]. *)
Record transaction : Type := {
  amount : Q;
  transaction_id : string;
  timestamp : Z;
  metadata : gmap string pyval
}.

Record BudgetManager : Type := {
  daily_limit : Q;
  hourly_limit : option Q;
  transaction_limit : option Q;
  _lock : bool;                          (* [asyncio.Lock]: true when held *)
  _transactions : list transaction
}.

(** [BudgetManager.__init__] on parsed limits: [hourly_limit="0"] is
    [Some 0] (the string is not empty), no [hourly_limit] is [None]. *)
Definition init (daily : Q) (hourly txl : option Q) : BudgetManager :=
  {| daily_limit := daily; hourly_limit := hourly; transaction_limit := txl;
     _lock := false; _transactions := [] |}.

Definition set_lock (b : BudgetManager) (l : bool) : BudgetManager :=
  {| daily_limit := daily_limit b; hourly_limit := hourly_limit b;
     transaction_limit := transaction_limit b;
     _lock := l; _transactions := _transactions b |}.

Definition set_transactions (b : BudgetManager) (txs : list transaction)
  : BudgetManager :=
  {| daily_limit := daily_limit b; hourly_limit := hourly_limit b;
     transaction_limit := transaction_limit b;
     _lock := _lock b; _transactions := txs |}.

(** The result of awaiting a method: it returns, it raises, or it waits
    for a lock that is held. *)
Inductive outcome (A : Type) : Type :=
  | Returns (a : A) (b : BudgetManager)
  | Raises (e : exn) (b : BudgetManager)
  | Blocked.
Arguments Returns {A} a b.
Arguments Raises {A} e b.
Arguments Blocked {A}.

Definition bind {A B} (m : outcome A) (k : A -> BudgetManager -> outcome B)
  : outcome B :=
  match m with
  | Returns a b => k a b
  | Raises e b => Raises e b
  | Blocked => Blocked
  end.

(** [async with self._lock: body]. *)
Definition with_lock {A} (b : BudgetManager)
    (body : BudgetManager -> A * BudgetManager) : outcome A :=
  if _lock b then Blocked
  else let '(a, b') := body (set_lock b true) in Returns a (set_lock b' false).

(** Python's [sum(...)] of decimals: a left fold of [+] from the [int]
    [0], each addition rounding. *)
Definition py_sum (l : list Q) : Q := fold_left PyDecimal.add l 0%Q.

(** [sum(Decimal(tx["amount"]) for tx in txs if tx["timestamp"] >= start)]. *)
Definition spent_since (txs : list transaction) (start : Z) : Q :=
  py_sum (map amount (List.filter (fun tx => start <=? timestamp tx) txs)).

(** The body of the critical section of [can_spend] (lines 69-94). *)
Definition within_limits (b : BudgetManager) (now : Z) (spend_amount : Q) : bool :=
  let daily_start := now - timedelta_days 1 in
  let daily_spent := spent_since (_transactions b) daily_start in
  if Qgtb (PyDecimal.add daily_spent spend_amount) (daily_limit b) then false
  else
    match hourly_limit b with
    | Some h =>
        if is_set (Some h) then
          let hourly_start := now - timedelta_hours 1 in
          let hourly_spent := spent_since (_transactions b) hourly_start in
          if Qgtb (PyDecimal.add hourly_spent spend_amount) h
          then false else true
        else true
    | None => true
    end.

(** Line 65: [self.transaction_limit and spend_amount > self.transaction_limit]. *)
Definition over_transaction_limit (b : BudgetManager) (spend_amount : Q) : bool :=
  match transaction_limit b with
  | Some t => is_set (Some t) && Qgtb spend_amount t
  | None => false
  end.

(** [can_spend] (lines 52-94); [now] is the value of [datetime.now()]. *)
Definition can_spend (b : BudgetManager) (now : Z) (spend_amount : Q)
  : outcome bool :=
  if over_transaction_limit b spend_amount
  then Returns false b
  else with_lock b (fun b' => (within_limits b' now spend_amount, b')).

(** [get_daily_spent], [get_hourly_spent] (lines 128-160). *)
Definition get_daily_spent (b : BudgetManager) (now : Z) : outcome Q :=
  with_lock b (fun b' => (spent_since (_transactions b') (now - timedelta_days 1), b')).

Definition get_hourly_spent (b : BudgetManager) (now : Z) : outcome Q :=
  with_lock b (fun b' => (spent_since (_transactions b') (now - timedelta_hours 1), b')).

(** [metadata or {}]. *)
Definition metadata_or_empty (m : option (gmap string pyval)) : gmap string pyval :=
  match m with Some d => d | None => ∅ end.

(** The body of the second critical section of [record_spend]
    (lines 120-126): the append. *)
Definition append_record (b : BudgetManager) (now : Z) (a : Q) (id : string)
    (meta : option (gmap string pyval)) : BudgetManager :=
  set_transactions b
    (_transactions b ++
       [{| amount := a; transaction_id := id; timestamp := now;
           metadata := metadata_or_empty meta |}]).

(** [record_spend] (lines 96-126).  It reads the clock twice: [t_check]
    inside [can_spend], and [t_next] either inside [get_daily_spent] (when
    it raises) or for the timestamp of the new record (when it appends). *)
Definition record_spend (b : BudgetManager) (t_check t_next : Z)
    (a : Q) (id : string) (meta : option (gmap string pyval)) : outcome unit :=
  bind (can_spend b t_check a) (fun ok b1 =>
    if negb ok then
      bind (get_daily_spent b1 t_next) (fun cur b2 =>
        Raises (Z402 (BudgetExceededError
                        (PyStr "Spending would exceed budget limits")
                        (Some (daily_limit b2)) (Some cur) PyNone)) b2)
    else
      with_lock b1 (fun b' => (tt, append_record b' t_next a id meta))).

(** [get_remaining_daily], [get_remaining_hourly] (lines 162-180). *)
Definition get_remaining_daily (b : BudgetManager) (now : Z) : outcome Q :=
  bind (get_daily_spent b now)
       (fun s b' => Returns (PyDecimal.sub (daily_limit b') s) b').

Definition get_remaining_hourly (b : BudgetManager) (now : Z) : outcome (option Q) :=
  match hourly_limit b with
  | Some h =>
      if is_set (Some h)
      then bind (get_hourly_spent b now)
                (fun s b' => Returns (Some (PyDecimal.sub h s)) b')
      else Returns None b
  | None => Returns None b
  end.

(** [get_transaction_history] (lines 182-200).  The cutoff is computed
    inside the critical section; when it is not a [datetime] the
    subtraction raises and the lock is released on the way out. *)
Definition get_transaction_history (b : BudgetManager) (now : Z) (hours : Z)
  : outcome (list transaction) :=
  bind
    (with_lock b (fun b' =>
       let cutoff := now - timedelta_hours hours in
       (if is_datetime cutoff
        then inl (List.filter (fun tx => cutoff <=? timestamp tx)
                              (_transactions b'))
        else inr (OtherException "OverflowError"),
        b')))
    (fun r b' =>
       match r with
       | inl txs => Returns txs b'
       | inr e => Raises e b'
       end).

(** [reset_history] (lines 202-205). *)
Definition reset_history (b : BudgetManager) : outcome unit :=
  with_lock b (fun b' => (tt, set_transactions b' [])).

(** [get_statistics] (lines 207-235).  The two percentages are the
    decimals that the code then converts with [float(...)]; dividing by a
    zero [daily_limit] raises ([decimal.InvalidOperation] for 0/0,
    [decimal.DivisionByZero] otherwise). *)
Record statistics : Type := {
  stat_daily_limit : Q;
  stat_daily_spent : Q;
  stat_daily_remaining : Q;
  stat_daily_usage_percent : Q;
  stat_hourly : option (Q * Q * Q * Q);  (* limit, spent, remaining, percent *)
  stat_transaction_limit : option Q
}.

Definition get_statistics (b : BudgetManager) (t_daily t_hourly : Z)
  : outcome statistics :=
  bind (get_daily_spent b t_daily) (fun daily_spent b1 =>
  bind (get_hourly_spent b1 t_hourly) (fun hourly_spent b2 =>
    if Qeq_bool (daily_limit b2) 0 then
      Raises (OtherException
                (if Qeq_bool daily_spent 0 then "decimal.InvalidOperation"
                 else "decimal.DivisionByZero")) b2
    else
    Returns
      {| stat_daily_limit := daily_limit b2;
         stat_daily_spent := daily_spent;
         stat_daily_remaining := PyDecimal.sub (daily_limit b2) daily_spent;
         stat_daily_usage_percent :=
           PyDecimal.mul (PyDecimal.div daily_spent (daily_limit b2)) 100;
         stat_hourly :=
           match hourly_limit b2 with
           | Some h =>
               if is_set (Some h)
               then Some (h, hourly_spent, PyDecimal.sub h hourly_spent,
                          PyDecimal.mul (PyDecimal.div hourly_spent h) 100)
               else None
           | None => None
           end;
         stat_transaction_limit :=
           match transaction_limit b2 with
           | Some t => if is_set (Some t) then Some t else None
           | None => None
           end |}
      b2)).

(** A caller's run: the calls of [record_spend] it makes one after the
    other, each with its arguments and the two values it reads from the
    clock.  A call that raises leaves the caller to go on. *)
Record spend : Type := {
  s_amount : Q;
  s_id : string;
  s_meta : option (gmap string pyval);
  s_check : Z;
  s_next : Z
}.

Definition do_spend (b : BudgetManager) (s : spend) : outcome unit :=
  record_spend b (s_check s) (s_next s) (s_amount s) (s_id s) (s_meta s).

Definition state_after {A} (o : outcome A) (b : BudgetManager) : BudgetManager :=
  match o with
  | Returns _ b' => b'
  | Raises _ b' => b'
  | Blocked => b
  end.

Fixpoint run_spends (b : BudgetManager) (l : list spend) : BudgetManager :=
  match l with
  | [] => b
  | s :: rest => run_spends (state_after (do_spend b s) b) rest
  end.

(** The two window tests of [can_spend], as propositions: the decimal
    sums of the code, and an hourly limit that is neither [None] nor
    zero. *)
Definition daily_ok (b : BudgetManager) (now : Z) (a : Q) : Prop :=
  (PyDecimal.add (spent_since (_transactions b) (now - timedelta_days 1)) a
   <= daily_limit b)%Q.

Definition hourly_ok (b : BudgetManager) (now : Z) (a : Q) : Prop :=
  forall h, hourly_limit b = Some h -> ~ (h == 0)%Q ->
            (PyDecimal.add (spent_since (_transactions b)
                                        (now - timedelta_hours 1)) a
             <= h)%Q.

(** The sum in the words of the specification: the amounts of the records
    whose timestamp is at least [start], added exactly. *)
Definition recorded_total (txs : list transaction) (start : Z) : Q :=
  fold_right Qplus 0%Q
    (map amount (List.filter (fun tx => start <=? timestamp tx) txs)).

(** The error that [record_spend] raises (lines 114-118). *)
Definition budget_exceeded (b : BudgetManager) (now : Z) : exn :=
  Z402 (BudgetExceededError (PyStr "Spending would exceed budget limits")
          (Some (daily_limit b))
          (Some (spent_since (_transactions b) (now - timedelta_days 1))) PyNone).

(** The scenario of the specification: limits 1.0 / 0.1 / 0.05 and spends
    of 0.03 at one instant. *)
Definition scenario_limits : BudgetManager :=
  init 1 (Some (1 # 10)) (Some (5 # 100)).

Definition after_spends (n : nat) (now : Z) : BudgetManager :=
  Nat.iter n
    (fun b => state_after (record_spend b now now (3 # 100) "tx" None) b)
    scenario_limits.

Definition scenario_tx (now : Z) : transaction :=
  {| amount := 3 # 100; transaction_id := "tx"; timestamp := now;
     metadata := ∅ |}.

Definition scenario_state (n : nat) (now : Z) : BudgetManager :=
  set_transactions scenario_limits (repeat (scenario_tx now) n).

(** A spend of [a] whose two clock readings are [t]. *)
Definition spend_of (a : Q) (t : Z) : spend :=
  {| s_amount := a; s_id := "tx"; s_meta := None; s_check := t; s_next := t |}.

(** A daily limit of 1.0000000000000000000000000000001, of 32 digits. *)
Definition one_and_a_trace : Q :=
  10000000000000000000000000000001 # 10000000000000000000000000000000.

(** The amount 1.0000000000000000000000000001, of 29 significant digits. *)
Definition one_and_a_bit : Q :=
  10000000000000000000000000001 # 10000000000000000000000000000.

End Budget.

(** ** Concurrent callers of [record_spend]

    Each [async with self._lock] of [budget.py] is a pair of steps: the
    acquisition, enabled only while the lock is free, and the body with the
    release.  [run] follows any schedule of such steps, a call at a time or
    interleaved; [event_loop] follows the schedules of asyncio, which runs
    a task until it awaits something that is not ready. *)

Module Concurrent.
Import Exceptions Budget.

(** The arguments of one call of [record_spend]. *)
Record call : Type := {
  c_amount : Q;
  c_id : string;
  c_meta : option (gmap string pyval)
}.

(** Where a call of [record_spend] stands. *)
Inductive pc : Type :=
  | Start                        (* line 113, entering [can_spend] *)
  | InCheck                      (* holds the lock, lines 68-94 *)
  | Accepted                     (* [can_spend] returned [True]; line 120 *)
  | InAppend                     (* holds the lock, lines 121-126 *)
  | Rejected                     (* [can_spend] returned [False]; line 117 *)
  | InDailySpent                 (* holds the lock, lines 135-143 *)
  | Finished (raised : option exn).

Inductive lock_event : Type := Acquire | Release.

(** One step of a call at clock value [now]; [None] when the call waits
    for the lock or has finished. *)
Definition step_call (b : BudgetManager) (now : Z) (c : call) (p : pc)
  : option (BudgetManager * pc * list lock_event) :=
  match p with
  | Start =>
      if over_transaction_limit b (c_amount c)
      then Some (b, Rejected, [])
      else if _lock b then None
      else Some (set_lock b true, InCheck, [Acquire])
  | InCheck =>
      Some (set_lock b false,
            if within_limits b now (c_amount c) then Accepted else Rejected,
            [Release])
  | Accepted =>
      if _lock b then None else Some (set_lock b true, InAppend, [Acquire])
  | InAppend =>
      Some (set_lock (append_record b now (c_amount c) (c_id c) (c_meta c)) false,
            Finished None, [Release])
  | Rejected =>
      if _lock b then None else Some (set_lock b true, InDailySpent, [Acquire])
  | InDailySpent =>
      Some (set_lock b false,
            Finished (Some (Z402 (BudgetExceededError
                              (PyStr "Spending would exceed budget limits")
                              (Some (daily_limit b))
                              (Some (spent_since (_transactions b)
                                                 (now - timedelta_days 1)))
                              PyNone))),
            [Release])
  | Finished _ => None
  end.

(** The shared manager, the calls in flight, and the lock events so far
    (with the index of the call that performed each). *)
Record config : Type := {
  mgr : BudgetManager;
  calls : list (call * pc);
  events : list (nat * lock_event)
}.

(** The scheduler runs one step of call [i]. *)
Definition step (cfg : config) (i : nat) (now : Z) : option config :=
  match calls cfg !! i with
  | Some (c, p) =>
      match step_call (mgr cfg) now c p with
      | Some (b', p', evs) =>
          Some {| mgr := b';
                  calls := <[i := (c, p')]> (calls cfg);
                  events := events cfg ++ map (fun e => (i, e)) evs |}
      | None => None
      end
  | None => None
  end.

(** A schedule names, for each step, the call that runs and the clock. *)
Fixpoint run (cfg : config) (schedule : list (nat * Z)) : option config :=
  match schedule with
  | [] => Some cfg
  | (i, now) :: rest =>
      match step cfg i now with
      | Some cfg' => run cfg' rest
      | None => None
      end
  end.

Definition launch (b : BudgetManager) (cs : list call) : config :=
  {| mgr := b; calls := map (fun c => (c, Start)) cs; events := [] |}.

(** Number of lock acquisitions of call [i]. *)
Definition acquisitions (i : nat) (evs : list (nat * lock_event)) : nat :=
  length (List.filter (fun e => (fst e =? i)%nat
                           && match snd e with Acquire => true | Release => false end)
                 evs).

(** One call alone: its four steps, the check at [t_check] and the append
    at [t_next]. *)
Definition solo_schedule (t_check t_next : Z) : list (nat * Z) :=
  [(0%nat, t_check); (0%nat, t_check); (0%nat, t_next); (0%nat, t_next)].

(** Two calls of 0.6 against a daily limit of 1.0. *)
Definition race_limits : BudgetManager := init 1 None None.

Definition call_a : call :=
  {| c_amount := 6 # 10; c_id := "tx_a"; c_meta := None |}.
Definition call_b : call :=
  {| c_amount := 6 # 10; c_id := "tx_b"; c_meta := None |}.

(** A schedule of [run] that takes the two calls in turn, step by step.
    [run] lets any call make the next step; the runs of an event loop,
    below, are among its runs. *)
Definition racy_schedule (t : Z) : list (nat * Z) :=
  [(0%nat, t); (0%nat, t); (1%nat, t); (1%nat, t);
   (0%nat, t); (0%nat, t); (1%nat, t); (1%nat, t)].

(** asyncio runs one task at a time and leaves it only where it awaits
    something that is not ready.  [asyncio.Lock.acquire] returns at once
    when the lock is free, and no critical section of [budget.py] awaits:
    the only place where a call of [record_spend] is suspended is the
    acquisition of a lock that is held.  A turn of a task runs its steps
    until none is enabled; a call takes at most four.  It reads the clock
    at [t_check] inside [can_spend] and at [t_next] afterwards. *)
Record turn : Type := {
  turn_of : nat;
  t_check : Z;
  t_next : Z
}.

Definition clock_at (p : pc) (t : turn) : Z :=
  match p with
  | Start | InCheck => t_check t
  | _ => t_next t
  end.

Fixpoint run_until_suspended (fuel : nat) (cfg : config) (t : turn) : config :=
  match fuel with
  | O => cfg
  | S fuel' =>
      match calls cfg !! turn_of t with
      | Some (c, p) =>
          match step cfg (turn_of t) (clock_at p t) with
          | Some cfg' => run_until_suspended fuel' cfg' t
          | None => cfg
          end
      | None => cfg
      end
  end.

(** The event loop gives the tasks their turns one after the other. *)
Fixpoint event_loop (cfg : config) (turns : list turn) : config :=
  match turns with
  | [] => cfg
  | t :: rest => event_loop (run_until_suspended 4 cfg t) rest
  end.

(** The sequential call that a turn of call [c] amounts to. *)
Definition spend_in_turn (cs : list call) (t : turn) : option spend :=
  match cs !! turn_of t with
  | Some c =>
      Some {| s_amount := c_amount c; s_id := c_id c; s_meta := c_meta c;
              s_check := t_check t; s_next := t_next t |}
  | None => None
  end.

(** How a call has ended, from the outcome of the sequential function. *)
Definition ending (o : outcome unit) : pc :=
  match o with
  | Raises e _ => Finished (Some e)
  | _ => Finished None
  end.

(** The turns of [asyncio.gather] on the two calls, in the order given. *)
Definition gather_turns (now : Z) : list turn :=
  [{| turn_of := 0; t_check := now; t_next := now |};
   {| turn_of := 1; t_check := now; t_next := now |}].

(** The program points inside an [async with self._lock] block. *)
Definition in_critical_section (p : pc) : bool :=
  match p with
  | InCheck | InAppend | InDailySpent => true
  | _ => false
  end.

(** The calls that are inside a critical section, and the calls that have
    returned. *)
Definition holders (cs : list (call * pc)) : nat :=
  length (List.filter (fun cp => in_critical_section (snd cp)) cs).

Definition has_returned (p : pc) : bool :=
  match p with Finished None => true | _ => false end.

Definition returned (cs : list (call * pc)) : nat :=
  length (List.filter (fun cp => has_returned (snd cp)) cs).

(** What every run keeps of the manager [b] it started from: the lock is
    held exactly when one call is inside a critical section, the limits
    are those of [b], and the ledger is that of [b] followed by one record
    for each call that has returned. *)
Definition lock_invariant (b : BudgetManager) (cfg : config) : Prop :=
  holders (calls cfg) = (if _lock (mgr cfg) then 1 else 0)%nat /\
  daily_limit (mgr cfg) = daily_limit b /\
  hourly_limit (mgr cfg) = hourly_limit b /\
  transaction_limit (mgr cfg) = transaction_limit b /\
  exists added,
    _transactions (mgr cfg) = _transactions b ++ added /\
    length added = returned (calls cfg).

End Concurrent.

(** ** Retry with exponential back-off: [z402/utils/retry.py] *)

Module Retry.
Import Exceptions Builtins.

Definition isinstance_NetworkError (error : exn) : bool :=
  match error with Z402 (NetworkError _ _) => true | _ => false end.

Definition isinstance_RateLimitError (error : exn) : bool :=
  match error with Z402 (RateLimitError _ _ _) => true | _ => false end.

(** [isinstance(error, Z402Error) and error.status_code]: the status code
    when the error is an SDK error whose code is neither [None] nor [0]. *)
Definition z402_status (error : exn) : option Z :=
  match error with
  | Z402 e =>
      match status_code_of e with
      | Some sc => if sc =? 0 then None else Some sc
      | None => None
      end
  | _ => None
  end.

(** [is_retryable_error] (lines 12-35). *)
Definition is_retryable_error (error : exn) : bool :=
  if isinstance_NetworkError error then true
  else if isinstance_RateLimitError error then true
  else match z402_status error with
       | Some sc => if (500 <=? sc) && (sc <? 600) then true else false
       | None => false
       end.

(** [isinstance(error, RateLimitError) and error.retry_after]. *)
Definition rate_limit_retry_after (error : exn) : option Z :=
  match error with
  | Z402 (RateLimitError _ (Some ra) _) => if ra =? 0 then None else Some ra
  | _ => None
  end.

(** [range(n)] *)
Definition range (n : Z) : list Z := map Z.of_nat (seq 0 (Z.to_nat n)).

(** The delays are Python numbers of the caller's choice, which
    [asyncio.sleep] accepts.  The loop compares them (inside [min]),
    multiplies them, and takes the [int] [retry_after] as one of them. *)
Class Number (N : Type) : Type := {
  num_lt : N -> N -> bool;       (* [a < b] *)
  num_mul : N -> N -> N;         (* [a * b] *)
  num_of_int : Z -> N            (* an [int] as a delay *)
}.

(** [min(a, b)]: the first argument unless the second is smaller. *)
Definition num_min {N : Type} `{Number N} (a b : N) : N :=
  if num_lt b a then b else a.

(** The [float] of the signature and of its defaults [1.0], [30.0], [2.0]:
    binary64, every product rounded to the nearest double, a tie to the
    even one. *)
Definition float : Type := SpecFloat.spec_float.

Definition float_of_int (z : Z) : float :=
  SpecFloat.binary_normalize 53 1024 z 0 false.

(** [a / b] on floats, to write the doubles that are not integers. *)
Definition float_div (a b : float) : float := SpecFloat.SFdiv 53 1024 a b.

(** The defaults of the decorator: [1.0], [30.0] and [2.0]. *)
Definition default_delay : float := float_of_int 1.
Definition default_cap : float := float_of_int 30.
Definition default_multiplier : float := float_of_int 2.

#[global] Instance float_number : Number float := {|
  num_lt := SpecFloat.SFltb;
  num_mul := SpecFloat.SFmul 53 1024;
  num_of_int := float_of_int
|}.

(** Exact delays: [int] and [fractions.Fraction] arguments. *)
#[global] Instance exact_number : Number Q := {|
  num_lt := fun a b => negb (Qle_bool b a);
  num_mul := Qmult;
  num_of_int := inject_Z
|}.

Section RetryWithBackoff.

(** The wrapped coroutine acts on a world [W] and returns an [A] or
    raises; the delays are numbers of a type [N]. *)
Context {W A N : Type} `{Number N}.
Variable max_retries : Z.
Variables initial_delay max_delay backoff_multiplier : N.
Variable func : W -> (A + exn) * W.

(** What a call of the wrapper does: its result, the number of times it
    invoked [func], the arguments of [asyncio.sleep] in order, and the
    world it leaves. *)
Record trace : Type := {
  result : A + exn;
  invocations : nat;
  sleeps : list N;
  world : W
}.

(** Line 100, [raise last_error]. *)
Definition raise_last (last_error : option exn) : A + exn :=
  match last_error with
  | Some e => inr e
  | None => inr (OtherException "UnboundLocalError")
  end.

(** The [for attempt in range(max_retries + 1)] loop (lines 70-98) over
    the attempts that remain. *)
Fixpoint loop (attempts : list Z) (delay : N) (last_error : option exn)
    (n : nat) (slept : list N) (w : W) : trace :=
  match attempts with
  | [] =>
      {| result := raise_last last_error; invocations := n;
         sleeps := slept; world := w |}
  | attempt :: rest =>
      let '(r, w') := func w in
      match r with
      | inl v =>
          {| result := inl v; invocations := S n; sleeps := slept; world := w' |}
      | inr error =>
          if negb (is_Exception error) then
            {| result := inr error; invocations := S n;
               sleeps := slept; world := w' |}
          else if negb (is_retryable_error error) then
            {| result := inr error; invocations := S n;
               sleeps := slept; world := w' |}
          else if attempt =? max_retries then
            {| result := raise_last (Some error); invocations := S n;
               sleeps := slept; world := w' |}
          else
            let delay' :=
              match rate_limit_retry_after error with
              | Some retry_after => num_min (num_of_int retry_after) max_delay
              | None => num_min delay max_delay
              end in
            loop rest (num_mul delay' backoff_multiplier) (Some error)
                 (S n) (slept ++ [delay']) w'
      end
  end.

(** The decorated function (lines 66-100). *)
Definition wrapper (w : W) : trace :=
  loop (range (max_retries + 1)) initial_delay None 0%nat [] w.

(** The world after [n] invocations of [func]. *)
Fixpoint after_calls (n : nat) (w : W) : W :=
  match n with
  | O => w
  | S n' => after_calls n' (snd (func w))
  end.

(** The errors raised by the first [n] invocations from [w]. *)
Fixpoint errors_of (n : nat) (w : W) : list exn :=
  match n with
  | O => []
  | S n' =>
      match fst (func w) with
      | inr e => e :: errors_of n' (snd (func w))
      | inl _ => []
      end
  end.

(** Lines 85-96 as a recurrence on the errors that are followed by a
    wait: the wait taken, times the multiplier, is the next delay. *)
Fixpoint backoff_waits (delay : N) (errors : list exn) : list N :=
  match errors with
  | [] => []
  | error :: rest =>
      let wait :=
        match rate_limit_retry_after error with
        | Some retry_after => num_min (num_of_int retry_after) max_delay
        | None => num_min delay max_delay
        end in
      wait :: backoff_waits (num_mul wait backoff_multiplier) rest
  end.

(** The schedule in the words of the specification: [current_delay]
    starts at [initial_delay] and is multiplied by [backoff_multiplier]
    after each wait; the wait is [min(current_delay, max_delay)], or
    [min(retry_after, max_delay)] for a rate-limit error that carries a
    [retry_after]. *)
Fixpoint specified_waits (current_delay : N) (errors : list exn) : list N :=
  match errors with
  | [] => []
  | error :: rest =>
      match rate_limit_retry_after error with
      | Some retry_after => num_min (num_of_int retry_after) max_delay
      | None => num_min current_delay max_delay
      end :: specified_waits (num_mul current_delay backoff_multiplier) rest
  end.

(** A delay that has reached the cap: [min(delay, max_delay)] is
    [max_delay]. *)
Definition capped (delay : N) : Prop := num_min delay max_delay = max_delay.

End RetryWithBackoff.

Arguments result {W A N} _.
Arguments invocations {W A N} _.
Arguments sleeps {W A N} _.
Arguments world {W A N} _.

(** A coroutine that raises the errors of a script, one per invocation,
    then returns [tt]. *)
Definition scripted (script : list exn) : (unit + exn) * list exn :=
  match script with
  | e :: rest => (inr e, rest)
  | [] => (inl tt, [])
  end.

Definition network_error : exn :=
  Z402 (NetworkError (PyStr "Network request failed") PyNone).

Definition rate_limited (retry_after : Z) : exn :=
  Z402 (RateLimitError (PyStr "Rate limit exceeded") (Some retry_after) PyNone).

Definition not_found : exn :=
  Z402 (NotFoundError (PyStr "Resource not found") PyNone).

Definition no_retry_after (error : exn) : Prop :=
  rate_limit_retry_after error = None.

(** A coroutine that raises [e] at every invocation; its world counts the
    invocations. *)
Definition always (e : exn) (calls : nat) : (unit + exn) * nat :=
  (inr e, S calls).

(** An outcome of the wrapped coroutine after which the loop does not go
    on, whatever the attempt: a value (line 74), or an error that
    [is_retryable_error] refuses (lines 79-80). *)
Definition ends_loop {A} (r : A + exn) : bool :=
  match r with
  | inl _ => true
  | inr error => negb (is_retryable_error error)
  end.

End Retry.

(** ** The request pipeline: [z402/utils/http.py] *)

Module Http.
Import Exceptions Builtins.

(** [AsyncHTTPClient._build_headers] (lines 78-87); [custom_headers] is
    [None] or a dict, and [headers.update(custom)] lets the entries of
    [custom] replace those of [headers]. *)
Definition _build_headers (api_key : string)
    (custom_headers : option (gmap string string)) : gmap string string :=
  let headers : gmap string string :=
    <["User-Agent" := "z402-python-sdk/0.1.0"]>
      (<["X-API-Key" := api_key]>
         (<["Content-Type" := "application/json"]> ∅)) in
  match custom_headers with
  | Some custom => if bool_decide (custom = ∅) then headers else custom ∪ headers
  | None => headers
  end.

(** What the code reads of an [aiohttp.ClientResponse] whose body has
    arrived: the status, the result of [response.json()] ([None] when it
    raises), the result of [response.text()] ([None] when the body does
    not decode in the charset of the response and [text()] raises
    [UnicodeDecodeError]), and the headers under their lower-case names. *)
Record ClientResponse : Type := {
  status : Z;
  json : option pyval;
  text : option string;
  headers : gmap string string
}.

(** [response.ok] of aiohttp: the status is below 400. *)
Definition ok (r : ClientResponse) : bool := status r <? 400.

(** [v.get(key, default)]: only a dict has [get]. *)
Definition py_get (v : pyval) (key : string) (default : pyval) : pyval + exn :=
  match v with
  | PyDict d => inl (match dict_get d key with Some x => x | None => default end)
  | _ => inr (OtherException "AttributeError")
  end.

Definition bind {A B} (m : A + exn) (k : A -> B + exn) : B + exn :=
  match m with inl a => k a | inr e => inr e end.

Notation "x <- m ;; k" := (bind m (fun x => k))
  (at level 100, m at next level, right associativity).

(** Lines 91-95; the error of [response.text()] leaves the handler. *)
Definition response_data (r : ClientResponse) : pyval + exn :=
  match json r with
  | Some data => inl data
  | None =>
      match text r with
      | Some text =>
          inl (if negb (String.eqb text EmptyString)
               then PyDict [("message", PyStr text)]
               else PyDict [])
      | None => inr (OtherException "UnicodeDecodeError")
      end
  end.

(** [int(retry_after) if retry_after else None] (line 122). *)
Definition parse_retry_after (h : option string) : option Z + exn :=
  match h with
  | Some s =>
      if negb (String.eqb s EmptyString) then
        match py_int s with
        | Some n => inl (Some n)
        | None => inr (OtherException "ValueError")
        end
      else inl None
  | None => inl None
  end.

(** The [if]/[elif] chain on [response.status] (lines 104-126). *)
Definition raise_for_status (response : ClientResponse)
    (data message details : pyval) : pyval + exn :=
  if status response =? 401 then
    inr (Z402 (AuthenticationError message details))
  else if status response =? 400 then
    inr (Z402 (InvalidRequestError message details))
  else if status response =? 402 then
    payment_info <- py_get data "payment" (PyDict []) ;;
    amount <- py_get payment_info "amount" PyNone ;;
    resource <- py_get payment_info "resource" PyNone ;;
    inr (Z402 (PaymentRequiredError message amount resource details))
  else if status response =? 404 then
    inr (Z402 (NotFoundError message details))
  else if status response =? 429 then
    retry_after <- parse_retry_after (headers response !! "retry-after") ;;
    inr (Z402 (RateLimitError message retry_after details))
  else
    inr (Z402 (APIError message (Some (status response)) None details)).

(** [AsyncHTTPClient._handle_response] (lines 89-128): the decoded body,
    or the exception raised. *)
Definition _handle_response (response : ClientResponse) : pyval + exn :=
  data <- response_data response ;;
  if negb (ok response) then
    err1 <- py_get data "error" (PyDict []) ;;
    m1 <- py_get err1 "message" PyNone ;;
    message <- (if truthy m1 then inl m1
                else m2 <- py_get data "message" PyNone ;;
                     inl (py_or m2 (PyStr "API error"))) ;;
    err2 <- py_get data "error" (PyDict []) ;;
    d1 <- py_get err2 "details" PyNone ;;
    details <- (if truthy d1 then inl d1 else py_get data "details" PyNone) ;;
    raise_for_status response data message details
  else inl data.

(** The headers that [_build_headers] starts from (lines 80-84). *)
Definition required_headers (api_key : string) : gmap string string :=
  <["User-Agent" := "z402-python-sdk/0.1.0"]>
    (<["X-API-Key" := api_key]>
       (<["Content-Type" := "application/json"]> ∅)).

(** A 401 response whose JSON body carries the error as a string, and a
    429 response whose [Retry-After] is an HTTP date. *)
Definition unauthorized_response : ClientResponse :=
  {| status := 401;
     json := Some (PyDict [("error", PyStr "Unauthorized")]);
     text := Some EmptyString;
     headers := ∅ |}.

Definition rate_limited_response : ClientResponse :=
  {| status := 429;
     json := Some (PyDict [("error", PyDict [("message", PyStr "Too many requests")])]);
     text := Some EmptyString;
     headers := <["retry-after" := "Wed, 21 Oct 2015 07:28:00 GMT"]> ∅ |}.

(** The body shape that [_handle_response] expects: a dict whose ["error"]
    and ["payment"] entries, when present, are dicts. *)
Definition dict_or_absent (d : list (string * pyval)) (key : string) : Prop :=
  match dict_get d key with
  | Some (PyDict _) | None => True
  | Some _ => False
  end.

Definition enveloped (r : ClientResponse) : Prop :=
  exists d, response_data r = inl (PyDict d) /\
            dict_or_absent d "error" /\ dict_or_absent d "payment".

(** What a well-formed response makes [_handle_response] raise, by its
    status (the table of the specification). *)
Inductive error_kind : Type :=
  | invalid_request | authentication_error | payment_required | not_found
  | rate_limit | api_error | network_error.

Definition kind_of_status (st : Z) : error_kind :=
  if st =? 400 then invalid_request
  else if st =? 401 then authentication_error
  else if st =? 402 then payment_required
  else if st =? 404 then not_found
  else if st =? 429 then rate_limit
  else api_error.

Definition kind_of (e : exn) : option error_kind :=
  match e with
  | Z402 (InvalidRequestError _ _) => Some invalid_request
  | Z402 (AuthenticationError _ _) => Some authentication_error
  | Z402 (PaymentRequiredError _ _ _ _) => Some payment_required
  | Z402 (NotFoundError _ _) => Some not_found
  | Z402 (RateLimitError _ _ _) => Some rate_limit
  | Z402 (APIError _ _ _ _) => Some api_error
  | Z402 (NetworkError _ _) => Some network_error
  | _ => None
  end.

Definition kind_of_exn (r : pyval + exn) : option error_kind :=
  match r with inr e => kind_of e | inl _ => None end.

(** What the [async with self._session.request(...)] block meets on one
    attempt: a response whose body is read, a timeout, or a client error
    (raised while connecting or while reading the body). *)
Inductive transport : Type :=
  | Responded (r : ClientResponse)
  | TimedOut                       (* [asyncio.TimeoutError] *)
  | ClientFailed (msg : string).   (* [aiohttp.ClientError], [str(error)] *)

(** The body of [request] (lines 156-181), one attempt. *)
Definition request_once (t : transport) : pyval + exn :=
  match t with
  | Responded r => _handle_response r
  | TimedOut => inr (Z402 (NetworkError (PyStr "Request timeout") PyNone))
  | ClientFailed msg => inr (Z402 (NetworkError (PyStr msg) (PyStr msg)))
  end.

(** [request], decorated with [@retry_with_backoff()]: the defaults are
    3 retries and the floats [1.0], [30.0] and [2.0]. *)
Definition request {W} (net : W -> transport * W) : W -> Retry.trace :=
  Retry.wrapper 3 Retry.default_delay Retry.default_cap
                Retry.default_multiplier
                (fun w => let '(t, w') := net w in (request_once t, w')).

(** [self.base_url] as [AsyncHTTPClient.__init__] stores it (line 42). *)
Definition stored_base_url (base_url : string) : string :=
  rstrip_char "/" base_url.

Definition is_not_None (v : pyval) : bool :=
  match v with PyNone => false | _ => true end.

Section Url.

(** [urllib.parse.urlencode] on the items of a dict. *)
Variable urlencode : list (string * pyval) -> string.

(** [AsyncHTTPClient._build_url] (lines 68-76); [base_url] is
    [self.base_url], and [query] is [None] or the items of a dict. *)
Definition _build_url (base_url path : string)
    (query : option (list (string * pyval))) : string :=
  let url := (base_url ++ path)%string in
  match query with
  | Some [] | None => url
  | Some q =>
      let filtered_query := List.filter (fun kv => is_not_None (snd kv)) q in
      match filtered_query with
      | [] => url
      | _ => (url ++ "?" ++ urlencode filtered_query)%string
      end
  end.

End Url.

End Http.

(** ** SHA-256 (FIPS 180-4) and HMAC (RFC 2104), as [hashlib] and [hmac]
       compute them; words and bytes are non-negative [Z]. *)

Module Sha256.

Definition mask32 (x : Z) : Z := Z.land x 0xFFFFFFFF.
Definition add32 (x y : Z) : Z := mask32 (x + y).
Definition rotr (n x : Z) : Z :=
  Z.lor (Z.shiftr x n) (mask32 (Z.shiftl x (32 - n))).
Definition xor3 (x y z : Z) : Z := Z.lxor (Z.lxor x y) z.

Definition Ch (x y z : Z) : Z :=
  Z.lxor (Z.land x y) (Z.land (mask32 (Z.lnot x)) z).
Definition Maj (x y z : Z) : Z :=
  xor3 (Z.land x y) (Z.land x z) (Z.land y z).
Definition Sigma0 (x : Z) : Z := xor3 (rotr 2 x) (rotr 13 x) (rotr 22 x).
Definition Sigma1 (x : Z) : Z := xor3 (rotr 6 x) (rotr 11 x) (rotr 25 x).
Definition sigma0 (x : Z) : Z := xor3 (rotr 7 x) (rotr 18 x) (Z.shiftr x 3).
Definition sigma1 (x : Z) : Z := xor3 (rotr 17 x) (rotr 19 x) (Z.shiftr x 10).

Definition K : list Z := [
    0x428A2F98; 0x71374491; 0xB5C0FBCF; 0xE9B5DBA5;
    0x3956C25B; 0x59F111F1; 0x923F82A4; 0xAB1C5ED5;
    0xD807AA98; 0x12835B01; 0x243185BE; 0x550C7DC3;
    0x72BE5D74; 0x80DEB1FE; 0x9BDC06A7; 0xC19BF174;
    0xE49B69C1; 0xEFBE4786; 0x0FC19DC6; 0x240CA1CC;
    0x2DE92C6F; 0x4A7484AA; 0x5CB0A9DC; 0x76F988DA;
    0x983E5152; 0xA831C66D; 0xB00327C8; 0xBF597FC7;
    0xC6E00BF3; 0xD5A79147; 0x06CA6351; 0x14292967;
    0x27B70A85; 0x2E1B2138; 0x4D2C6DFC; 0x53380D13;
    0x650A7354; 0x766A0ABB; 0x81C2C92E; 0x92722C85;
    0xA2BFE8A1; 0xA81A664B; 0xC24B8B70; 0xC76C51A3;
    0xD192E819; 0xD6990624; 0xF40E3585; 0x106AA070;
    0x19A4C116; 0x1E376C08; 0x2748774C; 0x34B0BCB5;
    0x391C0CB3; 0x4ED8AA4A; 0x5B9CCA4F; 0x682E6FF3;
    0x748F82EE; 0x78A5636F; 0x84C87814; 0x8CC70208;
    0x90BEFFFA; 0xA4506CEB; 0xBEF9A3F7; 0xC67178F2 ].

Definition initial_hash : list Z := [
    0x6A09E667; 0xBB67AE85; 0x3C6EF372; 0xA54FF53A;
    0x510E527F; 0x9B05688C; 0x1F83D9AB; 0x5BE0CD19 ].

(** Big-endian bytes of a word of [n] bytes. *)
Fixpoint be_bytes (n : nat) (x : Z) : list Z :=
  match n with
  | O => []
  | S n' => Z.land (Z.shiftr x (8 * Z.of_nat n')) 255 :: be_bytes n' x
  end.

(** The message, the byte [0x80], zeros up to 56 modulo 64, and the bit
    length on 8 bytes. *)
Definition pad (msg : list Z) : list Z :=
  let len := Z.of_nat (length msg) in
  let zeros := Z.to_nat ((55 - len) mod 64) in
  msg ++ [128] ++ repeat 0 zeros ++ be_bytes 8 (8 * len).

Fixpoint words (bs : list Z) : list Z :=
  match bs with
  | a :: b :: c :: d :: rest =>
      (Z.shiftl a 24 + Z.shiftl b 16 + Z.shiftl c 8 + d) :: words rest
  | _ => []
  end.

(** The message schedule, kept most recent word first. *)
Fixpoint extend (n : nat) (rw : list Z) : list Z :=
  match n with
  | O => rw
  | S n' =>
      let w := add32 (add32 (sigma1 (nth 1 rw 0)) (nth 6 rw 0))
                     (add32 (sigma0 (nth 14 rw 0)) (nth 15 rw 0)) in
      extend n' (w :: rw)
  end.

Definition schedule (block : list Z) : list Z := rev (extend 48 (rev block)).

Definition round (st : list Z) (kw : Z * Z) : list Z :=
  match st with
  | [a; b; c; d; e; f; g; h] =>
      let t1 := add32 (add32 (add32 h (Sigma1 e)) (add32 (Ch e f g) (fst kw))) (snd kw) in
      let t2 := add32 (Sigma0 a) (Maj a b c) in
      [add32 t1 t2; a; b; c; add32 d t1; e; f; g]
  | _ => st
  end.

Definition compress (hash block : list Z) : list Z :=
  let st := fold_left round (combine K (schedule block)) hash in
  map (fun p => add32 (fst p) (snd p)) (combine hash st).

Fixpoint blocks (n : nat) (ws : list Z) : list (list Z) :=
  match n with
  | O => []
  | S n' =>
      match ws with
      | [] => []
      | _ => firstn 16 ws :: blocks n' (skipn 16 ws)
      end
  end.

Definition sha256 (msg : list Z) : list Z :=
  let ws := words (pad msg) in
  flat_map (be_bytes 4) (fold_left compress (blocks (length ws) ws) initial_hash).

Definition xor_with (c : Z) (bs : list Z) : list Z := map (Z.lxor c) bs.

(** [hmac.new(key, msg, hashlib.sha256).digest()] *)
Definition hmac_sha256 (key msg : list Z) : list Z :=
  let key1 := if (64 <? length key)%nat then sha256 key else key in
  let key2 := key1 ++ repeat 0 (64 - length key1) in
  sha256 (xor_with 0x5C key2 ++ sha256 (xor_with 0x36 key2 ++ msg)).

Definition hex_digit (n : Z) : ascii :=
  if n <? 10 then ascii_of_nat (Z.to_nat (48 + n))
  else ascii_of_nat (Z.to_nat (87 + n)).

(** [.hexdigest()] *)
Fixpoint hex (bs : list Z) : string :=
  match bs with
  | [] => EmptyString
  | b :: rest =>
      String (hex_digit (Z.shiftr b 4)) (String (hex_digit (Z.land b 15)) (hex rest))
  end.

(** The characters of a [hexdigest]: digits and [a] to [f]. *)
Definition is_hexdigit (c : ascii) : bool :=
  let n := nat_of_ascii c in
  ((48 <=? n) && (n <=? 57) || (97 <=? n) && (n <=? 102))%nat.


Definition bytes_to_Z (bs : list byte) : list Z :=
  map (fun b => Z.of_N (Byte.to_N b)) bs.

(** [hmac.new(key, msg, hashlib.sha256).hexdigest()] *)
Definition hmac_sha256_hex (key msg : list byte) : string :=
  hex (hmac_sha256 (bytes_to_Z key) (bytes_to_Z msg)).

End Sha256.

(** ** The webhook authenticator: [z402/utils/webhook.py] *)

Module Webhook.
Import Exceptions Builtins.

(** [payload: Union[str, bytes, Dict[str, Any]]].  A dict payload holds
    JSON values ([pyval]), on which [json.dumps] returns; a dict holding a
    value that [json.dumps] refuses with [TypeError] (a set, say) is not a
    [payload]. *)
Inductive payload : Type :=
  | PayloadStr (s : string)
  | PayloadBytes (b : list byte)
  | PayloadDict (d : list (string * pyval)).

(** [raise WebhookVerificationError(msg)] *)
Definition verification_error (msg : string) : exn :=
  Z402 (WebhookVerificationError (PyStr msg) PyNone).

(** [hmac.new(secret.encode("utf-8"), f"{timestamp}.{payload_string}"
    .encode("utf-8"), hashlib.sha256).hexdigest()] *)
Definition sign (secret : string) (timestamp : Z) (payload_string : string)
  : string :=
  Sha256.hmac_sha256_hex
    (encode_utf8 secret)
    (encode_utf8 (py_str timestamp ++ "." ++ payload_string)%string).

(** Lines 56-64: the two components of a signature header, the text after
    [t=] and the text after [v1=]. *)
Definition header_parts (signature : string) : option (string * string) :=
  let parts := split "," signature in
  match next_such (startswith "t=") parts, next_such (startswith "v1=") parts with
  | Some tp, Some sp =>
      match after_first "=" tp, after_first "=" sp with
      | Some timestamp_str, Some provided_signature =>
          Some (timestamp_str, provided_signature)
      | _, _ => None
      end
  | _, _ => None
  end.

(** The timestamp component of a signature header, as [int] reads it. *)
Definition header_timestamp_with (int : string -> option Z)
    (signature : string) : option Z :=
  match header_parts signature with
  | Some (timestamp_str, _) => int timestamp_str
  | None => None
  end.

Definition header_timestamp : string -> option Z :=
  header_timestamp_with py_int.

(** The range of a byte. *)
Definition is_byte (b : Z) : Prop := 0 <= b < 256.

(** The error of the freshness check (line 73). *)
Definition too_old : exn := verification_error "Signature timestamp too old".

(** [hmac.compare_digest(a, b)] on two [str]: a [TypeError] (here [None])
    unless both are ASCII. *)
Definition compare_digest (a b : string) : option bool :=
  if is_ascii a && is_ascii b then Some (String.eqb a b) else None.

Section Json.

(** The [json] library: [json.dumps(d, separators=(",", ":"))] and
    [json.loads(s)], [None] standing for [json.JSONDecodeError]. *)
Variable json_dumps : list (string * pyval) -> string.
Variable json_loads : string -> option pyval.

(** Lines 76-81: the payload as a string; [None] stands for the
    [UnicodeDecodeError] of [payload.decode("utf-8")]. *)
Definition payload_string_of (p : payload) : option string :=
  match p with
  | PayloadDict d => Some (json_dumps d)
  | PayloadBytes b => decode_utf8 b
  | PayloadStr s => Some s
  end.

(** Lines 75-101 of [verify_webhook]: recompute the signature over
    [timestamp] and the payload, compare, and return the event. *)
Definition authenticate (p : payload) (secret : string) (timestamp : Z)
    (provided_signature : string) : pyval + exn :=
  match payload_string_of p with
  | None => inr (OtherException "UnicodeDecodeError")
  | Some payload_string =>
      let expected_signature := sign secret timestamp payload_string in
      match compare_digest expected_signature provided_signature with
      | None => inr (OtherException "TypeError")
      | Some false => inr (verification_error "Invalid signature")
      | Some true =>
          match p with
          | PayloadDict d => inl (PyDict d)
          | _ =>
              match json_loads payload_string with
              | Some event => inl event
              | None => inr (verification_error "Invalid JSON payload")
              end
          end
      end
  end.

Section Int.

(** The built-in [int] on a [str], [None] standing for [ValueError]. *)
Variable int : string -> option Z.

(** [verify_webhook] (lines 12-101); [now] is [int(time.time())]. *)
Definition verify_webhook_with (now : Z) (p : payload)
    (signature secret : string) (tolerance : Z) : pyval + exn :=
  if String.eqb signature EmptyString then
    inr (verification_error "Missing signature header")
  else if String.eqb secret EmptyString then
    inr (verification_error "Webhook secret not provided")
  else
    let parts := split "," signature in
    let timestamp_part := next_such (startswith "t=") parts in
    let signature_part := next_such (startswith "v1=") parts in
    match timestamp_part, signature_part with
    | Some tp, Some sp =>
        if String.eqb tp EmptyString || String.eqb sp EmptyString then
          inr (verification_error "Invalid signature format")
        else
          match after_first "=" tp, after_first "=" sp with
          | Some timestamp_str, Some provided_signature =>
              match int timestamp_str with
              | None => inr (verification_error "Invalid timestamp in signature")
              | Some timestamp =>
                  if Z.abs (now - timestamp) >? tolerance then
                    inr (verification_error "Signature timestamp too old")
                  else authenticate p secret timestamp provided_signature
              end
          | _, _ => inr (OtherException "IndexError")
          end
    | _, _ => inr (verification_error "Invalid signature format")
    end.

End Int.

(** [verify_webhook] with [int] as it reads ASCII text, for headers whose
    timestamp is written in ASCII digits. *)
Definition verify_webhook : Z -> payload -> string -> string -> Z -> pyval + exn :=
  verify_webhook_with py_int.

(** [construct_webhook_signature] (lines 104-138) on its declared
    payloads, [Union[str, Dict[str, Any]]]; [now] is [int(time.time())]. *)
Definition construct_webhook_signature (now : Z)
    (p : string + list (string * pyval)) (secret : string) : string :=
  let timestamp := now in
  let payload_string :=
    match p with
    | inr d => json_dumps d
    | inl s => s
    end in
  let signature := sign secret timestamp payload_string in
  ("t=" ++ py_str timestamp ++ ",v1=" ++ signature)%string.

(** The string that [construct_webhook_signature] signs for a payload. *)
Definition payload_text (p : string + list (string * pyval)) : string :=
  match p with inr d => json_dumps d | inl s => s end.


End Json.

End Webhook.

(** ** A JSON codec for running the webhook functions

    The [json] library is an argument of the webhook functions.  To run them
    on concrete payloads this codec implements the JSON grammar of RFC 8259
    for texts without backslash escapes and without fractions or exponents;
    texts that use those are outside its domain. *)

Module MiniJson.

Definition is_ws (c : ascii) : bool :=
  let n := nat_of_ascii c in
  ((n =? 32) || (n =? 9) || (n =? 10) || (n =? 13))%nat.

Fixpoint skip_ws (s : string) : string :=
  match s with
  | String c s' => if is_ws c then skip_ws s' else s
  | EmptyString => EmptyString
  end.

(** The double-quote character. *)
Definition dquote : ascii := ascii_of_nat 34.

(** The characters of a string literal up to the closing quote. *)
Fixpoint scan_string (s : string) : option (string * string) :=
  match s with
  | EmptyString => None
  | String c s' =>
      if Ascii.eqb c dquote then Some (EmptyString, s')
      else if Ascii.eqb c "\" then None
      else if (nat_of_ascii c <? 32)%nat then None
      else match scan_string s' with
           | Some (body, rest) => Some (String c body, rest)
           | None => None
           end
  end.

Fixpoint scan_digits (s : string) : string * string :=
  match s with
  | String c s' =>
      if Builtins.is_digit c
      then let '(ds, rest) := scan_digits s' in (String c ds, rest)
      else (EmptyString, s)
  | EmptyString => (EmptyString, EmptyString)
  end.

(** An integer literal: no leading zero unless it is the only digit. *)
Definition scan_int (s : string) : option (Z * string) :=
  let '(negative, s1) :=
    match s with
    | String "-" r => (true, r)
    | _ => (false, s)
    end in
  let '(ds, rest) := scan_digits s1 in
  match ds with
  | EmptyString => None
  | String "0" (String _ _) => None
  | _ =>
      match rest with
      | String "." _ | String "e" _ | String "E" _ => None
      | _ =>
          match NilEmpty.uint_of_string ds with
          | Some u => Some (if negative then - Z.of_uint u else Z.of_uint u, rest)
          | None => None
          end
      end
  end.

Fixpoint drop (n : nat) (s : string) : string :=
  match n, s with
  | S n', String _ s' => drop n' s'
  | _, _ => s
  end.

(** [d[key] = v] on the items of a dict: a key already present keeps its
    place. *)
Fixpoint dict_set (d : list (string * pyval)) (key : string) (v : pyval)
  : list (string * pyval) :=
  match d with
  | [] => [(key, v)]
  | (k, x) :: rest =>
      if String.eqb k key then (k, v) :: rest else (k, x) :: dict_set rest key v
  end.

(** [parse_value fuel s]: a value at the head of [s] and the rest. *)
Fixpoint parse_value (fuel : nat) (s : string) : option (pyval * string) :=
  match fuel with
  | O => None
  | S fuel' =>
      let fix items (n : nat) (s : string) (acc : list pyval)
          : option (list pyval * string) :=
        match n with
        | O => None
        | S n' =>
            match parse_value fuel' (skip_ws s) with
            | Some (v, rest) =>
                match skip_ws rest with
                | String "," rest' => items n' rest' (acc ++ [v])
                | String "]" rest' => Some (acc ++ [v], rest')
                | _ => None
                end
            | None => None
            end
        end in
      let fix members (n : nat) (s : string) (acc : list (string * pyval))
          : option (list (string * pyval) * string) :=
        match n with
        | O => None
        | S n' =>
            match skip_ws s with
            | String c s1 =>
                if negb (Ascii.eqb c dquote) then None else
                match scan_string s1 with
                | Some (key, s2) =>
                    match skip_ws s2 with
                    | String ":" s3 =>
                        match parse_value fuel' (skip_ws s3) with
                        | Some (v, rest) =>
                            match skip_ws rest with
                            | String "," rest' =>
                                members n' rest' (dict_set acc key v)
                            | String "}" rest' =>
                                Some (dict_set acc key v, rest')
                            | _ => None
                            end
                        | None => None
                        end
                    | _ => None
                    end
                | None => None
                end
            | EmptyString => None
            end
        end in
      match s with
      | EmptyString => None
      | String c s' =>
          if Ascii.eqb c "{" then
            match skip_ws s' with
            | String "}" rest => Some (PyDict [], rest)
            | _ => match members fuel' s' [] with
                   | Some (d, rest) => Some (PyDict d, rest)
                   | None => None
                   end
            end
          else if Ascii.eqb c "[" then
            match skip_ws s' with
            | String "]" rest => Some (PyList [], rest)
            | _ => match items fuel' s' [] with
                   | Some (l, rest) => Some (PyList l, rest)
                   | None => None
                   end
            end
          else if Ascii.eqb c dquote then
            match scan_string s' with
            | Some (body, rest) => Some (PyStr body, rest)
            | None => None
            end
          else if Builtins.startswith "true" s then Some (PyBool true, drop 4 s)
          else if Builtins.startswith "false" s then Some (PyBool false, drop 5 s)
          else if Builtins.startswith "null" s then Some (PyNone, drop 4 s)
          else
            match scan_int s with
            | Some (n, rest) => Some (PyInt n, rest)
            | None => None
            end
      end
  end.

(** [json.loads(s)] *)
Definition loads (s : string) : option pyval :=
  match parse_value (S (String.length s)) (skip_ws s) with
  | Some (v, rest) =>
      match skip_ws rest with
      | EmptyString => Some v
      | _ => None
      end
  | None => None
  end.

Definition quote (s : string) : string :=
  (String dquote s ++ String dquote EmptyString)%string.

(** Compact serialisation of a value. *)
Fixpoint dumps_value (fuel : nat) (v : pyval) : string :=
  match fuel with
  | O => EmptyString
  | S fuel' =>
      match v with
      | PyNone => "null"
      | PyBool true => "true"
      | PyBool false => "false"
      | PyInt n => Builtins.py_str n
      | PyFloat q => EmptyString        (* a fraction: outside this codec *)
      | PyStr s => quote s
      | PyList l =>
          ("[" ++ String.concat "," (map (dumps_value fuel') l) ++ "]")%string
      | PyDict d =>
          ("{" ++ String.concat ","
                    (map (fun kv => (quote (fst kv) ++ ":"
                                     ++ dumps_value fuel' (snd kv))%string) d)
               ++ "}")%string
      end
  end.

(** [json.dumps(d, separators=(",", ":"))] for values nested at most 64
    deep. *)
Definition dumps (d : list (string * pyval)) : string :=
  dumps_value 64 (PyDict d).


Definition settled_event : list (string * pyval) :=
  [("type", PyStr "payment.settled")].

End MiniJson.

(** ** The client: [z402/client.py] *)

Module Client.
Import Exceptions Builtins Budget.

(** [raise ValueError(...)] *)
Definition value_error : exn := OtherException "ValueError".

(** What [Z402Client.__init__] stores: the arguments of its
    [AsyncHTTPClient] and the budget manager. *)
Record Z402Client : Type := {
  api_key : string;
  base_url : string;
  max_retries : Z;
  timeout : Z;
  debug : bool;
  budget : option BudgetManager
}.

(** [Z402Client.__init__] (lines 65-104). *)
Definition init (api_key network : string) (base_url : option string)
    (max_retries timeout : Z) (debug : bool)
    (budget_manager : option BudgetManager) : Z402Client + exn :=
  if String.eqb api_key EmptyString then inr value_error
  else if negb (startswith "z402_" api_key) then inr value_error
  else
    let base_url :=
      match base_url with
      | None =>
          if String.eqb network "mainnet" then "https://api.z402.io/v1"
          else "https://api-testnet.z402.io/v1"
      | Some url => url
      end in
    inl {| api_key := api_key;
           base_url := Http.stored_base_url base_url;
           max_retries := max_retries;
           timeout := timeout;
           debug := debug;
           budget := budget_manager |}.

Section Pay.

(** The API is a world [W]; [payments.create] and [payments.pay] are the two
    exchanges with it, each giving a [PaymentIntent] or raising. *)
Context {W PaymentIntent : Type}.
Variable id : PaymentIntent -> string.
Variable payments_create :
  Q -> string -> option (gmap string pyval) -> W -> (PaymentIntent + exn) * W.
Variable payments_pay :
  string -> string -> string -> W -> (PaymentIntent + exn) * W.

(** What a call of [pay] leaves: its result, the world, and the budget
    manager of the client. *)
Inductive pay_outcome : Type :=
  | Paid (paid : PaymentIntent) (w : W) (budget : option BudgetManager)
  | Failed (e : exn) (w : W) (budget : option BudgetManager)
  | Waiting.                             (* for the lock of the manager *)

(** What the other tasks of the event loop do to the manager while a call
    of [pay] is suspended: [during_create] while it awaits
    [payments.create] (line 173), [during_pay] while it awaits
    [payments.pay] (line 182) and then the lock of [record_spend]. *)
Record interference : Type := {
  during_create : BudgetManager -> BudgetManager;
  during_pay : BudgetManager -> BudgetManager
}.

(** No other task uses the manager. *)
Definition alone : interference :=
  {| during_create := fun b => b; during_pay := fun b => b |}.

(** Lines 172-191 of [pay]: create the intent, submit the payment, record
    the spend on the manager as it is found then. *)
Definition submit_and_record (others : interference)
    (budget : option BudgetManager)
    (t_check t_next : Z) (amount : Q) (resource from_address tx_id : string)
    (metadata : option (gmap string pyval)) (w : W) : pay_outcome :=
  let '(created, w1) := payments_create amount resource metadata w in
  let budget1 := option_map (during_create others) budget in
  match created with
  | inr e => Failed e w1 budget1
  | inl intent =>
      let '(submitted, w2) := payments_pay (id intent) from_address tx_id w1 in
      let budget2 := option_map (during_pay others) budget1 in
      match submitted with
      | inr e => Failed e w2 budget2
      | inl paid =>
          match budget2 with
          | Some b =>
              match record_spend b t_check t_next amount (id paid) metadata with
              | Returns _ b' => Paid paid w2 (Some b')
              | Raises e b' => Failed e w2 (Some b')
              | Blocked => Waiting
              end
          | None => Paid paid w2 None
          end
      end
  end.

(** [Z402Client.pay] (lines 119-191) on a client whose manager is
    [budget], among the tasks [others].  The clock is read at [t_ask] by
    the [can_spend] of line 169, and at [t_check] and [t_next] by
    [record_spend].  Between the two the call awaits the API twice, and the
    other tasks run. *)
Definition pay_among (others : interference)
    (budget : option BudgetManager) (t_ask t_check t_next : Z)
    (amount : Q) (resource from_address tx_id : string)
    (metadata : option (gmap string pyval)) (check_budget : bool) (w : W)
  : pay_outcome :=
  match (if check_budget then budget else None) with
  | Some b =>
      match can_spend b t_ask amount with
      | Returns allowed b1 =>
          if negb allowed then Failed value_error w (Some b1)
          else submit_and_record others (Some b1) t_check t_next amount
                                 resource from_address tx_id metadata w
      | Raises e b1 => Failed e w (Some b1)
      | Blocked => Waiting
      end
  | None =>
      submit_and_record others budget t_check t_next amount resource
                        from_address tx_id metadata w
  end.

(** [pay] of a client whose manager no other task uses meanwhile:
    [record_spend] finds the manager that [can_spend] left. *)
Definition pay : option BudgetManager -> Z -> Z -> Z -> Q ->
    string -> string -> string -> option (gmap string pyval) -> bool -> W ->
    pay_outcome :=
  pay_among alone.

End Pay.

Arguments Paid {W PaymentIntent} paid w budget.
Arguments Failed {W PaymentIntent} e w budget.
Arguments Waiting {W PaymentIntent}.

(** An API that accepts every payment; its world counts the exchanges, and
    a [PaymentIntent] is given by its [id]. *)
Definition accepting_create (amount : Q) (resource : string)
    (metadata : option (gmap string pyval)) (w : nat) : (string + exn) * nat :=
  (inl "pi_1", S w).

Definition accepting_pay (payment_id from_address tx_id : string) (w : nat)
  : (string + exn) * nat :=
  (inl payment_id, S w).

(** Another task records a spend of 0.04 while the call awaits
    [payments.pay]. *)
Definition one_more_spend (now : Z) : interference :=
  {| during_create := fun b => b;
     during_pay := fun b => append_record b now (4 # 100) "tx_other" None |}.

End Client.

(** ** The paywall of FastAPI: [z402/middleware.py] *)

Module Middleware.
Import Exceptions Builtins.

(** [JSONResponse(status_code=..., content=...)] *)
Record JSONResponse : Type := {
  status_code : Z;
  content : pyval
}.

(** The arguments of [Z402Middleware.__init__] (lines 53-67). *)
Record Z402Middleware : Type := {
  api_key : string;
  protected_paths : list string;
  amount : string;
  resource : string;
  base_url : string
}.

(** [v[key]] for a string key: only a dict has one. *)
Definition subscript (v : pyval) (key : string) : pyval + exn :=
  match v with
  | PyDict d =>
      match dict_get d key with
      | Some x => inl x
      | None => inr (OtherException "KeyError")
      end
  | _ => inr (OtherException "TypeError")
  end.

(** [v == s] for a string [s]. *)
Definition is_str (v : pyval) (s : string) : bool :=
  match v with PyStr x => String.eqb x s | _ => false end.

(** The bodies of the four responses of the paywall. *)
Definition error_body (code message : string) : string * pyval :=
  ("error", PyDict [("code", PyStr code); ("message", PyStr message)]).

Definition payment_required (self : Z402Middleware) : JSONResponse :=
  {| status_code := 402;
     content :=
       PyDict [error_body "payment_required"
                          "Payment required to access this resource";
               ("payment", PyDict [("amount", PyStr (amount self));
                                   ("currency", PyStr "ZEC");
                                   ("resource", PyStr (resource self))])] |}.

Definition payment_not_settled (status paid : pyval) : JSONResponse :=
  {| status_code := 402;
     content :=
       PyDict [error_body "payment_not_settled"
                          "Payment has not been settled yet";
               ("payment", PyDict [("status", status); ("amount", paid)])] |}.

Definition insufficient_payment (self : Z402Middleware) (paid : pyval)
  : JSONResponse :=
  {| status_code := 402;
     content :=
       PyDict [error_body "insufficient_payment"
                          "Payment amount is insufficient";
               ("payment", PyDict [("required", PyStr (amount self));
                                   ("paid", paid)])] |}.

Definition internal_error : JSONResponse :=
  {| status_code := 500;
     content := PyDict [error_body "internal_error" "Failed to verify payment"] |}.

Section Paywall.

(** The world [W] holds the API and the application.  [float(v)] and [<]
    on floats are those of Python, [None] standing for the [ValueError] or
    [TypeError] of [float]; [session_get] is [session.get(url, headers)],
    giving the response or raising; [call_next] is the application behind
    the paywall, called with what is attached to [request.state]. *)
Context {W Response Float : Type}.
Variable py_float : pyval -> option Float.
Variable float_lt : Float -> Float -> bool.
Variable session_get :
  string -> gmap string string -> W -> (Http.ClientResponse + exn) * W.
Variable call_next : option pyval -> W -> (Response + exn) * W.

(** What [__call__] returns: a response of its own or the one of the
    application. *)
Inductive answer : Type :=
  | Refused (r : JSONResponse)
  | Served (r : Response).

(** [request.url.path.startswith(path) for path in self.protected_paths] *)
Definition is_protected (self : Z402Middleware) (path : string) : bool :=
  existsb (fun p => startswith p path) (protected_paths self).

(** [f"{self.base_url}/payment-intents/{payment_intent_id}/verify"] *)
Definition verify_url (self : Z402Middleware) (payment_intent_id : string)
  : string :=
  (base_url self ++ "/payment-intents/" ++ payment_intent_id ++ "/verify")%string.

(** The body of the [try] (lines 98-144). *)
Definition verify_and_serve (self : Z402Middleware)
    (payment_intent_id : string) (w : W) : (answer + exn) * W :=
  let headers : gmap string string := <["X-API-Key" := api_key self]> ∅ in
  let '(got, w1) := session_get (verify_url self payment_intent_id) headers w in
  match got with
  | inr e => (inr e, w1)
  | inl response =>
      if negb (Http.ok response) then (inr (OtherException "Exception"), w1)
      else
        match Http.json response with
        | None => (inr (OtherException "ContentTypeError"), w1)
        | Some payment_intent =>
            match subscript payment_intent "status" with
            | inr e => (inr e, w1)
            | inl status =>
                if negb (is_str status "settled") then
                  match subscript payment_intent "amount" with
                  | inr e => (inr e, w1)
                  | inl paid => (inl (Refused (payment_not_settled status paid)), w1)
                  end
                else
                  match subscript payment_intent "amount" with
                  | inr e => (inr e, w1)
                  | inl paid =>
                      match py_float paid, py_float (PyStr (amount self)) with
                      | Some x, Some y =>
                          if float_lt x y
                          then (inl (Refused (insufficient_payment self paid)), w1)
                          else
                            let '(r, w2) := call_next (Some payment_intent) w1 in
                            match r with
                            | inl served => (inl (Served served), w2)
                            | inr e => (inr e, w2)
                            end
                      | _, _ =>            (* or [TypeError] *)
                          (inr (OtherException "ValueError"), w1)
                      end
                  end
            end
        end
  end.

(** [Z402Middleware.__call__] (lines 69-155) on a request with the given
    path and [z402-payment-intent] header. *)
Definition __call__ (self : Z402Middleware) (path : string)
    (payment_intent_id : option string) (w : W) : (answer + exn) * W :=
  if negb (is_protected self path) then
    let '(r, w1) := call_next None w in
    match r with
    | inl served => (inl (Served served), w1)
    | inr e => (inr e, w1)
    end
  else
    match payment_intent_id with
    | None | Some EmptyString => (inl (Refused (payment_required self)), w)
    | Some intent_id =>
        let '(r, w1) := verify_and_serve self intent_id w in
        match r with
        | inr error =>
            if is_Exception error then (inl (Refused internal_error), w1)
            else (inr error, w1)
        | done => (done, w1)
        end
    end.

End Paywall.

Arguments Refused {Response} r.
Arguments Served {Response} r.

End Middleware.

(** * Properties *)

(** ** Arithmetic of windowed sums *)

Module SumFacts.
Import Budget.
Local Open Scope Q_scope.

Lemma Qgtb_true x y : Qgtb x y = true <-> y < x.
Proof.
  unfold Qgtb. rewrite negb_true_iff. split; intros H.
  - apply Qnot_le_lt. intros Hle. apply Qle_bool_iff in Hle. congruence.
  - destruct (Qle_bool x y) eqn:E; [|reflexivity].
    apply Qle_bool_iff in E. lra.
Qed.

Lemma Qgtb_false x y : Qgtb x y = false <-> x <= y.
Proof.
  unfold Qgtb. rewrite negb_false_iff. apply Qle_bool_iff.
Qed.

Lemma is_set_Some q : is_set (Some q) = true <-> ~ q == 0.
Proof.
  simpl. rewrite negb_true_iff. split; intros H.
  - intros E. apply Qeq_bool_iff in E. congruence.
  - destruct (Qeq_bool q 0) eqn:E; [|reflexivity].
    apply Qeq_bool_iff in E. contradiction.
Qed.

Lemma py_sum_snoc l x : py_sum (l ++ [x]) = PyDecimal.add (py_sum l) x.
Proof. unfold py_sum. now rewrite fold_left_app. Qed.

Lemma spent_since_nil start : spent_since [] start = 0.
Proof. reflexivity. Qed.

(** A record appended inside the window is added, with the rounding of
    the context, to the sum of the window. *)
Lemma spent_since_snoc txs tx start :
  spent_since (txs ++ [tx]) start =
  if (start <=? timestamp tx)%Z
  then PyDecimal.add (spent_since txs start) (amount tx)
  else spent_since txs start.
Proof.
  unfold spent_since. rewrite List.filter_app, List.map_app. simpl.
  destruct (start <=? timestamp tx)%Z; simpl.
  - apply py_sum_snoc.
  - now rewrite List.app_nil_r.
Qed.

End SumFacts.

(** ** Strings: splitting, integers and hexadecimal digests *)

Module StringFacts.
Import Builtins.

Lemma append_String x a b :
  (String x a ++ b)%string = String x (a ++ b)%string.
Proof. reflexivity. Qed.

Lemma append_Empty b : (EmptyString ++ b)%string = b.
Proof. reflexivity. Qed.

Lemma contains_app c a b :
  contains c (a ++ b)%string = contains c a || contains c b.
Proof.
  induction a as [|x a IH]; [reflexivity|].
  rewrite append_String. cbn. rewrite IH. now rewrite orb_assoc.
Qed.

Lemma split_no_sep c s : contains c s = false -> split c s = [s].
Proof.
  induction s as [|x s IH]; cbn; [reflexivity|].
  intros H. apply orb_false_iff in H. destruct H as [H1 H2].
  rewrite H1, (IH H2). reflexivity.
Qed.

Lemma split_app_sep c a b :
  contains c a = false ->
  split c (a ++ String c b)%string = a :: split c b.
Proof.
  induction a as [|x a IH].
  - intros _. rewrite append_Empty. cbn. now rewrite Ascii.eqb_refl.
  - rewrite append_String. cbn.
    intros H. apply orb_false_iff in H. destruct H as [H1 H2].
    rewrite H1, (IH H2). reflexivity.
Qed.

Lemma all_chars_contains pred c s :
  pred c = false -> all_chars pred s = true -> contains c s = false.
Proof.
  intros Hc. induction s as [|x s IH]; cbn; [reflexivity|].
  intros H. apply andb_true_iff in H. destruct H as [H1 H2].
  rewrite (IH H2), orb_false_r.
  destruct (Ascii.eqb_spec x c) as [->|]; [congruence|reflexivity].
Qed.

Lemma uint_digits u : all_chars is_digit (NilEmpty.string_of_uint u) = true.
Proof. induction u; cbn; auto. Qed.

Lemma digit_not_space c : is_digit c = true -> is_space c = false.
Proof.
  unfold is_digit, is_space. intros H. apply andb_true_iff in H.
  destruct H as [H1 H2]. apply Nat.leb_le in H1. apply Nat.leb_le in H2.
  apply orb_false_iff. split.
  - apply andb_false_iff. right. apply Nat.leb_gt. lia.
  - apply Nat.eqb_neq. lia.
Qed.

Lemma lstrip_digits s : all_chars is_digit s = true -> lstrip s = s.
Proof.
  destruct s as [|c s]; cbn; [reflexivity|].
  intros H. apply andb_true_iff in H. destruct H as [H _].
  now rewrite (digit_not_space c H).
Qed.

Lemma rstrip_digits s : all_chars is_digit s = true -> rstrip s = s.
Proof.
  induction s as [|c s IH]; cbn; [reflexivity|].
  intros H. apply andb_true_iff in H. destruct H as [H1 H2].
  rewrite (IH H2), (digit_not_space c H1). now destruct s.
Qed.

Lemma int_digits_all_digits s :
  all_chars is_digit s = true ->
  forall b, int_digits s b =
            match s with
            | EmptyString => if b then Some EmptyString else None
            | _ => Some s
            end.
Proof.
  induction s as [|c s IH]; cbn; [reflexivity|].
  intros H b. apply andb_true_iff in H. destruct H as [H1 H2].
  rewrite H1, (IH H2 true). now destruct s.
Qed.

Lemma digit_not_sign c :
  is_digit c = true -> Ascii.eqb c "-" = false /\ Ascii.eqb c "+" = false.
Proof.
  intros H. split.
  - destruct (Ascii.eqb_spec c "-") as [->|]; [discriminate H|reflexivity].
  - destruct (Ascii.eqb_spec c "+") as [->|]; [discriminate H|reflexivity].
Qed.

(** [int] reads back what [str] prints: unsigned digits ... *)
Lemma py_int_digits u :
  u <> Decimal.Nil ->
  py_int (NilEmpty.string_of_uint u) = Some (Z.of_uint u).
Proof.
  intros Hu. pose proof (uint_digits u) as Hd.
  unfold py_int, strip. rewrite (lstrip_digits _ Hd), (rstrip_digits _ Hd).
  destruct (NilEmpty.string_of_uint u) as [|c r] eqn:E.
  - destruct u; cbn in E; congruence.
  - pose proof Hd as Hd'. cbn in Hd'. apply andb_true_iff in Hd'.
    destruct Hd' as [Hc _]. destruct (digit_not_sign c Hc) as [-> ->].
    rewrite (int_digits_all_digits _ Hd false).
    rewrite <- E, NilEmpty.usu. reflexivity.
Qed.

(** ... and a minus sign before them. *)
Lemma py_int_minus_digits u :
  u <> Decimal.Nil ->
  py_int (String "-" (NilEmpty.string_of_uint u)) = Some (- Z.of_uint u).
Proof.
  intros Hu. pose proof (uint_digits u) as Hd.
  assert (Hne : exists c r, NilEmpty.string_of_uint u = String c r).
  { destruct (NilEmpty.string_of_uint u) as [|c r] eqn:E; [|eauto].
    destruct u; cbn in E; congruence. }
  destruct Hne as (c & r & E).
  unfold py_int, strip.
  assert (S1 : lstrip (String "-" (NilEmpty.string_of_uint u))
               = String "-" (NilEmpty.string_of_uint u)) by reflexivity.
  rewrite S1.
  assert (S2 : rstrip (String "-" (NilEmpty.string_of_uint u))
               = String "-" (NilEmpty.string_of_uint u)).
  { cbn [rstrip]. rewrite (rstrip_digits _ Hd), E. reflexivity. }
  rewrite S2. cbn [Ascii.eqb Bool.eqb]. cbn iota.
  rewrite (int_digits_all_digits _ Hd false), E, <- E, NilEmpty.usu.
  reflexivity.
Qed.

Lemma py_int_py_str z : py_int (py_str z) = Some z.
Proof.
  unfold py_str. rewrite <- (DecimalZ.of_to z) at 2.
  destruct z as [|p|p]; cbn [Z.to_int NilZero.string_of_int Z.of_int].
  - reflexivity.
  - pose proof (DecimalPos.Unsigned.to_uint_nonnil p) as Hn.
    unfold NilZero.string_of_uint.
    destruct (Pos.to_uint p) eqn:E; try congruence;
      rewrite <- E; apply py_int_digits; congruence.
  - pose proof (DecimalPos.Unsigned.to_uint_nonnil p) as Hn.
    unfold NilZero.string_of_uint.
    destruct (Pos.to_uint p) eqn:E; try congruence;
      rewrite <- E; apply py_int_minus_digits; congruence.
Qed.

Lemma py_str_no_comma z : contains "," (py_str z) = false.
Proof.
  unfold py_str.
  assert (H : forall u, contains "," (NilZero.string_of_uint u) = false).
  { intros u. unfold NilZero.string_of_uint.
    destruct u; try reflexivity;
      apply (all_chars_contains is_digit); try reflexivity; apply uint_digits. }
  destruct (Z.to_int z) as [u|u]; cbn; apply H.
Qed.

End StringFacts.

(** ** Digests are lower-case hexadecimal *)

Module DigestFacts.
Import Builtins Sha256 Webhook.

Lemma be_bytes_range n x : Forall is_byte (be_bytes n x).
Proof.
  induction n as [|n IH]; cbn [be_bytes]; constructor; [|exact IH].
  unfold is_byte. change 255 with (Z.ones 8). rewrite Z.land_ones by lia.
  apply Z.mod_pos_bound. lia.
Qed.

Lemma sha256_range msg : Forall is_byte (sha256 msg).
Proof.
  unfold sha256. generalize (fold_left compress
    (blocks (length (words (pad msg))) (words (pad msg))) initial_hash) as l.
  induction l as [|w l IH]; cbn [flat_map]; [constructor|].
  apply Forall_app. split; [apply be_bytes_range | exact IH].
Qed.

Lemma hex_digit_clean n :
  0 <= n < 16 ->
  (nat_of_ascii (hex_digit n) <? 128)%nat = true /\
  Ascii.eqb (hex_digit n) "," = false.
Proof.
  intros H. rewrite <- (Z2Nat.id n) by lia.
  assert (Hk : (Z.to_nat n < 16)%nat) by lia.
  revert Hk. generalize (Z.to_nat n) as k. intros k Hk.
  do 16 (destruct k as [|k]; [split; reflexivity|]). lia.
Qed.

Lemma hex_clean bs :
  Forall is_byte bs -> is_ascii (hex bs) = true /\ contains "," (hex bs) = false.
Proof.
  induction 1 as [|b bs Hb _ [IH1 IH2]]; cbn [hex is_ascii contains];
    [split; reflexivity|].
  unfold is_byte in Hb.
  assert (Hhi : 0 <= Z.shiftr b 4 < 16).
  { rewrite Z.shiftr_div_pow2 by lia. change (2 ^ 4) with 16.
    split; [apply Z.div_pos; lia | apply Z.div_lt_upper_bound; lia]. }
  assert (Hlo : 0 <= Z.land b 15 < 16).
  { change 15 with (Z.ones 4). rewrite Z.land_ones by lia.
    apply Z.mod_pos_bound. lia. }
  destruct (hex_digit_clean _ Hhi) as [A1 A2].
  destruct (hex_digit_clean _ Hlo) as [B1 B2].
  rewrite A1, A2, B1, B2, IH1, IH2. split; reflexivity.
Qed.

Lemma round_length st kw : length (round st kw) = length st.
Proof.
  unfold round.
  destruct st as [|a [|b [|c [|d [|e [|f [|g [|h [|i st]]]]]]]]]; reflexivity.
Qed.

Lemma fold_round_length kws : forall st,
  length (fold_left round kws st) = length st.
Proof.
  induction kws as [|kw kws IH]; intros st; cbn [fold_left]; [reflexivity|].
  now rewrite IH, round_length.
Qed.

Lemma compress_length hash block : length (compress hash block) = length hash.
Proof.
  unfold compress.
  rewrite length_map, length_combine, fold_round_length. apply Nat.min_id.
Qed.

Lemma sha256_length msg : length (sha256 msg) = 32%nat.
Proof.
  unfold sha256. cbv zeta.
  assert (H : forall bl h, length (fold_left compress bl h) = length h).
  { induction bl as [|b bl IH]; intros h; cbn [fold_left]; [reflexivity|].
    now rewrite IH, compress_length. }
  specialize (H (blocks (length (words (pad msg))) (words (pad msg)))
                initial_hash).
  revert H.
  generalize (fold_left compress
                (blocks (length (words (pad msg))) (words (pad msg)))
                initial_hash) as st.
  intros st H. cbn [initial_hash length] in H.
  destruct st as [|a [|b [|c [|d [|e [|f [|g [|h [|i st]]]]]]]]];
    try discriminate H.
  reflexivity.
Qed.





Lemma sign_clean secret timestamp payload_string :
  is_ascii (sign secret timestamp payload_string) = true /\
  contains "," (sign secret timestamp payload_string) = false.
Proof.
  unfold sign, hmac_sha256_hex, hmac_sha256. apply hex_clean, sha256_range.
Qed.

End DigestFacts.

(** ** The spend ledger, one caller at a time *)

Module BudgetProps.
Import Exceptions Budget SumFacts.
Local Open Scope Q_scope.

Lemma set_lock_same b l : _lock b = l -> set_lock b l = b.
Proof. destruct b; simpl; intros <-; reflexivity. Qed.

Lemma set_lock_set_lock b l l' : set_lock (set_lock b l) l' = set_lock b l'.
Proof. reflexivity. Qed.

Lemma with_lock_free {A} b (body : BudgetManager -> A * BudgetManager) :
  _lock b = false ->
  with_lock b body =
  let '(a, b') := body (set_lock b true) in Returns a (set_lock b' false).
Proof. intros H. unfold with_lock. now rewrite H. Qed.

Lemma with_lock_held {A} b (body : BudgetManager -> A * BudgetManager) :
  _lock b = true -> with_lock b body = Blocked.
Proof. intros H. unfold with_lock. now rewrite H. Qed.

(** [can_spend] by cases on the per-transaction test and on the lock. *)
Lemma can_spend_cases b now a :
  can_spend b now a =
  if over_transaction_limit b a then Returns false b
  else if _lock b then Blocked
  else Returns (within_limits b now a) b.
Proof.
  unfold can_spend. destruct (over_transaction_limit b a); [reflexivity|].
  destruct (_lock b) eqn:L.
  - now apply with_lock_held.
  - rewrite with_lock_free by assumption. cbv beta iota zeta.
    rewrite set_lock_set_lock, (set_lock_same b false) by assumption.
    reflexivity.
Qed.

Lemma get_daily_spent_cases b now :
  get_daily_spent b now =
  if _lock b then Blocked
  else Returns (spent_since (_transactions b) (now - timedelta_days 1)) b.
Proof.
  unfold get_daily_spent. destruct (_lock b) eqn:L.
  - now apply with_lock_held.
  - rewrite with_lock_free by assumption. cbv beta iota zeta.
    rewrite set_lock_set_lock, (set_lock_same b false) by assumption.
    reflexivity.
Qed.

Lemma over_transaction_limit_true b a :
  over_transaction_limit b a = true <->
  exists t, transaction_limit b = Some t /\ ~ t == 0 /\ t < a.
Proof.
  unfold over_transaction_limit. destruct (transaction_limit b) as [t|].
  - rewrite andb_true_iff, is_set_Some, Qgtb_true. split.
    + intros [H1 H2]. now exists t.
    + intros (t' & [= <-] & H1 & H2). now split.
  - split; [discriminate|]. now intros (t & [=] & _).
Qed.

Lemma within_limits_true b now a :
  within_limits b now a = true <-> daily_ok b now a /\ hourly_ok b now a.
Proof.
  unfold within_limits, daily_ok, hourly_ok.
  destruct (Qgtb (PyDecimal.add
                    (spent_since (_transactions b) (now - timedelta_days 1)) a)
                 (daily_limit b)) eqn:D.
  - apply Qgtb_true in D. split; [discriminate|]. intros [H _]. lra.
  - apply Qgtb_false in D. destruct (hourly_limit b) as [h|].
    + destruct (is_set (Some h)) eqn:S.
      * apply is_set_Some in S.
        destruct (Qgtb (PyDecimal.add
                          (spent_since (_transactions b)
                                       (now - timedelta_hours 1)) a) h)
          eqn:Hh.
        -- apply Qgtb_true in Hh. split; [discriminate|].
           intros [_ H]. specialize (H h eq_refl S). lra.
        -- apply Qgtb_false in Hh. split; [|reflexivity].
           intros _. split; [exact D|]. now intros h' [= <-] _.
      * split; [|reflexivity]. intros _. split; [exact D|].
        intros h' [= <-] Hn. apply is_set_Some in Hn. congruence.
    + split; [|reflexivity]. intros _. split; [exact D|]. now intros h' [=].
Qed.

Lemma record_spend_cases b t_check t_next a id meta :
  record_spend b t_check t_next a id meta =
  if _lock b then Blocked
  else if over_transaction_limit b a || negb (within_limits b t_check a)
  then Raises (budget_exceeded b t_next) b
  else Returns tt (append_record b t_next a id meta).
Proof.
  unfold record_spend. rewrite can_spend_cases.
  destruct (_lock b) eqn:L.
  - destruct (over_transaction_limit b a); simpl; [|reflexivity].
    rewrite get_daily_spent_cases, L. reflexivity.
  - destruct (over_transaction_limit b a); simpl.
    + rewrite get_daily_spent_cases, L. reflexivity.
    + destruct (within_limits b t_check a); simpl.
      * rewrite with_lock_free by assumption. cbv beta iota zeta.
        f_equal. unfold append_record, set_transactions, set_lock; simpl.
        destruct b; simpl in *; subst; reflexivity.
      * rewrite get_daily_spent_cases, L. reflexivity.
Qed.

(** When every record carries the time [now], both windows hold the
    whole ledger. *)
Lemma spent_since_all_at (now start : Z) txs :
  (start <= now)%Z -> Forall (fun tx => timestamp tx = now) txs ->
  spent_since txs start = py_sum (map amount txs).
Proof.
  intros Hle Hall. unfold spent_since. f_equal. f_equal.
  induction Hall as [|tx txs Htx _ IH]; [reflexivity|].
  simpl. rewrite Htx, (proj2 (Z.leb_le start now) Hle). now f_equal.
Qed.

Lemma scenario_within_limits n now :
  (n <= 3)%nat ->
  within_limits (scenario_state n now) now (3 # 100) = (n <? 3)%nat.
Proof.
  intros Hn.
  assert (Hall : Forall (fun tx => timestamp tx = now)
                        (_transactions (scenario_state n now))).
  { apply List.Forall_forall. intros tx Hin. simpl in Hin.
    apply repeat_spec in Hin. now subst. }
  unfold within_limits.
  rewrite !(spent_since_all_at now) by
    (try exact Hall; unfold timedelta_days, timedelta_hours; lia).
  destruct n as [|[|[|[|n]]]]; [vm_compute; reflexivity ..|lia].
Qed.

Lemma after_spends_state n now :
  after_spends n now = scenario_state (Nat.min n 3) now.
Proof.
  induction n as [|n IH]; [reflexivity|].
  change (after_spends (S n) now)
    with (state_after (record_spend (after_spends n now) now now (3 # 100) "tx" None)
                      (after_spends n now)).
  rewrite IH, record_spend_cases, scenario_within_limits by lia.
  cbn [scenario_state set_transactions _lock scenario_limits init
       over_transaction_limit transaction_limit].
  replace (is_set (Some (5 # 100)) && Qgtb (3 # 100) (5 # 100)) with false
    by reflexivity.
  destruct (Nat.min n 3 <? 3)%nat eqn:E.
  - apply Nat.ltb_lt in E. cbn [negb andb orb state_after].
    replace (Nat.min (S n) 3) with (S (Nat.min n 3)) by lia.
    unfold append_record, scenario_state, set_transactions. cbn.
    f_equal. symmetry. apply (repeat_cons (Nat.min n 3) (scenario_tx now)).
  - apply Nat.ltb_ge in E. cbn [negb andb orb state_after].
    f_equal. lia.
Qed.

(** [can_spend] is a query: it returns the manager it was given, it never
    raises, and with the lock free it returns. *)
Lemma can_spend_is_a_query b now a :
  (forall r b', can_spend b now a = Returns r b' -> b' = b) /\
  (forall e b', can_spend b now a <> Raises e b') /\
  (_lock b = false -> exists r, can_spend b now a = Returns r b).
Proof.
  rewrite can_spend_cases. repeat split.
  - intros r b'. destruct (over_transaction_limit b a); [now intros [= _ <-]|].
    destruct (_lock b); [discriminate|]. now intros [= _ <-].
  - intros e b'. destruct (over_transaction_limit b a); [discriminate|].
    destruct (_lock b); discriminate.
  - intros L. rewrite L. destruct (over_transaction_limit b a); eauto.
Qed.

(** What [can_spend] answers with the lock free, in the terms of the
    code: decimal sums, and limits that count when they are neither [None]
    nor zero. *)
Lemma can_spend_answer b now a :
  _lock b = false ->
  (can_spend b now a = Returns true b <->
   (forall t, transaction_limit b = Some t -> ~ t == 0 -> a <= t) /\
   daily_ok b now a /\ hourly_ok b now a).
Proof.
  intros L. rewrite can_spend_cases, L.
  destruct (over_transaction_limit b a) eqn:O.
  - apply over_transaction_limit_true in O. destruct O as (t & Ht & Hn & Hlt).
    split; [discriminate|]. intros (H & _). specialize (H t Ht Hn). lra.
  - split.
    + intros [= W]. apply within_limits_true in W. split; [|exact W].
      intros t Ht Hn. apply Qnot_lt_le. intros Hlt.
      assert (X : over_transaction_limit b a = true)
        by (apply over_transaction_limit_true; now exists t).
      congruence.
    + intros (_ & W). apply within_limits_true in W. now rewrite W.
Qed.

(** The scenario of the specification, at any clock value: under the
    limits 1.0 / 0.1 / 0.05 three spends of 0.03 are approved and recorded,
    and a fourth is refused. *)
Lemma scenario_three_then_refused now :
  can_spend (after_spends 0 now) now (3 # 100) = Returns true (after_spends 0 now) /\
  can_spend (after_spends 1 now) now (3 # 100) = Returns true (after_spends 1 now) /\
  can_spend (after_spends 2 now) now (3 # 100) = Returns true (after_spends 2 now) /\
  length (_transactions (after_spends 3 now)) = 3%nat /\
  can_spend (after_spends 3 now) now (3 # 100) = Returns false (after_spends 3 now).
Proof.
  assert (C : forall n, can_spend (after_spends n now) now (3 # 100)
                        = Returns (Nat.min n 3 <? 3)%nat (after_spends n now)).
  { intros n. rewrite can_spend_cases, after_spends_state,
      scenario_within_limits by lia. reflexivity. }
  rewrite !C. repeat split. rewrite after_spends_state. reflexivity.
Qed.

(** A limit that is zero takes no part in the answer. *)
Lemma zero_transaction_limit_ignored b a t :
  transaction_limit b = Some t -> t == 0 -> over_transaction_limit b a = false.
Proof.
  intros Ht Hz. unfold over_transaction_limit. rewrite Ht. cbn [is_set].
  now rewrite (proj2 (Qeq_bool_iff t 0) Hz).
Qed.

Lemma zero_hourly_limit_ignored b now a h :
  hourly_limit b = Some h -> h == 0 ->
  within_limits b now a =
  negb (Qgtb (PyDecimal.add (spent_since (_transactions b)
                                         (now - timedelta_days 1)) a)
             (daily_limit b)).
Proof.
  intros Hh Hz. unfold within_limits. rewrite Hh. cbn [is_set].
  rewrite (proj2 (Qeq_bool_iff h 0) Hz). cbn [negb].
  now destruct (Qgtb _ (daily_limit b)).
Qed.

(** C8. [can_spend] does not refuse every amount that exceeds a limit that
    is set.  A per-transaction limit or an hourly limit given as zero is
    stored as the decimal zero and then skipped by the truth tests of lines
    65 and 83: with the lock free the answer is the one of the daily
    window alone, so that 5 is approved under a per-transaction limit of
    0, and under an hourly limit of 0.  And the sums are decimals of 28
    digits: on an empty ledger with a daily limit of 1 the amount
    1.0000000000000000000000000001 is approved, although it exceeds the
    limit. *)
Theorem can_spend_ignores_zero_limits :
  (forall b now a t,
      _lock b = false -> transaction_limit b = Some t -> t == 0 ->
      can_spend b now a = Returns (within_limits b now a) b) /\
  (forall b now a h,
      hourly_limit b = Some h -> h == 0 ->
      within_limits b now a =
      negb (Qgtb (PyDecimal.add (spent_since (_transactions b)
                                             (now - timedelta_days 1)) a)
                 (daily_limit b))) /\
  (forall now,
      can_spend (init 10 None (Some 0)) now 5
      = Returns true (init 10 None (Some 0))) /\
  (forall now,
      can_spend (init 10 (Some 0) None) now 5
      = Returns true (init 10 (Some 0) None)) /\
  (forall now,
      can_spend (init 1 None None) now one_and_a_bit
      = Returns true (init 1 None None)) /\
  1 < one_and_a_bit.
Proof.
  split; [|split; [|repeat split]].
  - intros b now a t L Ht Hz.
    now rewrite can_spend_cases, (zero_transaction_limit_ignored b a t Ht Hz), L.
  - intros b now a h. apply zero_hourly_limit_ignored.
Qed.

(** Witness of C8: the manager with a per-transaction limit of "0.00". *)
Lemma can_spend_ignores_zero_limits_witness :
  can_spend (init 10 None (Some (0 # 100))) 0 5
  = Returns (within_limits (init 10 None (Some (0 # 100))) 0 5)
            (init 10 None (Some (0 # 100))).
Proof.
  apply (proj1 can_spend_ignores_zero_limits
               (init 10 None (Some (0 # 100))) 0%Z 5 (0 # 100)).
  - reflexivity.
  - reflexivity.
  - reflexivity.
Defined.

(** C10. A call of [record_spend] that raises raises
    [BudgetExceededError] and leaves the manager as it was, so that every
    later query answers as before the call; a call that returns has
    appended exactly one record, the one of its arguments; and with the
    lock free the call does one or the other. *)
Theorem record_spend_all_or_nothing b t_check t_next a id meta :
  (forall e b',
      record_spend b t_check t_next a id meta = Raises e b' ->
      b' = b /\ e = budget_exceeded b t_next /\
      (forall now x, can_spend b' now x = can_spend b now x) /\
      (forall now, get_daily_spent b' now = get_daily_spent b now) /\
      (forall now hours,
          get_transaction_history b' now hours = get_transaction_history b now hours) /\
      (forall t1 t2, get_statistics b' t1 t2 = get_statistics b t1 t2)) /\
  (forall u b',
      record_spend b t_check t_next a id meta = Returns u b' ->
      _transactions b' =
        _transactions b ++
          [{| amount := a; transaction_id := id; timestamp := t_next;
              metadata := metadata_or_empty meta |}] /\
      length (_transactions b') = S (length (_transactions b)) /\
      daily_limit b' = daily_limit b /\ hourly_limit b' = hourly_limit b /\
      transaction_limit b' = transaction_limit b /\ _lock b' = _lock b) /\
  (_lock b = false ->
   record_spend b t_check t_next a id meta = Raises (budget_exceeded b t_next) b \/
   record_spend b t_check t_next a id meta =
     Returns tt (append_record b t_next a id meta)).
Proof.
  rewrite record_spend_cases.
  destruct (_lock b) eqn:L.
  - split; [|split].
    + intros e b' H. discriminate H.
    + intros u b' H. discriminate H.
    + intros H. discriminate H.
  - destruct (over_transaction_limit b a || negb (within_limits b t_check a)).
    + split; [|split].
      * intros e b' H. injection H as <- <-. repeat split.
      * intros u b' H. discriminate H.
      * intros _. now left.
    + split; [|split].
      * intros e b' H. discriminate H.
      * intros u b' H. injection H as _ <-.
        cbn [append_record set_transactions _transactions daily_limit
             hourly_limit transaction_limit _lock].
        rewrite length_app. cbn [length]. repeat split; [lia | exact L].
      * intros _. now right.
Qed.

(** Witness of C10: the fourth spend of the scenario raises and changes
    nothing; the first returns and appends one record. *)
Lemma record_spend_all_or_nothing_witness :
  (record_spend (scenario_state 3 0) 0 0 (3 # 100) "tx" None
     = Raises (budget_exceeded (scenario_state 3 0) 0) (scenario_state 3 0) /\
   forall now x, can_spend (scenario_state 3 0) now x
                 = can_spend (scenario_state 3 0) now x) /\
  (record_spend (scenario_state 0 0) 0 0 (3 # 100) "tx" None
     = Returns tt (scenario_state 1 0) /\
   length (_transactions (scenario_state 1 0)) = 1%nat).
Proof.
  split.
  - assert (E : record_spend (scenario_state 3 0) 0 0 (3 # 100) "tx" None
                = Raises (budget_exceeded (scenario_state 3 0) 0) (scenario_state 3 0))
      by reflexivity.
    split; [exact E|].
    destruct (proj1 (record_spend_all_or_nothing
                       (scenario_state 3 0) 0 0 (3 # 100) "tx" None) _ _ E)
      as (_ & _ & H & _).
    exact H.
  - assert (E : record_spend (scenario_state 0 0) 0 0 (3 # 100) "tx" None
                = Returns tt (scenario_state 1 0)) by reflexivity.
    split; [exact E|].
    destruct (proj1 (proj2 (record_spend_all_or_nothing
                              (scenario_state 0 0) 0 0 (3 # 100) "tx" None)) _ _ E)
      as (_ & H & _).
    exact H.
Defined.

(** The exact total of a ledger of one record, when the record is in the
    window. *)
Lemma recorded_total_one tx start :
  (start <= timestamp tx)%Z -> recorded_total [tx] start = amount tx + 0.
Proof.
  intros H. unfold recorded_total. cbn [List.filter].
  rewrite (proj2 (Z.leb_le _ _) H). reflexivity.
Qed.

(** The check of [can_spend] on a new manager: both windows are empty. *)
Lemma within_limits_new daily hourly txl now a :
  within_limits (init daily hourly txl) now a =
  negb (Qgtb (PyDecimal.add 0 a) daily) &&
  match hourly with
  | Some h => negb (is_set (Some h)) || negb (Qgtb (PyDecimal.add 0 a) h)
  | None => true
  end.
Proof.
  unfold within_limits. cbn [_transactions init daily_limit hourly_limit].
  rewrite !spent_since_nil.
  destruct (Qgtb (PyDecimal.add 0 a) daily); cbn [negb andb]; [reflexivity|].
  destruct hourly as [h|]; [|reflexivity].
  destruct (is_set (Some h)); cbn [negb orb]; [|reflexivity].
  now destruct (Qgtb (PyDecimal.add 0 a) h).
Qed.

(** The first spend on a new manager without a per-transaction limit. *)
Lemma first_record daily hourly t_check t_next a id meta :
  within_limits (init daily hourly None) t_check a = true ->
  record_spend (init daily hourly None) t_check t_next a id meta
  = Returns tt (append_record (init daily hourly None) t_next a id meta).
Proof.
  intros W. rewrite record_spend_cases. cbn [_lock init].
  change (over_transaction_limit (init daily hourly None) a) with false.
  cbn [orb]. now rewrite W.
Qed.

Lemma first_spend_recorded daily hourly now a :
  within_limits (init daily hourly None) now a = true ->
  do_spend (init daily hourly None) (spend_of a now)
  = Returns tt (append_record (init daily hourly None) now a "tx" None).
Proof. apply first_record. Qed.

Lemma spent_since_first tx start :
  (start <= timestamp tx)%Z ->
  spent_since [tx] start = PyDecimal.add 0 (amount tx).
Proof.
  intros H. change [tx] with ([] ++ [tx]).
  rewrite (spent_since_snoc [] tx start).
  now rewrite (proj2 (Z.leb_le _ _) H).
Qed.

(** C2. The sums of the ledger do not stay within the limits after every
    successful [record_spend].  An hourly limit of zero is stored and then
    skipped by the truth test of line 83: on a new manager with a daily
    limit of 10 and an hourly limit of 0, recording 5 succeeds, and the
    trailing hour then holds 5, in the decimal sum of the code and in the
    exact one.  And the check adds decimals of 28 digits: on a new manager
    with a daily limit of 1, recording 1.0000000000000000000000000001
    succeeds; the amounts recorded in the trailing 24 hours then sum to more
    than the limit, while [get_daily_spent] reports 1. *)
Theorem record_spend_overspends :
  (forall now,
      exists b',
        do_spend (init 10 (Some 0) None) (spend_of 5 now) = Returns tt b' /\
        hourly_limit b' = Some 0 /\
        spent_since (_transactions b') (now - timedelta_hours 1) == 5 /\
        recorded_total (_transactions b') (now - timedelta_hours 1) == 5) /\
  (forall now,
      exists b',
        do_spend (init 1 None None) (spend_of one_and_a_bit now) = Returns tt b' /\
        daily_limit b' = 1 /\
        recorded_total (_transactions b') (now - timedelta_days 1)
          == one_and_a_bit /\
        daily_limit b'
          < recorded_total (_transactions b') (now - timedelta_days 1) /\
        get_daily_spent b' now = Returns 1 b').
Proof.
  split; intros now.
  - eexists. split.
    { apply first_spend_recorded. rewrite within_limits_new.
      vm_compute. reflexivity. }
    split; [reflexivity|].
    cbn [_transactions append_record set_transactions init app].
    split.
    + rewrite spent_since_first by (cbn; unfold timedelta_hours; lia).
      vm_compute. reflexivity.
    + rewrite recorded_total_one by (cbn; unfold timedelta_hours; lia).
      vm_compute. reflexivity.
  - eexists. split.
    { apply first_spend_recorded. rewrite within_limits_new.
      vm_compute. reflexivity. }
    split; [reflexivity|].
    cbn [_transactions append_record set_transactions init app daily_limit].
    split; [|split].
    + rewrite recorded_total_one by (cbn; unfold timedelta_days; lia).
      vm_compute. reflexivity.
    + rewrite recorded_total_one by (cbn; unfold timedelta_days; lia).
      vm_compute. reflexivity.
    + rewrite get_daily_spent_cases.
      cbn [_lock _transactions append_record set_transactions init app].
      rewrite spent_since_first by (cbn; unfold timedelta_days; lia).
      f_equal.
Qed.

End BudgetProps.

(** ** The spend ledger under concurrent callers *)

Module ConcurrentProps.
Import Exceptions Budget Concurrent SumFacts BudgetProps.
Local Open Scope Q_scope.

(** A call of [record_spend] that runs alone and returns takes the lock
    twice: once for the check, inside [can_spend], and once for the append.
    Its run is the one of the sequential function. *)
Lemma record_spend_solo_run b c t_check t_next b' :
  record_spend b t_check t_next (c_amount c) (c_id c) (c_meta c) = Returns tt b' ->
  run (launch b [c]) (solo_schedule t_check t_next) =
  Some {| mgr := b'; calls := [(c, Finished None)];
          events := [(0%nat, Acquire); (0%nat, Release);
                     (0%nat, Acquire); (0%nat, Release)] |}.
Proof.
  rewrite record_spend_cases. destruct (_lock b) eqn:L; [discriminate|].
  destruct (over_transaction_limit b (c_amount c)) eqn:O; [discriminate|].
  destruct (within_limits b t_check (c_amount c)) eqn:W; [|discriminate].
  cbn [orb negb]. intros H. injection H as <-.
  unfold solo_schedule, launch, run, step. cbn [calls mgr events map lookup].
  cbn [list_lookup step_call]. rewrite O, L.
  cbn [set_lock _lock list_insert insert app map events calls mgr
       list_lookup lookup step_call].
  change (within_limits (set_lock b true) t_check (c_amount c))
    with (within_limits b t_check (c_amount c)).
  rewrite W. cbn. do 2 f_equal.
  unfold append_record, set_transactions, set_lock. cbn.
  destruct b; cbn in *; subst; reflexivity.
Qed.

Lemma lookup_map {A B} (f : A -> B) (l : list A) (i : nat) :
  map f l !! i = option_map f (l !! i).
Proof.
  revert i. induction l as [|x l IH]; intros [|i]; cbn; auto.
Qed.

(** One step of a turn. *)
Lemma turn_step fuel cfg t c p b' p' evs :
  calls cfg !! turn_of t = Some (c, p) ->
  step_call (mgr cfg) (clock_at p t) c p = Some (b', p', evs) ->
  run_until_suspended (S fuel) cfg t =
  run_until_suspended fuel
    {| mgr := b'; calls := <[turn_of t := (c, p')]> (calls cfg);
       events := events cfg ++ map (fun e => (turn_of t, e)) evs |} t.
Proof.
  intros Hc Hs. cbn [run_until_suspended]. rewrite Hc. unfold step.
  now rewrite Hc, Hs.
Qed.

Lemma turn_stops fuel cfg t c r :
  calls cfg !! turn_of t = Some (c, Finished r) ->
  run_until_suspended fuel cfg t = cfg.
Proof.
  intros Hc. destruct fuel as [|fuel]; [reflexivity|].
  cbn [run_until_suspended]. rewrite Hc. unfold step. now rewrite Hc.
Qed.

Lemma lookup_inserted {A} (l : list A) i x y :
  l !! i = Some x -> <[i := y]> l !! i = Some y.
Proof.
  revert i. induction l as [|a l IH]; intros [|i]; cbn; try discriminate; auto.
Qed.

Lemma insert_inserted {A} (l : list A) i x y :
  <[i := y]> (<[i := x]> l) = <[i := y]> l.
Proof.
  revert i. induction l as [|a l IH]; intros [|i]; cbn; try reflexivity.
  now rewrite IH.
Qed.

Lemma lookup_insert_other {A} (l : list A) i j y :
  i <> j -> <[i := y]> l !! j = l !! j.
Proof.
  revert i j. induction l as [|a l IH]; intros [|i] [|j] H; cbn;
    try reflexivity; try congruence.
  apply IH. congruence.
Qed.

Lemma append_record_unlocked b now a id meta :
  _lock b = false ->
  set_lock (append_record (set_lock b true) now a id meta) false
  = append_record b now a id meta.
Proof. destruct b; cbn; intros ->; reflexivity. Qed.

(** A turn of a call that has not started, with the lock free, runs the
    whole call: the manager and the outcome are those of the sequential
    [record_spend], and no step of the call waits. *)
Lemma turn_runs_record_spend cfg t c :
  _lock (mgr cfg) = false ->
  calls cfg !! turn_of t = Some (c, Start) ->
  let o := record_spend (mgr cfg) (t_check t) (t_next t)
                        (c_amount c) (c_id c) (c_meta c) in
  exists evs,
    run_until_suspended 4 cfg t =
    {| mgr := state_after o (mgr cfg);
       calls := <[turn_of t := (c, ending o)]> (calls cfg);
       events := events cfg ++ evs |}.
Proof.
  intros L Hc. cbv zeta. rewrite record_spend_cases, L.
  pose proof (set_lock_same (mgr cfg) false L) as Same.
  destruct (over_transaction_limit (mgr cfg) (c_amount c)) eqn:O; cbn [orb].
  - erewrite turn_step; [|exact Hc|cbn [step_call]; rewrite O; reflexivity].
    erewrite turn_step;
      [|cbn [calls]; exact (lookup_inserted _ _ _ _ Hc)
       |cbn [step_call mgr clock_at]; rewrite L; reflexivity].
    erewrite turn_step;
      [|cbn [calls]; rewrite insert_inserted; exact (lookup_inserted _ _ _ _ Hc)
       |cbn [step_call mgr clock_at]; reflexivity].
    erewrite turn_stops;
      [|cbn [calls]; rewrite !insert_inserted; exact (lookup_inserted _ _ _ _ Hc)].
    cbn [mgr calls events state_after ending]. rewrite !insert_inserted.
    rewrite set_lock_set_lock, Same. eexists.
    rewrite <- !app_assoc. reflexivity.
  - erewrite turn_step;
      [|exact Hc|cbn [step_call]; rewrite O, L; reflexivity].
    erewrite turn_step;
      [|cbn [calls]; exact (lookup_inserted _ _ _ _ Hc)
       |cbn [step_call mgr clock_at]; reflexivity].
    change (within_limits (set_lock (mgr cfg) true) (t_check t) (c_amount c))
      with (within_limits (mgr cfg) (t_check t) (c_amount c)).
    rewrite set_lock_set_lock, Same.
    destruct (within_limits (mgr cfg) (t_check t) (c_amount c)); cbn [negb].
    + erewrite turn_step;
        [|cbn [calls]; rewrite insert_inserted;
          exact (lookup_inserted _ _ _ _ Hc)
         |cbn [step_call mgr clock_at]; rewrite L; reflexivity].
      erewrite turn_step;
        [|cbn [calls]; rewrite !insert_inserted;
          exact (lookup_inserted _ _ _ _ Hc)
         |cbn [step_call mgr clock_at]; reflexivity].
      cbn [run_until_suspended mgr calls events state_after ending].
      rewrite !insert_inserted, (append_record_unlocked _ _ _ _ _ L).
      eexists. rewrite <- !app_assoc. reflexivity.
    + erewrite turn_step;
        [|cbn [calls]; rewrite insert_inserted;
          exact (lookup_inserted _ _ _ _ Hc)
         |cbn [step_call mgr clock_at]; rewrite L; reflexivity].
      erewrite turn_step;
        [|cbn [calls]; rewrite !insert_inserted;
          exact (lookup_inserted _ _ _ _ Hc)
         |cbn [step_call mgr clock_at]; reflexivity].
      cbn [run_until_suspended mgr calls events state_after ending].
      rewrite !insert_inserted, set_lock_set_lock, Same.
      eexists. rewrite <- !app_assoc. reflexivity.
Qed.

Lemma record_spend_leaves_lock_free b t_check t_next a id meta :
  _lock b = false ->
  _lock (state_after (record_spend b t_check t_next a id meta) b) = false.
Proof.
  intros L. rewrite record_spend_cases, L.
  now destruct (over_transaction_limit b a || negb (within_limits b t_check a)).
Qed.

(** The event loop from any point where the lock is free and the calls
    that have a turn to come have not started. *)
Lemma event_loop_sequential cs : forall turns cfg,
  _lock (mgr cfg) = false ->
  List.NoDup (map turn_of turns) ->
  (forall t, In t turns ->
     calls cfg !! turn_of t
     = option_map (fun c => (c, Start)) (cs !! turn_of t)) ->
  let cfg' := event_loop cfg turns in
  mgr cfg' = run_spends (mgr cfg) (omap (spend_in_turn cs) turns) /\
  _lock (mgr cfg') = false /\
  (forall pre t post c,
     turns = pre ++ t :: post -> cs !! turn_of t = Some c ->
     calls cfg' !! turn_of t
     = Some (c, ending (record_spend
                          (run_spends (mgr cfg) (omap (spend_in_turn cs) pre))
                          (t_check t) (t_next t)
                          (c_amount c) (c_id c) (c_meta c)))) /\
  (forall i, ~ In i (map turn_of turns) -> calls cfg' !! i = calls cfg !! i).
Proof.
  induction turns as [|t turns IH]; intros cfg L Hnd Hstart; cbv zeta.
  { cbn. repeat split; try assumption.
    intros pre t post c E. destruct pre; discriminate E. }
  cbn [event_loop]. cbn [map] in Hnd.
  apply List.NoDup_cons_iff in Hnd. destruct Hnd as [Hnotin Hnd].
  pose proof (Hstart t (or_introl eq_refl)) as Ht.
  assert (Hstep : forall l,
    omap (spend_in_turn cs) (t :: l)
    = match spend_in_turn cs t with
      | Some s => s :: omap (spend_in_turn cs) l
      | None => omap (spend_in_turn cs) l
      end) by reflexivity.
  destruct (cs !! turn_of t) as [c|] eqn:Ec; cbn [option_map] in Ht.
  - assert (Hs : spend_in_turn cs t
                 = Some {| s_amount := c_amount c; s_id := c_id c;
                           s_meta := c_meta c;
                           s_check := t_check t; s_next := t_next t |})
      by (unfold spend_in_turn; now rewrite Ec).
    destruct (turn_runs_record_spend cfg t c L Ht) as (evs & ->).
    cbv zeta.
    set (o := record_spend (mgr cfg) (t_check t) (t_next t)
                           (c_amount c) (c_id c) (c_meta c)).
    assert (Hrun : forall l,
      run_spends (mgr cfg) (omap (spend_in_turn cs) (t :: l))
      = run_spends (state_after o (mgr cfg)) (omap (spend_in_turn cs) l)).
    { intros l. rewrite Hstep, Hs. reflexivity. }
    destruct (IH {| mgr := state_after o (mgr cfg);
                     calls := <[turn_of t := (c, ending o)]> (calls cfg);
                     events := events cfg ++ evs |})
      as (I1 & I2 & I3 & I4).
    + cbn [mgr]. apply record_spend_leaves_lock_free, L.
    + exact Hnd.
    + intros t' Hin. cbn [calls]. rewrite lookup_insert_other.
      * apply Hstart. now right.
      * intros E. apply Hnotin. rewrite E. now apply in_map.
    + cbn [mgr calls] in *. rewrite Hrun.
      split; [exact I1|]. split; [exact I2|]. split.
      * intros pre t' post c' E Hc'. destruct pre as [|p pre'].
        -- cbn [app] in E. injection E as <- <-.
           rewrite Ec in Hc'. injection Hc' as <-.
           rewrite (I4 _ Hnotin), (lookup_inserted _ _ _ _ Ht).
           reflexivity.
        -- cbn [app] in E. injection E as <- E.
           rewrite Hrun. exact (I3 pre' t' post c' E Hc').
      * intros i Hi. cbn [map] in Hi.
        rewrite I4 by (intros X; apply Hi; now right).
        apply lookup_insert_other. intros E. apply Hi. now left.
  - assert (Hs : spend_in_turn cs t = None)
      by (unfold spend_in_turn; now rewrite Ec).
    assert (Same : run_until_suspended 4 cfg t = cfg)
      by (cbn [run_until_suspended]; now rewrite Ht).
    rewrite Same.
    assert (Hrun : forall l,
      run_spends (mgr cfg) (omap (spend_in_turn cs) (t :: l))
      = run_spends (mgr cfg) (omap (spend_in_turn cs) l)).
    { intros l. rewrite Hstep, Hs. reflexivity. }
    destruct (IH cfg L Hnd) as (I1 & I2 & I3 & I4).
    + intros t' Hin. apply Hstart. now right.
    + rewrite Hrun. split; [exact I1|]. split; [exact I2|]. split.
      * intros pre t' post c' E Hc'. destruct pre as [|p pre'].
        -- cbn [app] in E. injection E as <- <-. congruence.
        -- cbn [app] in E. injection E as <- E.
           rewrite Hrun. exact (I3 pre' t' post c' E Hc').
      * intros i Hi. apply I4. intros X. apply Hi. cbn [map]. now right.
Qed.

(** The runs of the event loop are runs of the step-wise scheduler. *)
Lemma run_app cfg s1 s2 :
  run cfg (s1 ++ s2) = match run cfg s1 with
                       | Some cfg' => run cfg' s2
                       | None => None
                       end.
Proof.
  revert cfg. induction s1 as [|[i now] s1 IH]; intros cfg; [reflexivity|].
  cbn [app run]. destruct (step cfg i now); [apply IH|reflexivity].
Qed.

Lemma run_until_suspended_is_a_run fuel : forall cfg t,
  exists schedule, run cfg schedule = Some (run_until_suspended fuel cfg t).
Proof.
  induction fuel as [|fuel IH]; intros cfg t; cbn [run_until_suspended].
  - now exists [].
  - destruct (calls cfg !! turn_of t) as [[c p]|]; [|now exists []].
    destruct (step cfg (turn_of t) (clock_at p t)) as [cfg'|] eqn:Hs;
      [|now exists []].
    destruct (IH cfg' t) as (schedule & Hr).
    exists ((turn_of t, clock_at p t) :: schedule). cbn [run]. now rewrite Hs.
Qed.

Lemma event_loop_is_a_run turns : forall cfg,
  exists schedule, run cfg schedule = Some (event_loop cfg turns).
Proof.
  induction turns as [|t turns IH]; intros cfg; cbn [event_loop].
  - now exists [].
  - destruct (run_until_suspended_is_a_run 4 cfg t) as (s1 & H1).
    destruct (IH (run_until_suspended 4 cfg t)) as (s2 & H2).
    exists (s1 ++ s2). now rewrite run_app, H1.
Qed.

(** The two calls of 0.6 under a daily limit of 1.0, one after the other
    at one clock value: the first is recorded, the second refused. *)
Lemma raced_first now :
  record_spend race_limits now now (c_amount call_a) (c_id call_a) (c_meta call_a)
  = Returns tt (append_record race_limits now (6 # 10) "tx_a" None).
Proof.
  apply first_record. unfold race_limits. rewrite within_limits_new.
  vm_compute. reflexivity.
Qed.

Lemma raced_second now :
  let b1 := append_record race_limits now (6 # 10) "tx_a" None in
  record_spend b1 now now (c_amount call_b) (c_id call_b) (c_meta call_b)
  = Raises (budget_exceeded b1 now) b1.
Proof.
  cbv zeta. rewrite record_spend_cases.
  cbn [_lock append_record set_transactions race_limits init].
  replace (within_limits _ now (c_amount call_b)) with false; [reflexivity|].
  unfold within_limits, append_record, race_limits.
  cbn [_transactions set_transactions init app daily_limit hourly_limit].
  rewrite spent_since_first by (cbn; unfold timedelta_days; lia).
  vm_compute. reflexivity.
Qed.

Lemma raced_run now :
  exists evs,
    event_loop (launch race_limits [call_a; call_b]) (gather_turns now)
    = {| mgr := append_record race_limits now (6 # 10) "tx_a" None;
         calls :=
           [(call_a, Finished None);
            (call_b,
             Finished (Some (budget_exceeded
                               (append_record race_limits now (6 # 10) "tx_a" None)
                               now)))];
         events := evs |}.
Proof.
  unfold gather_turns. cbn [event_loop].
  destruct (turn_runs_record_spend (launch race_limits [call_a; call_b])
              {| turn_of := 0; t_check := now; t_next := now |} call_a
              eq_refl eq_refl) as (evs1 & ->).
  cbv zeta. cbn [t_check t_next turn_of launch mgr calls events map].
  rewrite raced_first. cbn [state_after ending].
  change (<[0%nat := (call_a, Finished None)]> [(call_a, Start); (call_b, Start)])
    with [(call_a, Finished None); (call_b, Start)].
  destruct (turn_runs_record_spend
              {| mgr := append_record race_limits now (6 # 10) "tx_a" None;
                 calls := [(call_a, Finished None); (call_b, Start)];
                 events := [] ++ evs1 |}
              {| turn_of := 1; t_check := now; t_next := now |} call_b
              eq_refl eq_refl) as (evs2 & ->).
  cbv zeta. cbn [t_check t_next turn_of mgr calls events].
  rewrite raced_second. cbn [state_after ending].
  eexists. reflexivity.
Qed.

(** C1, as amended. [record_spend] makes its check and its append in two
    acquisitions of the lock, the first inside [can_spend].  On an asyncio
    event loop, where a call is left only at the acquisition of a held lock,
    every call that gets its turn with the lock free runs to its end in
    that turn: whatever the calls, and in whatever order the loop starts
    them, the manager ends as if the same calls had been made one after the
    other in that order, with the lock free, and every started call has
    finished as the sequential [record_spend] does on the manager that the
    calls started before it have left.  With a daily limit of 1.0 and two
    calls of 0.6, the call that starts first is recorded and the other
    raises [BudgetExceededError]. *)
Theorem gathered_calls_run_in_sequence (b : BudgetManager) (cs : list call)
    (turns : list turn) :
  _lock b = false ->
  List.NoDup (map turn_of turns) ->
  let cfg := event_loop (launch b cs) turns in
  mgr cfg = run_spends b (omap (spend_in_turn cs) turns) /\
  _lock (mgr cfg) = false /\
  (forall pre t post c,
     turns = pre ++ t :: post -> cs !! turn_of t = Some c ->
     calls cfg !! turn_of t
     = Some (c, ending (record_spend
                          (run_spends b (omap (spend_in_turn cs) pre))
                          (t_check t) (t_next t)
                          (c_amount c) (c_id c) (c_meta c)))) /\
  (forall now,
      let raced := event_loop (launch race_limits [call_a; call_b])
                              (gather_turns now) in
      map amount (_transactions (mgr raced)) = [6 # 10] /\
      map transaction_id (_transactions (mgr raced)) = ["tx_a"] /\
      map snd (calls raced)
      = [Finished None;
         Finished (Some (budget_exceeded (mgr raced) now))]).
Proof.
  intros L Hnd. cbv zeta.
  destruct (event_loop_sequential cs turns (launch b cs) L Hnd)
    as (I1 & I2 & I3 & _).
  { intros t _. cbn [launch calls]. apply lookup_map. }
  split; [exact I1|]. split; [exact I2|]. split; [exact I3|].
  intros now. destruct (raced_run now) as (evs & ->).
  cbn [mgr calls map snd]. repeat split.
Qed.

(** Witness of C1: the two calls of 0.6, started in the other order. *)
Lemma gathered_calls_run_in_sequence_witness :
  mgr (event_loop (launch race_limits [call_a; call_b])
                  [{| turn_of := 1; t_check := 5; t_next := 6 |};
                   {| turn_of := 0; t_check := 7; t_next := 8 |}])
  = run_spends race_limits
      [{| s_amount := 6 # 10; s_id := "tx_b"; s_meta := None;
          s_check := 5; s_next := 6 |};
       {| s_amount := 6 # 10; s_id := "tx_a"; s_meta := None;
          s_check := 7; s_next := 8 |}].
Proof.
  apply (gathered_calls_run_in_sequence race_limits [call_a; call_b]
           [{| turn_of := 1; t_check := 5; t_next := 6 |};
            {| turn_of := 0; t_check := 7; t_next := 8 |}]).
  - reflexivity.
  - repeat constructor; cbn; intuition discriminate.
Defined.

(** C1 as stated fails: a call that is recorded has taken the lock twice,
    once for its check and once for its append. *)
Lemma record_spend_takes_the_lock_twice :
  let cfg := event_loop (launch race_limits [call_a])
                        [{| turn_of := 0; t_check := 5; t_next := 6 |}] in
  map snd (calls cfg) = [Finished None] /\
  events cfg = [(0%nat, Acquire); (0%nat, Release);
                (0%nat, Acquire); (0%nat, Release)] /\
  acquisitions 0 (events cfg) = 2%nat.
Proof. vm_compute. repeat split. Qed.

End ConcurrentProps.

(** ** Retry with back-off *)

Module RetryProps.
Import Exceptions Builtins Retry.

(** Only SDK errors are retryable, and [except Exception] catches them. *)
Lemma retryable_is_Exception e :
  is_retryable_error e = true -> is_Exception e = true.
Proof. destruct e; [reflexivity | discriminate | discriminate]. Qed.

Lemma range_succ (n : nat) :
  range (Z.of_nat n + 1) = map Z.of_nat (seq 0 (S n)).
Proof.
  unfold range. replace (Z.to_nat (Z.of_nat n + 1)) with (S n) by lia.
  reflexivity.
Qed.

Section Loop.
Context {W A N : Type} `{Number N}.
Variables initial_delay max_delay backoff_multiplier : N.
Variable func : W -> (A + exn) * W.

Lemma backoff_waits_length delay errors :
  length (backoff_waits max_delay backoff_multiplier delay errors)
  = length errors.
Proof.
  revert delay. induction errors as [|e errors IH]; intros delay; cbn;
    [reflexivity|]. now rewrite IH.
Qed.

Lemma errors_of_length m : forall w,
  (forall w', exists e, fst (func w') = inr e /\ is_retryable_error e = true) ->
  length (errors_of func m w) = m.
Proof.
  induction m as [|m IH]; intros w Hall; cbn; [reflexivity|].
  destruct (Hall w) as (e & He & _). rewrite He. cbn. now rewrite IH.
Qed.

(** The loop from attempt [k], when every invocation raises a retryable
    error: it invokes [func] at each remaining attempt, sleeps before all
    but the last, and raises the last error. *)
Lemma loop_all_retryable (M m : nat) : forall k delay last n slept w,
  (k + m = M)%nat ->
  (forall w', exists e, fst (func w') = inr e /\ is_retryable_error e = true) ->
  let tr := loop (Z.of_nat M) max_delay backoff_multiplier func
                 (map Z.of_nat (seq k (S m))) delay last n slept w in
  invocations tr = (n + S m)%nat /\
  result tr = fst (func (after_calls func m w)) /\
  world tr = after_calls func (S m) w /\
  sleeps tr = slept ++ backoff_waits max_delay backoff_multiplier delay
                         (errors_of func m w).
Proof.
  induction m as [|m IH]; intros k delay last n slept w Hk Hall.
  - cbn [seq map Retry.loop]. destruct (Hall w) as (e & He & Hr).
    destruct (func w) as [r w'] eqn:F. cbn [fst] in He. subst r.
    rewrite (retryable_is_Exception e Hr), Hr. cbn [negb].
    replace (Z.of_nat k =? Z.of_nat M)%Z with true
      by (symmetry; apply Z.eqb_eq; lia).
    cbn. rewrite F. cbn. rewrite app_nil_r. repeat split. lia.
  - change (seq k (S (S m))) with (k :: seq (S k) (S m)).
    rewrite map_cons. cbn [Retry.loop]. destruct (Hall w) as (e & He & Hr).
    destruct (func w) as [r w'] eqn:F. cbn [fst] in He. subst r.
    rewrite (retryable_is_Exception e Hr), Hr. cbn [negb].
    replace (Z.of_nat k =? Z.of_nat M)%Z with false
      by (symmetry; apply Z.eqb_neq; lia).
    specialize (IH (S k)
      (num_mul
         match rate_limit_retry_after e with
         | Some retry_after => num_min (num_of_int retry_after) max_delay
         | None => num_min delay max_delay
         end backoff_multiplier)
      (Some e) (S n)
      (slept ++ [match rate_limit_retry_after e with
                 | Some retry_after => num_min (num_of_int retry_after) max_delay
                 | None => num_min delay max_delay
                 end]) w' ltac:(lia) Hall).
    cbn zeta in IH. destruct IH as (I1 & I2 & I3 & I4).
    cbn [Retry.after_calls Retry.errors_of]. rewrite F. cbn [fst snd].
    rewrite I1, I2, I3, I4. repeat split; [lia|].
    rewrite <- app_assoc. reflexivity.
Qed.

(** C5, as amended. For [max_retries >= 0] and delays of any number type:
    when every invocation raises an error that is not retryable, the
    wrapped function is invoked once and that error is raised, without any
    wait; when every invocation raises a retryable error it is invoked
    [max_retries + 1] times, with [max_retries] waits, and the error of the
    last invocation is raised.  For a negative [max_retries] there is no
    invocation at all, and the wrapper raises [UnboundLocalError]. *)
Theorem retry_attempt_count (max_retries : Z) (w : W) :
  let tr := wrapper max_retries initial_delay max_delay backoff_multiplier
                    func w in
  ((0 <= max_retries)%Z ->
   ((forall w', exists e, fst (func w') = inr e /\ is_retryable_error e = false) ->
    invocations tr = 1%nat /\ result tr = fst (func w) /\ sleeps tr = []) /\
   ((forall w', exists e, fst (func w') = inr e /\ is_retryable_error e = true) ->
    Z.of_nat (invocations tr) = (max_retries + 1)%Z /\
    result tr = fst (func (after_calls func (Z.to_nat max_retries) w)) /\
    Z.of_nat (length (sleeps tr)) = max_retries)) /\
  ((max_retries < 0)%Z ->
   invocations tr = 0%nat /\
   result tr = inr (OtherException "UnboundLocalError") /\
   sleeps tr = [] /\ world tr = w).
Proof.
  cbv zeta. split.
  - intros Hmr. unfold wrapper.
    remember (Z.to_nat max_retries) as M eqn:EM.
    assert (E : max_retries = Z.of_nat M) by lia.
    clear EM Hmr. subst max_retries. rewrite range_succ. split; intros Hall.
    + cbn [seq map Retry.loop]. destruct (Hall w) as (e & He & Hr).
      destruct (func w) as [r w'] eqn:F. cbn [fst] in He. subst r.
      rewrite Hr. cbn [negb fst]. destruct (negb (is_Exception e)); now cbn.
    + destruct (loop_all_retryable M M 0 initial_delay None
                  0%nat [] w ltac:(lia) Hall) as (I1 & I2 & I3 & I4).
      rewrite I1, I2, I4. cbn [app].
      rewrite backoff_waits_length, errors_of_length by exact Hall.
      repeat split. lia.
  - intros Hneg. unfold wrapper, range.
    replace (Z.to_nat (max_retries + 1)) with 0%nat by lia.
    repeat split.
Qed.

End Loop.

(** Witness of C5 with the defaults of the decorator: an operation that
    always raises [NotFoundError] is invoked once, one that always raises
    [NetworkError] four times. *)
Lemma retry_attempt_count_witness :
  invocations (wrapper 3 default_delay default_cap default_multiplier (always not_found) 0%nat) = 1%nat /\
  Z.of_nat (invocations (wrapper 3 default_delay default_cap default_multiplier (always network_error) 0%nat)) = 4%Z.
Proof.
  split.
  - refine (proj1 (proj1 (proj1 (retry_attempt_count default_delay default_cap default_multiplier (always not_found)
                                   3 0%nat) ltac:(lia)) _)).
    intros w'. exists not_found. split; reflexivity.
  - refine (proj1 (proj2 (proj1 (retry_attempt_count default_delay default_cap default_multiplier
                                   (always network_error) 3 0%nat)
                                ltac:(lia)) _)).
    intros w'. exists network_error. split; reflexivity.
Defined.

(** C5 as stated fails for [max_retries = -1]: an operation that always
    raises [NotFoundError], which is not retryable, is not invoked once
    but never, and what is raised is not its error. *)
Lemma negative_max_retries_no_attempt :
  is_retryable_error not_found = false /\
  invocations (wrapper (-1) default_delay default_cap default_multiplier (always not_found) 0%nat) = 0%nat /\
  result (wrapper (-1) default_delay default_cap default_multiplier (always not_found) 0%nat)
    = inr (OtherException "UnboundLocalError") /\
  result (wrapper (-1) default_delay default_cap default_multiplier (always not_found) 0%nat)
    <> fst (always not_found 0%nat).
Proof. repeat split. discriminate. Qed.

(** The sleeps of the wrapper around a scripted operation: the recurrence
    of [backoff_waits] over the errors that are followed by a retry. *)
Lemma loop_scripted_sleeps {N : Type} `{Number N}
    (max_delay backoff_multiplier : N) (M m : nat) :
  forall k delay last n slept script,
    (k + m = M)%nat ->
    Forall (fun e => is_retryable_error e = true) script ->
    sleeps (loop (Z.of_nat M) max_delay backoff_multiplier scripted
                 (map Z.of_nat (seq k (S m))) delay last n slept script)
    = slept ++ backoff_waits max_delay backoff_multiplier delay (firstn m script).
Proof.
  induction m as [|m IH]; intros k delay last n slept script Hk Hall.
  - cbn [seq map loop firstn backoff_waits]. rewrite app_nil_r.
    destruct script as [|e script]; cbn [scripted]; [reflexivity|].
    apply Forall_inv in Hall.
    rewrite (retryable_is_Exception e Hall), Hall. cbn [negb].
    replace (Z.of_nat k =? Z.of_nat M)%Z with true
      by (symmetry; apply Z.eqb_eq; lia).
    reflexivity.
  - change (seq k (S (S m))) with (k :: seq (S k) (S m)).
    rewrite map_cons. cbn [loop].
    destruct script as [|e script]; cbn [scripted firstn backoff_waits].
    + now rewrite app_nil_r.
    + pose proof (Forall_inv Hall) as He. apply Forall_inv_tail in Hall.
      rewrite (retryable_is_Exception e He), He. cbn [negb].
      replace (Z.of_nat k =? Z.of_nat M)%Z with false
        by (symmetry; apply Z.eqb_neq; lia).
      rewrite IH by (try exact Hall; lia).
      rewrite <- app_assoc. reflexivity.
Qed.

(** The cap itself has reached the cap. *)
Lemma capped_cap {N : Type} `{Number N} (max_delay : N) :
  capped max_delay max_delay.
Proof. unfold capped, num_min. now destruct (num_lt max_delay max_delay). Qed.

(** Without [retry_after], and when multiplying by the multiplier keeps a
    delay that has reached the cap at the cap, the waits of the code are
    those of the specification. *)
Lemma backoff_waits_as_stated {N : Type} `{Number N}
    (max_delay backoff_multiplier : N) errors :
  (forall d, capped max_delay d ->
             capped max_delay (num_mul d backoff_multiplier)) ->
  Forall no_retry_after errors ->
  forall d d', d = d' \/ (capped max_delay d /\ capped max_delay d') ->
  backoff_waits max_delay backoff_multiplier d errors
  = specified_waits max_delay backoff_multiplier d' errors.
Proof.
  intros Hcap Hall. induction Hall as [|e errors He _ IH]; intros d d' R.
  - reflexivity.
  - cbn [backoff_waits specified_waits]. unfold no_retry_after in He.
    rewrite He.
    assert (Same : num_min d max_delay = num_min d' max_delay).
    { destruct R as [->|[C C']]; [reflexivity|]. unfold capped in C, C'.
      now rewrite C, C'. }
    rewrite <- Same. f_equal. apply IH.
    destruct R as [<-|[C C']].
    + unfold num_min. destruct (num_lt max_delay d) eqn:E.
      * right. split; apply Hcap; [apply capped_cap|].
        unfold capped, num_min. now rewrite E.
      * now left.
    + right. unfold capped in C. rewrite C.
      split; apply Hcap; [apply capped_cap|exact C'].
Qed.

(** C6, as amended. Whatever the number type of the delays, the waits of
    the loop follow the recurrence of the code: each wait is
    [min(delay, max_delay)], or [min(retry_after, max_delay)] for a
    rate-limit error whose [retry_after] is not zero; [delay] starts at
    [initial_delay] and, after each wait, is that wait times
    [backoff_multiplier].  While no error carries a [retry_after], and
    multiplying by the multiplier keeps at the cap a delay that has reached
    it, these are the waits of the specification.  With the floats 1.0,
    2.0 and 30.0 the waits are 1, 2, 4, 8, 16, 30, 30; a rate-limit error
    with [retry_after = 5] makes the wait 5, and the following waits 10
    and 20.  The products are those of doubles: from 0.1 with a multiplier
    of 3.0 the second wait is 0.30000000000000004. *)
Theorem backoff_schedule :
  (forall (N : Type) (H : Number N) (max_retries : Z)
          (initial_delay max_delay backoff_multiplier : N) (script : list exn),
      (0 <= max_retries)%Z ->
      Forall (fun e => is_retryable_error e = true) script ->
      sleeps (wrapper max_retries initial_delay max_delay backoff_multiplier
                      scripted script)
      = backoff_waits max_delay backoff_multiplier initial_delay
                      (firstn (Z.to_nat max_retries) script)) /\
  (forall (N : Type) (H : Number N)
          (initial_delay max_delay backoff_multiplier : N) (errors : list exn),
      (forall d, capped max_delay d ->
                 capped max_delay (num_mul d backoff_multiplier)) ->
      Forall no_retry_after errors ->
      backoff_waits max_delay backoff_multiplier initial_delay errors
      = specified_waits max_delay backoff_multiplier initial_delay errors) /\
  sleeps (wrapper 7 default_delay default_cap default_multiplier scripted (repeat network_error 8))
    = map float_of_int [1; 2; 4; 8; 16; 30; 30]%Z /\
  sleeps (wrapper 3 default_delay default_cap default_multiplier scripted
            [rate_limited 5; network_error; network_error; network_error])
    = map float_of_int [5; 10; 20]%Z /\
  sleeps (wrapper 3 default_delay default_cap default_multiplier scripted
            [network_error; rate_limited 5; network_error; network_error])
    = map float_of_int [1; 5; 10]%Z /\
  sleeps (wrapper 3 (float_div default_delay (float_of_int 10)) default_cap (float_of_int 3)
                  scripted [network_error; network_error; network_error])
    = [SpecFloat.S754_finite false 7205759403792794 (-56);
       SpecFloat.S754_finite false 5404319552844596 (-54);
       SpecFloat.S754_finite false 8106479329266894 (-53)] /\
  float_div (float_of_int 3) (float_of_int 10)
    = SpecFloat.S754_finite false 5404319552844595 (-54).
Proof.
  split; [|split; [|repeat split]].
  - intros N H max_retries initial_delay max_delay backoff_multiplier script
           Hmr Hall.
    unfold wrapper.
    remember (Z.to_nat max_retries) as M eqn:EM.
    assert (E : max_retries = Z.of_nat M) by lia.
    clear EM Hmr. subst max_retries. rewrite range_succ.
    rewrite (loop_scripted_sleeps max_delay backoff_multiplier M M) by
      (try exact Hall; lia).
    reflexivity.
  - intros N H initial_delay max_delay backoff_multiplier errors Hcap Hall.
    apply backoff_waits_as_stated; try assumption. now left.
Qed.

(** With exact delays, doubling keeps at the cap of 30 a delay that has
    reached it. *)
Lemma doubling_stays_capped (d : Q) :
  capped 30%Q d -> capped 30%Q (num_mul d 2%Q).
Proof.
  unfold capped, num_min. cbn [num_lt num_mul exact_number].
  destruct (Qle_bool d 30) eqn:E; cbn [negb].
  - intros ->. reflexivity.
  - intros _.
    assert (D : ~ (d <= 30)%Q) by (intros X; apply Qle_bool_iff in X; congruence).
    destruct (Qle_bool (d * 2) 30) eqn:E2; [|reflexivity].
    apply Qle_bool_iff in E2. exfalso. apply D. lra.
Qed.

(** Witness of C6: four network errors under the default policy, and the
    stated schedule with the integer delays 1, 2 and 30. *)
Lemma backoff_schedule_witness :
  sleeps (wrapper 3 default_delay default_cap default_multiplier scripted (repeat network_error 4))
  = backoff_waits default_cap default_multiplier default_delay (repeat network_error 3) /\
  backoff_waits 30%Q 2%Q 1%Q (repeat network_error 7)
  = specified_waits 30%Q 2%Q 1%Q (repeat network_error 7).
Proof.
  split.
  - apply (proj1 backoff_schedule float float_number 3%Z default_delay default_cap default_multiplier
                 (repeat network_error 4)).
    + lia.
    + repeat constructor.
  - apply (proj1 (proj2 backoff_schedule) Q exact_number 1%Q 30%Q 2%Q
                 (repeat network_error 7)).
    + exact doubling_stays_capped.
    + repeat constructor.
Defined.

(** C6 as stated fails: after a rate-limit error with [retry_after = 5]
    the code waits 5 and then 10, where the stated schedule, whose
    [current_delay] is [initial_delay] times the multiplier per wait, gives
    5 and then 2. *)
Lemma specified_schedule_differs :
  sleeps (wrapper 3 default_delay default_cap default_multiplier scripted
            [rate_limited 5; network_error; network_error; network_error])
    = map float_of_int [5; 10; 20]%Z /\
  specified_waits default_cap default_multiplier default_delay [rate_limited 5; network_error; network_error]
    = map float_of_int [5; 2; 4]%Z /\
  sleeps (wrapper 3 default_delay default_cap default_multiplier scripted
            [rate_limited 5; network_error; network_error; network_error])
    <> specified_waits default_cap default_multiplier default_delay [rate_limited 5; network_error; network_error].
Proof.
  split; [reflexivity|]. split; [reflexivity|].
  vm_compute. discriminate.
Qed.

End RetryProps.

(** ** The request pipeline *)

Module HttpProps.
Import Exceptions Builtins Retry Http.

Lemma required_headers_lookup api_key k :
  required_headers api_key !! k =
  if String.eqb k "User-Agent" then Some "z402-python-sdk/0.1.0"
  else if String.eqb k "X-API-Key" then Some api_key
  else if String.eqb k "Content-Type" then Some "application/json"
  else None.
Proof.
  unfold required_headers.
  destruct (String.eqb_spec k "User-Agent") as [->|N1];
    [now rewrite lookup_insert_eq|].
  rewrite lookup_insert_ne by congruence.
  destruct (String.eqb_spec k "X-API-Key") as [->|N2];
    [now rewrite lookup_insert_eq|].
  rewrite lookup_insert_ne by congruence.
  destruct (String.eqb_spec k "Content-Type") as [->|N3];
    [now rewrite lookup_insert_eq|].
  rewrite lookup_insert_ne by congruence. apply lookup_empty.
Qed.

(** [_build_headers] is the union of the caller's headers and the required
    ones, the caller's taking precedence. *)
Lemma build_headers_lookup api_key custom k :
  _build_headers api_key custom !! k =
  match custom with
  | Some c => match c !! k with
              | Some v => Some v
              | None => required_headers api_key !! k
              end
  | None => required_headers api_key !! k
  end.
Proof.
  unfold _build_headers. fold (required_headers api_key).
  destruct custom as [c|]; [|reflexivity].
  case_bool_decide as E.
  - subst c. now rewrite lookup_empty.
  - destruct (c !! k) as [v|] eqn:Ek.
    + now apply lookup_union_Some_l.
    + now apply lookup_union_r.
Qed.

(** C9, as amended. The constructed headers always have the entries
    [Content-Type], [X-API-Key] and [User-Agent]; every header of the
    caller is in the result with the caller's value; and a required header
    has its required value ([application/json], the API key,
    [z402-python-sdk/0.1.0]) whenever the caller's headers do not contain
    the same name.  So custom headers cannot remove a required header, but
    one of the same name replaces its value. *)
Theorem build_headers_required (api_key : string)
    (custom : option (gmap string string)) :
  let h := _build_headers api_key custom in
  (is_Some (h !! "Content-Type") /\ is_Some (h !! "X-API-Key") /\
   is_Some (h !! "User-Agent")) /\
  (forall c k v, custom = Some c -> c !! k = Some v -> h !! k = Some v) /\
  (forall k, (forall c, custom = Some c -> c !! k = None) ->
             h !! k = required_headers api_key !! k) /\
  ((forall c, custom = Some c -> c !! "Content-Type" = None) ->
   h !! "Content-Type" = Some "application/json") /\
  ((forall c, custom = Some c -> c !! "X-API-Key" = None) ->
   h !! "X-API-Key" = Some api_key) /\
  ((forall c, custom = Some c -> c !! "User-Agent" = None) ->
   h !! "User-Agent" = Some "z402-python-sdk/0.1.0").
Proof.
  intros h. subst h.
  assert (K : forall k, (forall c, custom = Some c -> c !! k = None) ->
                        _build_headers api_key custom !! k
                        = required_headers api_key !! k).
  { intros k Hk. rewrite build_headers_lookup. destruct custom as [c|];
      [|reflexivity]. now rewrite (Hk c eq_refl). }
  split; [|split; [|split; [|split; [|split]]]].
  - rewrite !build_headers_lookup, !required_headers_lookup.
    destruct custom as [c|]; cbn.
    + destruct (c !! "Content-Type"), (c !! "X-API-Key"), (c !! "User-Agent");
        repeat split; eauto.
    + repeat split; eauto.
  - intros c k v -> Hc. rewrite build_headers_lookup. now rewrite Hc.
  - exact K.
  - intros Hk. rewrite (K _ Hk). now rewrite required_headers_lookup.
  - intros Hk. rewrite (K _ Hk). now rewrite required_headers_lookup.
  - intros Hk. rewrite (K _ Hk). now rewrite required_headers_lookup.
Qed.

(** Witness of C9: a caller that adds an [Accept] header. *)
Lemma build_headers_required_witness :
  _build_headers "z402_test_key" (Some (<["Accept" := "text/html"]> ∅)) !! "Accept"
    = Some "text/html" /\
  _build_headers "z402_test_key" (Some (<["Accept" := "text/html"]> ∅)) !! "Content-Type"
    = Some "application/json".
Proof.
  split.
  - apply (proj1 (proj2 (build_headers_required "z402_test_key"
                           (Some (<["Accept" := "text/html"]> ∅))))
             (<["Accept" := "text/html"]> ∅) "Accept" "text/html" eq_refl).
    reflexivity.
  - apply (proj1 (proj2 (proj2 (proj2 (build_headers_required "z402_test_key"
                           (Some (<["Accept" := "text/html"]> ∅))))))).
    intros c [= <-]. reflexivity.
Defined.

(** C9 as stated fails: a custom [Content-Type] displaces the required
    one, and a custom [X-API-Key] displaces the API key. *)
Lemma custom_header_displaces_required :
  _build_headers "z402_test_key" (Some (<["Content-Type" := "text/plain"]> ∅))
    !! "Content-Type" = Some "text/plain" /\
  _build_headers "z402_test_key" (Some (<["Content-Type" := "text/plain"]> ∅))
    !! "Content-Type" <> Some "application/json" /\
  _build_headers "z402_test_key" (Some (<["X-API-Key" := "other"]> ∅))
    !! "X-API-Key" <> Some "z402_test_key".
Proof.
  rewrite !build_headers_lookup.
  rewrite !lookup_insert_eq. repeat split; discriminate.
Qed.

(** [is_retryable_error] is true exactly for network errors, rate-limit
    errors, and SDK errors whose status code is in 500..599. *)
Lemma is_retryable_error_spec e :
  is_retryable_error e = true <->
  isinstance_NetworkError e = true \/ isinstance_RateLimitError e = true \/
  exists sc, z402_status e = Some sc /\ 500 <= sc < 600.
Proof.
  unfold is_retryable_error.
  destruct (isinstance_NetworkError e); [tauto|].
  destruct (isinstance_RateLimitError e); [tauto|].
  destruct (z402_status e) as [sc|].
  - destruct ((500 <=? sc) && (sc <? 600)) eqn:E.
    + apply andb_true_iff in E. destruct E as [E1 E2].
      apply Z.leb_le in E1. apply Z.ltb_lt in E2.
      split; [|reflexivity]. intros _. right. right. exists sc. split; [reflexivity|lia].
    + split; [discriminate|]. intros [H|[H|(sc' & [= <-] & H1 & H2)]];
        try discriminate.
      apply andb_false_iff in E. destruct E as [E|E];
        [apply Z.leb_gt in E | apply Z.ltb_ge in E]; lia.
  - split; [discriminate|]. now intros [H|[H|(sc' & [=] & _)]].
Qed.

Lemma client_errors_not_retryable m d a r :
  is_retryable_error (Z402 (AuthenticationError m d)) = false /\
  is_retryable_error (Z402 (InvalidRequestError m d)) = false /\
  is_retryable_error (Z402 (NotFoundError m d)) = false /\
  is_retryable_error (Z402 (PaymentRequiredError m a r d)) = false.
Proof. repeat split. Qed.

Lemma py_get_envelope d key :
  dict_or_absent d key ->
  exists inner, py_get (PyDict d) key (PyDict []) = inl (PyDict inner).
Proof.
  unfold dict_or_absent, py_get. destruct (dict_get d key) as [[]|];
    intros H; try contradiction; eauto.
Qed.

(** The status chain on a body whose ["payment"] entry is a dict or
    absent. *)
Lemma raise_for_status_table r d message details :
  400 <= status r -> dict_or_absent d "payment" ->
  (status r = 429 ->
   exists ra, parse_retry_after (headers r !! "retry-after") = inl ra) ->
  exists e,
    raise_for_status r (PyDict d) message details = inr (Z402 e) /\
    kind_of (Z402 e) = Some (kind_of_status (status r)) /\
    (is_retryable_error (Z402 e) = true <->
     status r = 429 \/ 500 <= status r < 600) /\
    (status r = 429 ->
     exists ra, e = RateLimitError message ra details /\
                parse_retry_after (headers r !! "retry-after") = inl ra) /\
    (status r = 402 ->
     exists pi, py_get (PyDict d) "payment" (PyDict []) = inl (PyDict pi) /\
       e = PaymentRequiredError message
             (match dict_get pi "amount" with Some x => x | None => PyNone end)
             (match dict_get pi "resource" with Some x => x | None => PyNone end)
             details) /\
    (kind_of_status (status r) = api_error ->
     e = APIError message (Some (status r)) None details).
Proof.
  intros Hok Hpay Hra. unfold raise_for_status, kind_of_status.
  destruct (status r =? 401) eqn:E401.
  { apply Z.eqb_eq in E401. rewrite E401. cbn.
    eexists. split; [reflexivity|].
    repeat split; try discriminate; try lia; try (intros [H|H]; lia). }
  destruct (status r =? 400) eqn:E400.
  { apply Z.eqb_eq in E400. rewrite E400. cbn.
    eexists. split; [reflexivity|].
    repeat split; try discriminate; try lia; try (intros [H|H]; lia). }
  destruct (status r =? 402) eqn:E402.
  { apply Z.eqb_eq in E402. rewrite E402.
    destruct (py_get_envelope d "payment" Hpay) as (pi & Hpi). rewrite Hpi.
    cbn. eexists. split; [reflexivity|].
    repeat split; try discriminate; try lia;
      try (intros [H|H]; lia); try (exists pi; split; reflexivity). }
  destruct (status r =? 404) eqn:E404.
  { apply Z.eqb_eq in E404. rewrite E404. cbn.
    eexists. split; [reflexivity|].
    repeat split; try discriminate; try lia; try (intros [H|H]; lia). }
  destruct (status r =? 429) eqn:E429.
  { apply Z.eqb_eq in E429. destruct (Hra E429) as (ra & Hp). rewrite Hp.
    cbn [bind]. eexists. split; [reflexivity|]. rewrite E429.
    repeat split; try discriminate; try lia; eauto. }
  apply Z.eqb_neq in E401, E400, E402, E404, E429.
  eexists. split; [reflexivity|]. split; [reflexivity|].
  split; [|split; [|split]].
  - rewrite is_retryable_error_spec. cbn.
    destruct (status r =? 0) eqn:E0; [apply Z.eqb_eq in E0; lia|].
    split.
    + intros [H|[H|(sc & [= <-] & H)]]; try discriminate. now right.
    + intros [H|H]; [lia|]. right. right. now exists (status r).
  - intros H. lia.
  - intros H. lia.
  - reflexivity.
Qed.

(** On a response with the expected body shape (and, for 429, a
    [Retry-After] that is absent, empty or an integer), the error raised
    follows the table of the specification. *)
Lemma handle_response_table r :
  ok r = false -> enveloped r ->
  (status r = 429 ->
   exists ra, parse_retry_after (headers r !! "retry-after") = inl ra) ->
  exists e,
    _handle_response r = inr (Z402 e) /\
    kind_of (Z402 e) = Some (kind_of_status (status r)) /\
    (is_retryable_error (Z402 e) = true <->
     status r = 429 \/ 500 <= status r < 600).
Proof.
  intros Hok (d & Hd & Herr & Hpay) Hra.
  unfold _handle_response. rewrite Hd. cbn [bind]. rewrite Hok. cbn [negb].
  destruct (py_get_envelope d "error" Herr) as (e1 & He1). rewrite He1.
  unfold ok in Hok. apply Z.ltb_ge in Hok.
  cbn [bind py_get].
  destruct (truthy match dict_get e1 "message" with Some x => x | None => PyNone end);
    destruct (truthy match dict_get e1 "details" with Some x => x | None => PyNone end);
    cbn [bind];
    match goal with
    | |- context [raise_for_status r (PyDict d) ?m ?dt] =>
        destruct (raise_for_status_table r d m dt ltac:(lia) Hpay Hra)
          as (e & H1 & H2 & H3 & _)
    end;
    exists e; auto.
Qed.

(** Transport failures are network errors, and they are retryable. *)
Lemma transport_failure_is_network_error msg :
  kind_of_exn (request_once TimedOut) = Some network_error /\
  kind_of_exn (request_once (ClientFailed msg)) = Some network_error /\
  (forall e, request_once TimedOut = inr e \/
             request_once (ClientFailed msg) = inr e ->
             is_retryable_error e = true).
Proof.
  repeat split. intros e [H|H]; injection H as <-; reflexivity.
Qed.

(** C7. The table is followed on responses of the expected shape
    ([handle_response_table]), but not on every response: a 401 whose JSON
    body gives the error as a string raises [AttributeError] instead of
    [AuthenticationError], and a 429 whose [Retry-After] is an HTTP date
    raises [ValueError] instead of [RateLimitError]; neither is an SDK
    error, and the retry loop does not retry them. *)
Theorem handle_response_unclassified :
  (ok unauthorized_response = false /\
   _handle_response unauthorized_response = inr (OtherException "AttributeError") /\
   kind_of (OtherException "AttributeError") = None) /\
  (ok rate_limited_response = false /\
   _handle_response rate_limited_response = inr (OtherException "ValueError") /\
   kind_of (OtherException "ValueError") = None /\
   is_retryable_error (OtherException "ValueError") = false).
Proof. repeat split. Qed.

End HttpProps.

(** ** The webhook authenticator *)

Module WebhookProps.
Import Exceptions Builtins Webhook MiniJson StringFacts DigestFacts.

Lemma next_such_holds pred parts x :
  next_such pred parts = Some x -> pred x = true.
Proof.
  induction parts as [|y parts IH]; cbn; [discriminate|].
  destruct (pred y) eqn:E; [now intros [= <-]|exact IH].
Qed.

Lemma startswith_nonempty pfx c s :
  startswith (String c pfx) s = true -> String.eqb s EmptyString = false.
Proof. destruct s; [discriminate|reflexivity]. Qed.

Lemma eqb_empty_false s : s <> EmptyString -> String.eqb s EmptyString = false.
Proof. destruct s; [congruence|reflexivity]. Qed.

(** The header that [construct_webhook_signature] builds splits into its
    two components. *)
Lemma header_parts_constructed timestamp mac :
  contains "," mac = false ->
  header_parts ("t=" ++ py_str timestamp ++ ",v1=" ++ mac)%string
  = Some (py_str timestamp, mac).
Proof.
  intros Hmac. unfold header_parts.
  change ("t=" ++ py_str timestamp ++ ",v1=" ++ mac)%string
    with (("t=" ++ py_str timestamp) ++ String "," ("v1=" ++ mac))%string.
  rewrite split_app_sep.
  - rewrite split_no_sep.
    + reflexivity.
    + change ("v1=" ++ mac)%string with (String "v" (String "1" (String "=" mac))).
      cbn [contains]. rewrite Hmac. reflexivity.
  - change ("t=" ++ py_str timestamp)%string
      with (String "t" (String "=" (py_str timestamp))).
    cbn [contains]. rewrite py_str_no_comma. reflexivity.
Qed.

Section Json.
Variable json_dumps : list (string * pyval) -> string.
Variable json_loads : string -> option pyval.

(** The authentication never reports a stale timestamp. *)
Lemma authenticate_not_too_old p secret timestamp mac :
  authenticate json_dumps json_loads p secret timestamp mac <> inr too_old.
Proof.
  unfold authenticate, too_old, verification_error.
  destruct (payload_string_of json_dumps p) as [s|]; [|discriminate].
  destruct (compare_digest (sign secret timestamp s) mac) as [[]|];
    try discriminate.
  destruct p; try discriminate; destruct (json_loads s); discriminate.
Qed.

Lemma compare_digest_signs secret timestamp s secret' s' :
  compare_digest (sign secret' timestamp s') (sign secret timestamp s)
  = Some (String.eqb (sign secret' timestamp s') (sign secret timestamp s)).
Proof.
  unfold compare_digest.
  rewrite (proj1 (sign_clean secret' timestamp s')),
          (proj1 (sign_clean secret timestamp s)).
  reflexivity.
Qed.

Lemma construct_webhook_signature_parts T p secret :
  header_parts (construct_webhook_signature json_dumps T p secret)
  = Some (py_str T, sign secret T (payload_text json_dumps p)).
Proof.
  unfold construct_webhook_signature. cbv zeta.
  fold (payload_text json_dumps p).
  apply header_parts_constructed, sign_clean.
Qed.

Section Int.
Variable int : string -> option Z.

(** Once the header is parsed, [verify_webhook] is the freshness test
    followed by the authentication of the payload. *)
Lemma verify_webhook_parsed now p signature secret tolerance ts mac timestamp :
  secret <> EmptyString ->
  header_parts signature = Some (ts, mac) ->
  int ts = Some timestamp ->
  verify_webhook_with json_dumps json_loads int now p signature secret tolerance =
  if Z.abs (now - timestamp) >? tolerance then inr too_old
  else authenticate json_dumps json_loads p secret timestamp mac.
Proof.
  intros Hsec Hparts Hint. unfold verify_webhook_with.
  destruct (String.eqb_spec signature EmptyString) as [->|_];
    [discriminate Hparts|].
  rewrite (eqb_empty_false secret Hsec).
  unfold header_parts in Hparts. cbv zeta in *.
  destruct (next_such (startswith "t=") (split "," signature)) as [tp|] eqn:Etp;
    [|discriminate Hparts].
  destruct (next_such (startswith "v1=") (split "," signature)) as [sp|] eqn:Esp;
    [|discriminate Hparts].
  apply next_such_holds in Etp, Esp.
  rewrite (startswith_nonempty _ _ _ Etp), (startswith_nonempty _ _ _ Esp).
  cbn [orb].
  destruct (after_first "=" tp) as [ts'|]; [|discriminate Hparts].
  destruct (after_first "=" sp) as [mac'|]; [|discriminate Hparts].
  injection Hparts as -> ->. rewrite Hint. reflexivity.
Qed.

(** C4, as amended. Whatever [int] reads: for a signature header whose
    timestamp component [int] reads as [T] (and a non-empty secret),
    [verify_webhook] fails with the freshness error exactly when
    [abs(now - T) > tolerance], whatever the payload, so old and future
    timestamps are both refused; it fails so at [T + tolerance + 1]; and at
    [T + tolerance - 1] the freshness check passes provided
    [tolerance >= 1]. *)
Theorem freshness_check p signature secret tolerance T :
  secret <> EmptyString ->
  header_timestamp_with int signature = Some T ->
  (forall now,
      verify_webhook_with json_dumps json_loads int now p signature secret
                          tolerance
        = inr too_old
      <-> Z.abs (now - T) > tolerance) /\
  verify_webhook_with json_dumps json_loads int (T + tolerance + 1) p signature
                      secret tolerance = inr too_old /\
  (1 <= tolerance ->
   verify_webhook_with json_dumps json_loads int (T + tolerance - 1) p
                       signature secret tolerance <> inr too_old).
Proof.
  intros Hsec HT. unfold header_timestamp_with in HT.
  destruct (header_parts signature) as [[ts mac]|] eqn:Hparts;
    [|discriminate HT].
  assert (V : forall now,
             verify_webhook_with json_dumps json_loads int now p signature
                                 secret tolerance
               = inr too_old
             <-> Z.abs (now - T) > tolerance).
  { intros now.
    rewrite (verify_webhook_parsed now p signature secret tolerance ts mac T
               Hsec Hparts HT).
    destruct (Z.abs (now - T) >? tolerance) eqn:E.
    - split; [|reflexivity]. intros _. apply Z.gtb_lt in E. lia.
    - split.
      + intros H. exfalso. exact (authenticate_not_too_old _ _ _ _ H).
      + intros H. assert (E' : (Z.abs (now - T) >? tolerance) = true)
          by (apply Z.gtb_lt; lia). congruence. }
  split; [exact V|]. split.
  - apply V. lia.
  - intros Htol H. apply V in H. lia.
Qed.



End Int.

End Json.

(** The payload of the examples: the event [{"type": "payment.settled"}]. *)
Lemma settled_text :
  MiniJson.loads (MiniJson.dumps settled_event) = Some (PyDict settled_event).
Proof. vm_compute. reflexivity. Qed.

(** Witness of C4: default tolerance, timestamp 1700000000. *)
Lemma freshness_check_witness :
  verify_webhook_with MiniJson.dumps MiniJson.loads py_int (1700000000 + 300 + 1)
    (PayloadDict settled_event)
    (construct_webhook_signature MiniJson.dumps 1700000000 (inr settled_event)
       "whsec_test")
    "whsec_test" 300 = inr too_old /\
  verify_webhook_with MiniJson.dumps MiniJson.loads py_int (1700000000 + 300 - 1)
    (PayloadDict settled_event)
    (construct_webhook_signature MiniJson.dumps 1700000000 (inr settled_event)
       "whsec_test")
    "whsec_test" 300 <> inr too_old.
Proof.
  pose proof (freshness_check MiniJson.dumps MiniJson.loads py_int
                (PayloadDict settled_event)
                (construct_webhook_signature MiniJson.dumps 1700000000
                   (inr settled_event) "whsec_test")
                "whsec_test" 300 1700000000
                ltac:(discriminate) ltac:(vm_compute; reflexivity))
    as (_ & H1 & H2).
  split; [exact H1|]. apply H2. lia.
Defined.

(** C4 as stated fails for a tolerance of 0: a signature made at time 100
    is refused as stale at time 100 + 0 - 1. *)
Lemma freshness_fails_at_zero_tolerance :
  verify_webhook MiniJson.dumps MiniJson.loads (100 + 0 - 1)
    (PayloadDict settled_event)
    (construct_webhook_signature MiniJson.dumps 100 (inr settled_event)
       "whsec_test")
    "whsec_test" 0 = inr too_old.
Proof. vm_compute. reflexivity. Qed.




End WebhookProps.

(** ** The spend ledger: queries and their agreement *)

Module LedgerProps.
Import Exceptions Budget SumFacts BudgetProps.
Local Open Scope Q_scope.

Lemma get_hourly_spent_cases b now :
  get_hourly_spent b now =
  if _lock b then Blocked
  else Returns (spent_since (_transactions b) (now - timedelta_hours 1)) b.
Proof.
  unfold get_hourly_spent. destruct (_lock b) eqn:L.
  - now apply with_lock_held.
  - rewrite with_lock_free by assumption. cbv beta iota zeta.
    rewrite set_lock_set_lock, (set_lock_same b false) by assumption.
    reflexivity.
Qed.

Lemma get_transaction_history_cases b now hours :
  get_transaction_history b now hours =
  if _lock b then Blocked
  else if is_datetime (now - timedelta_hours hours)
  then Returns
         (List.filter (fun tx => (now - timedelta_hours hours <=? timestamp tx)%Z)
                      (_transactions b)) b
  else Raises (OtherException "OverflowError") b.
Proof.
  unfold get_transaction_history. destruct (_lock b) eqn:L.
  - now rewrite with_lock_held.
  - rewrite with_lock_free by assumption. cbv beta iota zeta.
    cbn [Budget.bind].
    rewrite set_lock_set_lock, (set_lock_same b false) by assumption.
    now destruct (is_datetime (now - timedelta_hours hours)).
Qed.

(** X3. [get_transaction_history] is a query.  When the cutoff, [hours]
    hours before the clock, is a [datetime], it lists exactly the records
    whose timestamp is not before the cutoff: with the default of 24 hours
    the records that [get_daily_spent] sums, with 1 hour those of
    [get_hourly_spent]; and a spend recorded inside the window appears last
    in the next listing.  When the cutoff is outside the range of
    [datetime] the call raises [OverflowError] and changes nothing. *)
Theorem transaction_history_window b now hours :
  _lock b = false ->
  (is_datetime (now - timedelta_hours hours) = false ->
   get_transaction_history b now hours
   = Raises (OtherException "OverflowError") b) /\
  (is_datetime (now - timedelta_hours hours) = true ->
   exists txs,
     get_transaction_history b now hours = Returns txs b /\
     (forall tx, In tx txs <->
                 In tx (_transactions b) /\
                 (now - timedelta_hours hours <= timestamp tx)%Z) /\
     (hours = 24%Z ->
      get_daily_spent b now = Returns (py_sum (map amount txs)) b) /\
     (hours = 1%Z ->
      get_hourly_spent b now = Returns (py_sum (map amount txs)) b) /\
     (forall t_check t_next a id meta b',
         record_spend b t_check t_next a id meta = Returns tt b' ->
         (now - timedelta_hours hours <= t_next)%Z ->
         get_transaction_history b' now hours
         = Returns (txs ++ [{| amount := a; transaction_id := id;
                               timestamp := t_next;
                               metadata := metadata_or_empty meta |}]) b')).
Proof.
  intros L. rewrite get_transaction_history_cases, L. split.
  - now intros ->.
  - intros D. rewrite D. eexists.
    split; [reflexivity|]. split; [|split; [|split]].
    + intros tx. rewrite List.filter_In, Z.leb_le. reflexivity.
    + intros ->. rewrite get_daily_spent_cases, L. reflexivity.
    + intros ->. rewrite get_hourly_spent_cases, L. reflexivity.
    + intros t_check t_next a id meta b' Hrec Hin.
      rewrite record_spend_cases, L in Hrec.
      destruct (over_transaction_limit b a || negb (within_limits b t_check a));
        [discriminate Hrec|].
      injection Hrec as <-. rewrite get_transaction_history_cases, D.
      cbn [append_record set_transactions _lock _transactions]. rewrite L.
      rewrite List.filter_app. cbn [List.filter timestamp].
      rewrite (proj2 (Z.leb_le _ _) Hin). reflexivity.
Qed.

Lemma transaction_history_window_witness :
  get_transaction_history (scenario_state 2 0) 10 100000000
  = Raises (OtherException "OverflowError") (scenario_state 2 0) /\
  exists txs,
    get_transaction_history (scenario_state 2 0) 10 24
      = Returns txs (scenario_state 2 0) /\
    get_daily_spent (scenario_state 2 0) 10
      = Returns (py_sum (map amount txs)) (scenario_state 2 0).
Proof.
  split.
  - apply (proj1 (transaction_history_window (scenario_state 2 0) 10 100000000
                    eq_refl)).
    reflexivity.
  - destruct (proj2 (transaction_history_window (scenario_state 2 0) 10 24
                       eq_refl) eq_refl)
      as (txs & H1 & _ & H2 & _).
    exists txs. split; [exact H1|]. apply H2. reflexivity.
Defined.

(** X5. [get_statistics] raises when the daily limit is zero (the usage
    percentage divides by it).  Otherwise it changes nothing and reports
    the limit and what [get_daily_spent] and [get_remaining_daily] report;
    the hourly figures are present exactly when an hourly limit is set
    (neither [None] nor zero), and are what [get_hourly_spent] and
    [get_remaining_hourly] report; the per-transaction limit is present
    exactly when it is set.  The figures are decimals of 28 digits: with a
    daily limit of 1.0000000000000000000000000000001 and nothing spent, the
    remaining budget reported is 1. *)
Theorem get_statistics_consistent b t_daily t_hourly :
  _lock b = false ->
  (daily_limit b == 0 ->
   exists class_name,
     get_statistics b t_daily t_hourly = Raises (OtherException class_name) b) /\
  (~ daily_limit b == 0 ->
   exists st,
     get_statistics b t_daily t_hourly = Returns st b /\
     stat_daily_limit st = daily_limit b /\
     get_daily_spent b t_daily = Returns (stat_daily_spent st) b /\
     get_remaining_daily b t_daily = Returns (stat_daily_remaining st) b /\
     (stat_hourly st = None <-> is_set (hourly_limit b) = false) /\
     (forall l s r p,
         stat_hourly st = Some (l, s, r, p) ->
         hourly_limit b = Some l /\
         get_hourly_spent b t_hourly = Returns s b /\
         get_remaining_hourly b t_hourly = Returns (Some r) b) /\
     (stat_transaction_limit st = None <->
      is_set (transaction_limit b) = false)) /\
  (exists st,
      get_statistics (init one_and_a_trace None None) t_daily t_hourly
      = Returns st (init one_and_a_trace None None) /\
      stat_daily_spent st = 0 /\ stat_daily_remaining st = 1).
Proof.
  intros L. unfold get_statistics.
  split; [|split].
  - rewrite get_daily_spent_cases, L. cbn [Budget.bind].
    rewrite get_hourly_spent_cases, L. cbn [Budget.bind].
    intros Z0. apply Qeq_bool_iff in Z0. rewrite Z0. eexists. reflexivity.
  - rewrite get_daily_spent_cases, L. cbn [Budget.bind].
    rewrite get_hourly_spent_cases, L. cbn [Budget.bind].
    intros Z0. destruct (Qeq_bool (daily_limit b) 0) eqn:E.
    { apply Qeq_bool_iff in E. contradiction. }
    eexists. split; [reflexivity|].
    cbn [stat_daily_limit stat_daily_spent stat_daily_remaining stat_hourly
         stat_transaction_limit].
    split; [reflexivity|]. split; [reflexivity|]. split.
    { unfold get_remaining_daily. rewrite get_daily_spent_cases, L. reflexivity. }
    split; [|split].
    + destruct (hourly_limit b) as [h|]; cbn [is_set]; [|tauto].
      fold (is_set (Some h)). destruct (is_set (Some h)); split; congruence.
    + intros l s r p. destruct (hourly_limit b) as [h|] eqn:Eh; [|discriminate].
      destruct (is_set (Some h)) eqn:S; [|discriminate].
      intros [= <- <- <- _]. split; [reflexivity|]. split; [reflexivity|].
      unfold get_remaining_hourly. rewrite Eh, S, get_hourly_spent_cases, L.
      reflexivity.
    + destruct (transaction_limit b) as [t|]; cbn [is_set]; [|tauto].
      fold (is_set (Some t)). destruct (is_set (Some t)); split; congruence.
  - rewrite get_daily_spent_cases.
    cbn [_lock init Budget.bind]. rewrite get_hourly_spent_cases.
    cbn [_lock init Budget.bind _transactions]. rewrite !spent_since_nil.
    cbn [daily_limit hourly_limit transaction_limit init].
    replace (Qeq_bool one_and_a_trace 0) with false by reflexivity.
    eexists. split; [reflexivity|].
    cbn [stat_daily_spent stat_daily_remaining].
    split; [reflexivity|]. vm_compute. reflexivity.
Qed.

Lemma get_statistics_consistent_witness :
  exists st,
    get_statistics (scenario_state 3 0) 0 0 = Returns st (scenario_state 3 0) /\
    stat_daily_limit st = 1.
Proof.
  destruct (proj1 (proj2 (get_statistics_consistent (scenario_state 3 0) 0 0
                            eq_refl)))
    as (st & H1 & H2 & _).
  - discriminate.
  - exists st. split; [exact H1|exact H2].
Defined.

End LedgerProps.

(** ** The lock of the ledger under any schedule *)

Module LockProps.
Import Exceptions Budget Concurrent.

Lemma filter_insert_count {A} (f : A -> bool) (l : list A) i x y :
  l !! i = Some x ->
  (length (List.filter f (<[i := y]> l)) + (if f x then 1 else 0)
   = length (List.filter f l) + (if f y then 1 else 0))%nat.
Proof.
  revert i. induction l as [|a l IH]; intros [|i] H; try discriminate.
  - injection H as ->. change (<[0%nat := y]> (x :: l)) with (y :: l).
    cbn [List.filter]. destruct (f x), (f y); cbn [length]; lia.
  - change (<[S i := y]> (a :: l)) with (a :: <[i := y]> l).
    change ((a :: l) !! S i) with (l !! i) in H. specialize (IH i H).
    cbn [List.filter]. destruct (f a), (f x), (f y); cbn [length] in *; lia.
Qed.

Lemma launch_invariant b cs : _lock b = false -> lock_invariant b (launch b cs).
Proof.
  intros L. unfold lock_invariant, launch, holders, returned. cbn. rewrite L.
  assert (H : forall f : call * pc -> bool, f = (fun cp => in_critical_section (snd cp))
              \/ f = (fun cp => has_returned (snd cp)) ->
              length (List.filter f (map (fun c => (c, Start)) cs)) = 0%nat).
  { intros f Hf. induction cs as [|c cs IH]; [reflexivity|].
    cbn. destruct Hf as [-> | ->]; cbn; apply IH; auto. }
  rewrite !H by auto. repeat split. exists []. now rewrite app_nil_r.
Qed.

Lemma step_invariant b cfg i now cfg' :
  lock_invariant b cfg -> step cfg i now = Some cfg' -> lock_invariant b cfg'.
Proof.
  intros (Hh & Hd & Hhr & Ht & added & Hl & Hn). unfold step.
  destruct (calls cfg !! i) as [[c p]|] eqn:Hi; [|discriminate].
  pose proof (fun y => filter_insert_count
                (fun cp : call * pc => in_critical_section (snd cp))
                (calls cfg) i (c, p) y Hi) as Hcrit.
  pose proof (fun y => filter_insert_count
                (fun cp : call * pc => has_returned (snd cp))
                (calls cfg) i (c, p) y Hi) as Hret.
  fold (holders (calls cfg)) in Hcrit. fold (returned (calls cfg)) in Hret.
  destruct (step_call (mgr cfg) now c p) as [[[b' p'] evs]|] eqn:Hs;
    [|discriminate].
  intros [= <-]. unfold lock_invariant. cbn [mgr calls events].
  specialize (Hcrit (c, p')). specialize (Hret (c, p')).
  fold (holders (<[i := (c, p')]> (calls cfg))) in Hcrit.
  fold (returned (<[i := (c, p')]> (calls cfg))) in Hret.
  cbn [snd] in Hcrit, Hret.
  destruct p; cbn [step_call] in Hs.
  - destruct (over_transaction_limit (mgr cfg) (c_amount c)).
    + injection Hs as <- <- _. cbn in Hcrit, Hret.
      repeat split; try assumption; try lia.
      exists added. split; [assumption|lia].
    + destruct (_lock (mgr cfg)) eqn:L; [discriminate|].
      injection Hs as <- <- _. cbn in Hcrit, Hret |- *.
      repeat split; try assumption; try lia.
      exists added. split; [assumption|lia].
  - injection Hs as <- <- _.
    assert (Hp : in_critical_section
                   (if within_limits (mgr cfg) now (c_amount c)
                    then Accepted else Rejected) = false
                 /\ has_returned
                      (if within_limits (mgr cfg) now (c_amount c)
                       then Accepted else Rejected) = false)
      by (destruct (within_limits _ _ _); split; reflexivity).
    destruct Hp as [Hp1 Hp2]. rewrite Hp1 in Hcrit. rewrite Hp2 in Hret.
    cbn in Hcrit, Hret |- *.
    destruct (_lock (mgr cfg)); repeat split; try assumption; try lia;
      exists added; (split; [assumption|lia]).
  - destruct (_lock (mgr cfg)) eqn:L; [discriminate|].
    injection Hs as <- <- _. cbn in Hcrit, Hret |- *.
    repeat split; try assumption; try lia.
    exists added. split; [assumption|lia].
  - injection Hs as <- <- _. cbn in Hcrit, Hret |- *.
    destruct (_lock (mgr cfg)); repeat split; try assumption; try lia;
      (eexists (added ++ [_]); split;
       [rewrite Hl, <- app_assoc; reflexivity
       |rewrite length_app; cbn [length]; lia]).
  - destruct (_lock (mgr cfg)) eqn:L; [discriminate|].
    injection Hs as <- <- _. cbn in Hcrit, Hret |- *.
    repeat split; try assumption; try lia.
    exists added. split; [assumption|lia].
  - injection Hs as <- <- _. cbn in Hcrit, Hret |- *.
    destruct (_lock (mgr cfg)); repeat split; try assumption; try lia;
      exists added; (split; [assumption|lia]).
  - discriminate.
Qed.

Lemma run_invariant b schedule : forall cfg cfg',
  lock_invariant b cfg -> run cfg schedule = Some cfg' -> lock_invariant b cfg'.
Proof.
  induction schedule as [|[i now] rest IH]; intros cfg cfg' Hinv; cbn [run].
  - now intros [= <-].
  - destruct (step cfg i now) as [cfg1|] eqn:Hs; [|discriminate].
    apply IH. exact (step_invariant b cfg i now cfg1 Hinv Hs).
Qed.

(** X6. Under every schedule of any number of concurrent [record_spend]
    calls on a manager whose lock is free: at most one call is inside an
    [async with self._lock] block, and one is exactly when the lock is
    held; the limits never change; and the ledger is the initial one
    followed by exactly one record for each call that has returned, so no
    append is lost or repeated. *)
Theorem lock_is_exclusive b cs schedule cfg :
  _lock b = false ->
  run (launch b cs) schedule = Some cfg ->
  (holders (calls cfg) <= 1)%nat /\
  (holders (calls cfg) = 1%nat <-> _lock (mgr cfg) = true) /\
  daily_limit (mgr cfg) = daily_limit b /\
  hourly_limit (mgr cfg) = hourly_limit b /\
  transaction_limit (mgr cfg) = transaction_limit b /\
  exists added,
    _transactions (mgr cfg) = _transactions b ++ added /\
    length added = returned (calls cfg).
Proof.
  intros L Hrun.
  destruct (run_invariant b schedule _ _ (launch_invariant b cs L) Hrun)
    as (Hh & Hd & Hhr & Ht & Hadd).
  rewrite Hh. destruct (_lock (mgr cfg)); repeat split; auto; try lia;
    try discriminate.
Qed.

Lemma lock_is_exclusive_witness :
  exists cfg,
    run (launch race_limits [call_a; call_b]) (racy_schedule 0) = Some cfg /\
    (holders (calls cfg) <= 1)%nat /\
    exists added,
      _transactions (mgr cfg) = _transactions race_limits ++ added /\
      length added = returned (calls cfg).
Proof.
  destruct (run (launch race_limits [call_a; call_b]) (racy_schedule 0))
    as [cfg|] eqn:R; [|vm_compute in R; discriminate R].
  exists cfg. split; [reflexivity|].
  pose proof (lock_is_exclusive race_limits [call_a; call_b] (racy_schedule 0)
                cfg eq_refl R) as (H1 & _ & _ & _ & _ & H2).
  split; [exact H1|exact H2].
Defined.

End LockProps.

(** ** The retry loop around any operation *)

Module BackoffProps.
Import Exceptions Builtins Retry RetryProps.
Local Open Scope Q_scope.

Section Loops.
Context {W A N : Type} `{Number N}.
Variables initial_delay max_delay backoff_multiplier : N.
Variable func : W -> (A + exn) * W.

(** No wait is above the cap, as [<] has it. *)
Lemma backoff_waits_not_above errors :
  num_lt max_delay max_delay = false ->
  forall delay,
    Forall (fun d => num_lt max_delay d = false)
           (backoff_waits max_delay backoff_multiplier delay errors).
Proof.
  intros Hirr. induction errors as [|e errors IH]; intros delay;
    cbn [backoff_waits]; constructor; [|apply IH].
  assert (M : forall x, num_lt max_delay (num_min x max_delay) = false).
  { intros x. unfold num_min. now destruct (num_lt max_delay x) eqn:E. }
  destruct (rate_limit_retry_after e); apply M.
Qed.

(** The loop from attempt [k]: it stops at the first invocation whose
    outcome ends it, or at the last attempt. *)
Lemma loop_until_final (M m : nat) : forall k delay last n slept w,
  (k + m = M)%nat ->
  let tr := loop (Z.of_nat M) max_delay backoff_multiplier func
                 (map Z.of_nat (seq k (S m))) delay last n slept w in
  exists j, (j <= m)%nat /\
    invocations tr = (n + S j)%nat /\
    result tr = fst (func (after_calls func j w)) /\
    world tr = after_calls func (S j) w /\
    sleeps tr = slept ++ backoff_waits max_delay backoff_multiplier delay
                           (errors_of func j w) /\
    length (errors_of func j w) = j /\
    (forall i, (i < j)%nat ->
               ends_loop (fst (func (after_calls func i w))) = false) /\
    ((j < m)%nat -> ends_loop (fst (func (after_calls func j w))) = true).
Proof.
  induction m as [|m IH]; intros k delay last n slept w Hk.
  - cbn [seq map Retry.loop]. exists 0%nat.
    cbn [after_calls errors_of backoff_waits]. rewrite app_nil_r.
    destruct (func w) as [r w'] eqn:F. cbn [fst snd].
    assert (Hlast : (Z.of_nat k =? Z.of_nat M)%Z = true)
      by (apply Z.eqb_eq; lia).
    destruct r as [v|e]; [|destruct (negb (is_Exception e));
      [|destruct (negb (is_retryable_error e)); [|rewrite Hlast]]];
      cbn [result invocations sleeps world raise_last];
      repeat split; try lia.
  - change (seq k (S (S m))) with (k :: seq (S k) (S m)).
    rewrite map_cons. cbn [Retry.loop].
    destruct (func w) as [r w'] eqn:F.
    assert (Stop : ends_loop r = true ->
      forall tr : trace,
        result tr = r -> invocations tr = S n -> sleeps tr = slept ->
        world tr = w' ->
        exists j, (j <= S m)%nat /\
          invocations tr = (n + S j)%nat /\
          result tr = fst (func (after_calls func j w)) /\
          world tr = after_calls func (S j) w /\
          sleeps tr = slept ++ backoff_waits max_delay backoff_multiplier delay
                                 (errors_of func j w) /\
          length (errors_of func j w) = j /\
          (forall i, (i < j)%nat ->
                     ends_loop (fst (func (after_calls func i w))) = false) /\
          ((j < S m)%nat -> ends_loop (fst (func (after_calls func j w))) = true)).
    { intros He tr R I S Wd. exists 0%nat.
      cbn [after_calls errors_of backoff_waits]. rewrite app_nil_r, F.
      cbn [fst snd]. repeat split; try assumption; try reflexivity;
        try lia; intros; first [lia | assumption]. }
    destruct r as [v|e].
    + apply Stop; reflexivity.
    + destruct (is_Exception e) eqn:Ex; cbn [negb].
      2:{ apply Stop; try reflexivity. cbn [ends_loop].
          destruct (is_retryable_error e) eqn:Re; [|reflexivity].
          apply retryable_is_Exception in Re. congruence. }
      destruct (is_retryable_error e) eqn:Re; cbn [negb].
      2:{ apply Stop; try reflexivity. cbn [ends_loop]. now rewrite Re. }
      replace (Z.of_nat k =? Z.of_nat M)%Z with false
        by (symmetry; apply Z.eqb_neq; lia).
      specialize (IH (S k)
        (num_mul
           match rate_limit_retry_after e with
           | Some retry_after => num_min (num_of_int retry_after) max_delay
           | None => num_min delay max_delay
           end backoff_multiplier)
        (Some e) (S n)
        (slept ++ [match rate_limit_retry_after e with
                   | Some retry_after => num_min (num_of_int retry_after) max_delay
                   | None => num_min delay max_delay
                   end]) w' ltac:(lia)).
      cbn zeta in IH.
      destruct IH as (j & Hj & I1 & I2 & I3 & I4 & I5 & I6 & I7).
      exists (S j). cbn [after_calls errors_of]. rewrite F. cbn [fst snd].
      rewrite I1, I2, I3, I4. cbn [backoff_waits length].
      rewrite <- app_assoc, I5. cbn [app].
      repeat split; try lia.
      * intros [|i] Hi; cbn [after_calls]; rewrite F; cbn [fst snd].
        -- cbn [ends_loop]. now rewrite Re.
        -- apply I6. lia.
      * intros Hlt. apply I7. lia.
Qed.

(** The decorated function, for [max_retries >= 0]. *)
Lemma wrapper_until_final (max_retries : Z) (w : W) :
  (0 <= max_retries)%Z ->
  let tr := wrapper max_retries initial_delay max_delay backoff_multiplier
                    func w in
  exists j : nat,
    (Z.of_nat j <= max_retries)%Z /\
    invocations tr = S j /\
    result tr = fst (func (after_calls func j w)) /\
    world tr = after_calls func (S j) w /\
    sleeps tr = backoff_waits max_delay backoff_multiplier initial_delay
                              (errors_of func j w) /\
    length (errors_of func j w) = j /\
    (forall i, (i < j)%nat ->
               ends_loop (fst (func (after_calls func i w))) = false) /\
    ((Z.of_nat j < max_retries)%Z ->
     ends_loop (fst (func (after_calls func j w))) = true).
Proof.
  intros Hmr. cbv zeta. unfold wrapper.
  remember (Z.to_nat max_retries) as M eqn:EM.
  assert (E : max_retries = Z.of_nat M) by lia.
  clear EM Hmr. subst max_retries. rewrite range_succ.
  destruct (loop_until_final M M 0 initial_delay None 0%nat [] w ltac:(lia))
    as (j & Hj & I1 & I2 & I3 & I4 & I5 & I6 & I7).
  exists j. rewrite I1, I2, I3, I4. cbn [app Nat.add].
  repeat split; try assumption; try lia.
  intros Hlt. apply I7. lia.
Qed.

(** X8. Transient failures are masked, whatever the number type of the
    delays: if the first [k] invocations raise retryable errors, with
    [k <= max_retries], and the next one returns a value (or raises an
    error that is not retryable), the wrapper gives that outcome after
    [k + 1] invocations and [k] waits, the waits of the back-off recurrence
    of the code over the [k] errors. *)
Theorem transient_failures_are_masked (max_retries : Z) (w : W) (k : nat) :
  (Z.of_nat k <= max_retries)%Z ->
  (forall i, (i < k)%nat ->
             ends_loop (fst (func (after_calls func i w))) = false) ->
  ends_loop (fst (func (after_calls func k w))) = true ->
  let tr := wrapper max_retries initial_delay max_delay backoff_multiplier
                    func w in
  result tr = fst (func (after_calls func k w)) /\
  invocations tr = S k /\
  world tr = after_calls func (S k) w /\
  sleeps tr = backoff_waits max_delay backoff_multiplier initial_delay
                            (errors_of func k w) /\
  length (sleeps tr) = k.
Proof.
  intros Hk Hbefore Hfinal. cbv zeta.
  destruct (wrapper_until_final max_retries w ltac:(lia))
    as (j & Hj & I1 & I2 & I3 & I4 & I5 & I6 & I7).
  assert (E : j = k).
  { destruct (Nat.lt_trichotomy j k) as [Hlt|[Heq|Hgt]]; [|exact Heq|].
    - specialize (Hbefore j Hlt). rewrite I7 in Hbefore by lia.
      discriminate Hbefore.
    - specialize (I6 k Hgt). congruence. }
  subst j. rewrite I1, I2, I3, I4, backoff_waits_length. repeat split.
  exact I5.
Qed.

End Loops.

Lemma num_min_le (a b : Q) : num_min a b <= b /\ num_min a b <= a.
Proof.
  unfold num_min. cbn [num_lt exact_number].
  destruct (Qle_bool a b) eqn:E; cbn [negb].
  - apply Qle_bool_iff in E. lra.
  - assert (~ a <= b) by (intros X; apply Qle_bool_iff in X; congruence). lra.
Qed.

Lemma backoff_waits_capped (max_delay backoff_multiplier : Q) errors :
  forall delay,
    Forall (fun d => d <= max_delay)
           (backoff_waits max_delay backoff_multiplier delay errors).
Proof.
  induction errors as [|e errors IH]; intros delay; cbn [backoff_waits];
    constructor; [|apply IH].
  destruct (rate_limit_retry_after e); apply num_min_le.
Qed.

Section Wrapper.
Context {W A : Type}.
Variables initial_delay max_delay backoff_multiplier : Q.
Variable func : W -> (A + exn) * W.

(** X7. For [max_retries >= 0] and any wrapped operation: the wrapper
    invokes it until an invocation returns or raises an error that is not
    retryable, and at most [max_retries + 1] times; every invocation before
    the last raised a retryable error; the result is the outcome of the
    last invocation, value or error, and nothing else; and the wrapper
    sleeps once before each re-attempt, never longer than [max_delay]. *)
Theorem wrapper_runs_until_final (max_retries : Z) (w : W) :
  (0 <= max_retries)%Z ->
  let tr := wrapper max_retries initial_delay max_delay backoff_multiplier
                    func w in
  exists j : nat,
    invocations tr = S j /\
    (Z.of_nat (invocations tr) <= max_retries + 1)%Z /\
    result tr = fst (func (after_calls func j w)) /\
    world tr = after_calls func (invocations tr) w /\
    (forall i, (i < j)%nat ->
       exists e, fst (func (after_calls func i w)) = inr e /\
                 is_retryable_error e = true) /\
    ((Z.of_nat (invocations tr) < max_retries + 1)%Z ->
     ends_loop (result tr) = true) /\
    length (sleeps tr) = j /\
    Forall (fun d => d <= max_delay) (sleeps tr).
Proof.
  intros Hmr. cbv zeta.
  destruct (wrapper_until_final initial_delay max_delay backoff_multiplier
              func max_retries w Hmr)
    as (j & Hj & I1 & I2 & I3 & I4 & I5 & I6 & I7).
  exists j. rewrite I1, I2, I3, I4.
  split; [reflexivity|]. split; [lia|]. split; [reflexivity|].
  split; [reflexivity|]. split; [|split; [|split]].
  - intros i Hi. specialize (I6 i Hi).
    destruct (fst (func (after_calls func i w))) as [v|e]; [discriminate I6|].
    exists e. split; [reflexivity|]. cbn [ends_loop] in I6.
    now destruct (is_retryable_error e).
  - intros Hlt. apply I7. lia.
  - now rewrite backoff_waits_length.
  - apply backoff_waits_capped.
Qed.

(** X9. With a negative [max_retries] the loop has no attempt: the
    operation is never invoked, and [raise last_error] finds the variable
    unbound. *)
Theorem negative_max_retries_never_invokes (max_retries : Z) (w : W) :
  (max_retries < 0)%Z ->
  wrapper max_retries initial_delay max_delay backoff_multiplier func w
  = {| result := inr (OtherException "UnboundLocalError");
       invocations := 0; sleeps := []; world := w |}.
Proof.
  intros H. unfold wrapper, range.
  replace (Z.to_nat (max_retries + 1)) with 0%nat by lia. reflexivity.
Qed.

End Wrapper.

Lemma wrapper_runs_until_final_witness :
  exists j : nat,
    invocations (wrapper 3 1 30 2 scripted [network_error; rate_limited 5]) = S j /\
    length (sleeps (wrapper 3 1 30 2 scripted [network_error; rate_limited 5])) = j.
Proof.
  destruct (wrapper_runs_until_final 1 30 2 scripted 3
              [network_error; rate_limited 5] ltac:(lia))
    as (j & H1 & _ & _ & _ & _ & _ & H2 & _).
  exists j. split; [exact H1|exact H2].
Defined.

Lemma transient_failures_are_masked_witness :
  result (wrapper 3 default_delay default_cap default_multiplier scripted
                  [network_error; rate_limited 5]) = inl tt /\
  invocations (wrapper 3 default_delay default_cap default_multiplier scripted
                       [network_error; rate_limited 5]) = 3%nat /\
  sleeps (wrapper 3 default_delay default_cap default_multiplier scripted
                  [network_error; rate_limited 5])
  = [float_of_int 1; float_of_int 5].
Proof.
  destruct (transient_failures_are_masked default_delay default_cap
              default_multiplier scripted 3
              [network_error; rate_limited 5] 2) as (H1 & H2 & _ & H3 & _).
  - lia.
  - intros [|[|i]] Hi; [reflexivity|reflexivity|lia].
  - reflexivity.
  - split; [exact H1|]. split; [exact H2|]. rewrite H3. reflexivity.
Defined.

Lemma negative_max_retries_never_invokes_witness :
  invocations (wrapper (-1) 1 30 2 scripted [network_error]) = 0%nat.
Proof.
  rewrite (negative_max_retries_never_invokes 1 30 2 scripted (-1)
             [network_error]) by lia.
  reflexivity.
Defined.

End BackoffProps.

(** ** Responses, requests and URLs *)

Module ResponseProps.
Import Exceptions Builtins Retry Http StringFacts RetryProps HttpProps.

(** What the helpers raise is not an SDK error. *)
Lemma py_get_raises v key default x :
  py_get v key default = inr x -> x = OtherException "AttributeError".
Proof. destruct v; cbn; congruence. Qed.

Lemma parse_retry_after_raises h x :
  parse_retry_after h = inr x -> x = OtherException "ValueError".
Proof.
  unfold parse_retry_after. destruct h as [s|]; [|discriminate].
  destruct (negb (String.eqb s EmptyString)); [|discriminate].
  destruct (py_int s); congruence.
Qed.

(** The status chain always raises, and what it raises carries the status
    of the response, the message and the details. *)
Lemma raise_for_status_raises r data message details :
  exists e, raise_for_status r data message details = inr e.
Proof.
  unfold raise_for_status.
  destruct (status r =? 401); [eauto|].
  destruct (status r =? 400); [eauto|].
  destruct (status r =? 402).
  { destruct (py_get data "payment" (PyDict [])) as [pi|x]; cbn [bind]; [|eauto].
    destruct (py_get pi "amount" PyNone) as [a|x]; cbn [bind]; [|eauto].
    destruct (py_get pi "resource" PyNone) as [rs|x]; cbn [bind]; eauto. }
  destruct (status r =? 404); [eauto|].
  destruct (status r =? 429); [|eauto].
  destruct (parse_retry_after (headers r !! "retry-after")); cbn [bind]; eauto.
Qed.

Lemma raise_for_status_carries r data message details e :
  raise_for_status r data message details = inr (Z402 e) ->
  status_code_of e = Some (status r) /\ message_of e = message /\
  details_of e = details /\ kind_of (Z402 e) = Some (kind_of_status (status r)).
Proof.
  unfold raise_for_status, kind_of_status.
  destruct (status r =? 401) eqn:E401.
  { apply Z.eqb_eq in E401. rewrite E401. intros [= <-]. now cbn. }
  destruct (status r =? 400) eqn:E400.
  { apply Z.eqb_eq in E400. rewrite E400. intros [= <-]. now cbn. }
  destruct (status r =? 402) eqn:E402.
  { apply Z.eqb_eq in E402. rewrite E402.
    destruct (py_get data "payment" (PyDict [])) as [pi|x] eqn:G1; cbn [bind];
      [|apply py_get_raises in G1; subst x; discriminate].
    destruct (py_get pi "amount" PyNone) as [a|x] eqn:G2; cbn [bind];
      [|apply py_get_raises in G2; subst x; discriminate].
    destruct (py_get pi "resource" PyNone) as [rs|x] eqn:G3; cbn [bind];
      [|apply py_get_raises in G3; subst x; discriminate].
    intros [= <-]. now cbn. }
  destruct (status r =? 404) eqn:E404.
  { apply Z.eqb_eq in E404. rewrite E404. intros [= <-]. now cbn. }
  destruct (status r =? 429) eqn:E429.
  { apply Z.eqb_eq in E429. rewrite E429.
    destruct (parse_retry_after (headers r !! "retry-after")) as [ra|x] eqn:G;
      cbn [bind]; [|apply parse_retry_after_raises in G; subst x; discriminate].
    intros [= <-]. now cbn. }
  intros [= <-]. now cbn.
Qed.

Lemma py_or_truthy a : truthy (py_or a (PyStr "API error")) = true.
Proof. unfold py_or. destruct (truthy a) eqn:T; [exact T|reflexivity]. Qed.

Lemma response_data_raises r x :
  response_data r = inr x ->
  x = OtherException "UnicodeDecodeError" /\ json r = None /\ text r = None.
Proof.
  unfold response_data. destruct (json r); [discriminate|].
  destruct (text r); [discriminate|]. now intros [= <-].
Qed.

(** X10. [_handle_response] returns exactly when the status is below 400
    and the body decodes, as JSON or else as text, and then it returns the
    decoded body (for a body that is not JSON, its text under
    ["message"]).  A body that is neither JSON nor text in the charset of
    the response raises the [UnicodeDecodeError] of [response.text()],
    whatever the status.  On a status of 400 or more it raises.  Every SDK
    error it raises carries the status of the response as its
    [status_code], is of the class that the status selects, and has a
    message that is not empty. *)
Theorem handle_response_outcomes r :
  (forall data, _handle_response r = inl data <->
                ok r = true /\ response_data r = inl data) /\
  (forall x, response_data r = inr x ->
             _handle_response r = inr (OtherException "UnicodeDecodeError") /\
             json r = None /\ text r = None) /\
  (ok r = false -> exists e, _handle_response r = inr e) /\
  (forall e, _handle_response r = inr (Z402 e) ->
             ok r = false /\
             status_code_of e = Some (status r) /\
             kind_of (Z402 e) = Some (kind_of_status (status r)) /\
             truthy (message_of e) = true).
Proof.
  unfold _handle_response.
  destruct (response_data r) as [data|x0] eqn:Hd; cbn [bind].
  2:{ destruct (response_data_raises r x0 Hd) as (-> & Hj & Ht).
      split; [|split; [|split]].
      - intros d. split; [discriminate|]. now intros [_ [=]].
      - intros x _. auto.
      - eauto.
      - discriminate. }
  destruct (ok r) eqn:Hok; cbn [negb].
  { split; [|split; [|split]].
    - intros d. split; [now intros [= <-]|]. now intros [_ [= <-]].
    - discriminate.
    - discriminate.
    - discriminate. }
  assert (Shape : forall res : pyval + exn,
    (forall d, res <> inl d) ->
    (forall e, res = inr (Z402 e) ->
               status_code_of e = Some (status r) /\
               kind_of (Z402 e) = Some (kind_of_status (status r)) /\
               truthy (message_of e) = true) ->
    (forall d, res = inl d <->
               false = true /\ (inl data : pyval + exn) = inl d) /\
    (forall x : exn, (inl data : pyval + exn) = inr x ->
               res = inr (OtherException "UnicodeDecodeError") /\
               json r = None /\ text r = None) /\
    (false = false -> exists e, res = inr e) /\
    (forall e, res = inr (Z402 e) ->
               false = false /\
               status_code_of e = Some (status r) /\
               kind_of (Z402 e) = Some (kind_of_status (status r)) /\
               truthy (message_of e) = true)).
  { intros res Hn Hc. split; [|split; [|split]].
    - intros d. split; [intros H; now apply Hn in H|]. now intros [[=] _].
    - discriminate.
    - intros _. destruct res as [d|e]; [now destruct (Hn d)|eauto].
    - intros e He. split; [reflexivity|]. now apply Hc. }
  destruct (py_get data "error" (PyDict [])) as [err|x] eqn:G1; cbn [bind].
  2:{ apply py_get_raises in G1. subst x. apply Shape; discriminate. }
  destruct (py_get err "message" PyNone) as [m1|x] eqn:G2; cbn [bind].
  2:{ apply py_get_raises in G2. subst x. apply Shape; discriminate. }
  assert (Tail : forall message,
    truthy message = true ->
    let res :=
      bind (py_get err "details" PyNone)
           (fun d1 =>
              bind (if truthy d1 then inl d1 else py_get data "details" PyNone)
                   (fun details => raise_for_status r data message details)) in
    (forall d, res <> inl d) /\
    (forall e, res = inr (Z402 e) ->
               status_code_of e = Some (status r) /\
               kind_of (Z402 e) = Some (kind_of_status (status r)) /\
               truthy (message_of e) = true)).
  { intros message Hm res. subst res.
    assert (R : forall details,
      (forall d, raise_for_status r data message details <> inl d) /\
      (forall e, raise_for_status r data message details = inr (Z402 e) ->
                 status_code_of e = Some (status r) /\
                 kind_of (Z402 e) = Some (kind_of_status (status r)) /\
                 truthy (message_of e) = true)).
    { intros details.
      destruct (raise_for_status_raises r data message details) as (e0 & He0).
      split.
      - intros d. rewrite He0. discriminate.
      - intros e He.
        destruct (raise_for_status_carries r data message details e He)
          as (H1 & H2 & _ & H4).
        rewrite H2. auto. }
    destruct (py_get err "details" PyNone) as [d1|x] eqn:G3; cbn [bind].
    2:{ apply py_get_raises in G3. subst x. split; discriminate. }
    destruct (truthy d1); cbn [bind]; [apply R|].
    destruct (py_get data "details" PyNone) as [d2|x] eqn:G4; cbn [bind];
      [apply R|].
    apply py_get_raises in G4. subst x. split; discriminate. }
  destruct (truthy m1) eqn:T1; cbn [bind].
  - apply Shape; apply Tail; exact T1.
  - destruct (py_get data "message" PyNone) as [m2|x] eqn:G3; cbn [bind].
    + apply Shape; apply Tail; apply py_or_truthy.
    + apply py_get_raises in G3. subst x. apply Shape; discriminate.
Qed.

Lemma handle_response_outcomes_witness :
  ok unauthorized_response = false /\
  exists e, _handle_response unauthorized_response = inr e.
Proof.
  split; [reflexivity|].
  exact (proj1 (proj2 (proj2 (handle_response_outcomes unauthorized_response)))
               eq_refl).
Defined.

(** X11. An error response whose body is not JSON but is text (a proxy's
    error page, an empty body) is always classified: the error is the SDK
    error that the status selects, its message is the text of the body, or
    "API error" when the body is empty, and it has no details.  (For a 429
    the statement is for a [Retry-After] header that is absent or
    empty.) *)
Theorem non_json_error_body r body :
  json r = None -> text r = Some body -> ok r = false ->
  (status r = 429 ->
   headers r !! "retry-after" = None \/
   headers r !! "retry-after" = Some EmptyString) ->
  exists e,
    _handle_response r = inr (Z402 e) /\
    kind_of (Z402 e) = Some (kind_of_status (status r)) /\
    status_code_of e = Some (status r) /\
    message_of e = PyStr (if String.eqb body EmptyString
                          then "API error" else body) /\
    details_of e = PyNone /\
    (is_retryable_error (Z402 e) = true <->
     status r = 429 \/ 500 <= status r < 600).
Proof.
  intros Hj Ht Hok Hra0.
  assert (Hra : status r = 429 ->
                exists ra, parse_retry_after (headers r !! "retry-after") = inl ra).
  { intros H. destruct (Hra0 H) as [-> | ->]; eexists; reflexivity. }
  unfold _handle_response, response_data. rewrite Hj, Ht. cbn [bind].
  rewrite Hok. cbn [negb].
  pose proof Hok as Hst. unfold ok in Hst. apply Z.ltb_ge in Hst.
  destruct (String.eqb body EmptyString) eqn:Et; cbn [negb].
  - cbn.
    destruct (raise_for_status_table r [] (PyStr "API error") PyNone
                ltac:(lia) I Hra) as (e & H1 & H2 & H3 & _).
    exists e. split; [exact H1|].
    destruct (raise_for_status_carries _ _ _ _ _ H1) as (C1 & C2 & C3 & _).
    split; [exact H2|]. split; [exact C1|]. split; [exact C2|].
    split; [exact C3|exact H3].
  - cbn. unfold py_or. cbn [truthy]. rewrite Et. cbn [negb].
    destruct (raise_for_status_table r [("message", PyStr body)]
                (PyStr body) PyNone ltac:(lia) I Hra)
      as (e & H1 & H2 & H3 & _).
    exists e. split; [exact H1|].
    destruct (raise_for_status_carries _ _ _ _ _ H1) as (C1 & C2 & C3 & _).
    split; [exact H2|]. split; [exact C1|]. split; [exact C2|].
    split; [exact C3|exact H3].
Qed.

Lemma non_json_error_body_witness :
  exists e,
    _handle_response {| status := 503; json := None;
                        text := Some "Service Unavailable";
                        headers := ∅ |} = inr (Z402 e) /\
    message_of e = PyStr "Service Unavailable".
Proof.
  destruct (non_json_error_body
              {| status := 503; json := None;
                 text := Some "Service Unavailable";
                 headers := ∅ |} "Service Unavailable" eq_refl eq_refl eq_refl)
    as (e & H1 & _ & _ & H2 & _).
  - intros H. discriminate H.
  - exists e. split; [exact H1|exact H2].
Defined.

Lemma handle_response_ok r data :
  ok r = true -> response_data r = inl data -> _handle_response r = inl data.
Proof. intros H D. unfold _handle_response. rewrite D. cbn. now rewrite H. Qed.

(** The wrapper around an operation whose first outcome ends the loop. *)
Lemma wrapper_first_final {W A N : Type} `{Number N} (max_retries : Z)
    (initial_delay max_delay backoff_multiplier : N)
    (func : W -> (A + exn) * W) (w : W) :
  0 <= max_retries ->
  ends_loop (fst (func w)) = true ->
  let tr := wrapper max_retries initial_delay max_delay backoff_multiplier
                    func w in
  result tr = fst (func w) /\ invocations tr = 1%nat /\ sleeps tr = [].
Proof.
  intros Hmr Hend. cbv zeta. unfold wrapper, range.
  destruct (Z.to_nat (max_retries + 1)) as [|n] eqn:En; [lia|].
  cbn [seq map loop]. destruct (func w) as [r w'].
  cbn [fst] in Hend |- *. destruct r as [v|e]; [now cbn|].
  cbn [ends_loop] in Hend. apply negb_true_iff in Hend.
  destruct (negb (is_Exception e)); [now cbn|]. rewrite Hend. now cbn.
Qed.

(** X12. A request makes between one and four attempts, whatever
    [max_retries] the client was given, with one wait before each
    re-attempt, none above the 30 seconds of the cap.  A response below 400
    whose body decodes is returned at once; and a client error (400..499
    other than 429) with a body of the expected shape is raised at once,
    without a second attempt. *)
Theorem request_attempts {W} (net : W -> transport * W) (w : W) :
  let tr := request net w in
  (1 <= invocations tr <= 4)%nat /\
  S (length (sleeps tr)) = invocations tr /\
  Forall (fun d => num_lt default_cap d = false) (sleeps tr) /\
  (forall r data, fst (net w) = Responded r -> ok r = true ->
     response_data r = inl data ->
     result tr = inl data /\
     invocations tr = 1%nat /\ sleeps tr = []) /\
  (forall r, fst (net w) = Responded r -> enveloped r ->
     400 <= status r < 500 -> status r <> 429 ->
     invocations tr = 1%nat /\ sleeps tr = [] /\
     exists e, result tr = inr (Z402 e) /\
               kind_of (Z402 e) = Some (kind_of_status (status r)) /\
               is_retryable_error (Z402 e) = false).
Proof.
  cbv zeta. unfold request.
  set (func := fun w0 : W => let '(t, w') := net w0 in (request_once t, w')).
  split; [|split; [|split; [|split]]].
  - destruct (BackoffProps.wrapper_until_final default_delay default_cap
                default_multiplier func 3 w ltac:(lia))
      as (j & Hj & I1 & _). rewrite I1. lia.
  - destruct (BackoffProps.wrapper_until_final default_delay default_cap
                default_multiplier func 3 w ltac:(lia))
      as (j & Hj & I1 & _ & _ & I4 & I5 & _).
    rewrite I1, I4, backoff_waits_length, I5. reflexivity.
  - destruct (BackoffProps.wrapper_until_final default_delay default_cap
                default_multiplier func 3 w ltac:(lia))
      as (j & Hj & I1 & _ & _ & I4 & _).
    rewrite I4. now apply BackoffProps.backoff_waits_not_above.
  - intros r data Hr Hok Hd.
    assert (F : fst (func w) = inl data).
    { subst func. cbv beta. destruct (net w) as [t w']. cbn [fst] in Hr |- *.
      subst t. cbn [request_once]. now apply handle_response_ok. }
    destruct (wrapper_first_final 3 default_delay default_cap
                default_multiplier func w ltac:(lia)) as (R1 & R2 & R3).
    + now rewrite F.
    + rewrite R1, F. auto.
  - intros r Hr Henv Hst H429.
    assert (Hok : ok r = false) by (unfold ok; apply Z.ltb_ge; lia).
    destruct (handle_response_table r Hok Henv ltac:(intros; lia))
      as (e & H1 & H2 & H3).
    assert (Hnr : is_retryable_error (Z402 e) = false).
    { destruct (is_retryable_error (Z402 e)); [|reflexivity].
      destruct (proj1 H3 eq_refl); lia. }
    assert (F : fst (func w) = inr (Z402 e)).
    { subst func. cbv beta. destruct (net w) as [t w']. cbn [fst] in Hr |- *.
      subst t. exact H1. }
    destruct (wrapper_first_final 3 default_delay default_cap
                default_multiplier func w ltac:(lia)) as (R1 & R2 & R3).
    + rewrite F. cbn [ends_loop]. now rewrite Hnr.
    + rewrite R1, F. split; [exact R2|]. split; [exact R3|].
      exists e. split; [reflexivity|]. split; [exact H2|exact Hnr].
Qed.

Lemma request_attempts_witness :
  result (request (fun w : nat =>
                     (Responded {| status := 200; json := Some (PyDict []);
                                   text := Some EmptyString; headers := ∅ |},
                      S w))
                  0%nat)
  = inl (PyDict []).
Proof.
  apply (proj1 (proj2 (proj2 (proj2
           (request_attempts
              (fun w : nat =>
                 (Responded {| status := 200; json := Some (PyDict []);
                               text := Some EmptyString; headers := ∅ |},
                  S w))
              0%nat))))
           {| status := 200; json := Some (PyDict []);
              text := Some EmptyString; headers := ∅ |} (PyDict [])
           eq_refl eq_refl eq_refl).
Defined.

Lemma append_assoc (a b c : string) :
  ((a ++ b) ++ c)%string = (a ++ b ++ c)%string.
Proof.
  induction a as [|x a IH]; [reflexivity|].
  rewrite !append_String. now rewrite IH.
Qed.

Lemma rstrip_char_snoc c s :
  rstrip_char c (s ++ String c EmptyString) = rstrip_char c s.
Proof.
  induction s as [|x s IH].
  - rewrite append_Empty. cbn. now rewrite Ascii.eqb_refl.
  - rewrite append_String. cbn [rstrip_char]. now rewrite IH.
Qed.

Lemma rstrip_char_no_trailing c s t :
  rstrip_char c s <> (t ++ String c EmptyString)%string.
Proof.
  revert t. induction s as [|x s IH]; intros t; cbn [rstrip_char].
  - destruct t; discriminate.
  - destruct (rstrip_char c s) as [|y r] eqn:E.
    + destruct (Ascii.eqb_spec x c) as [->|Hx].
      * destruct t; discriminate.
      * destruct t as [|a [|b t]]; try discriminate.
        rewrite append_Empty. congruence.
    + destruct t as [|a t].
      * rewrite append_Empty. discriminate.
      * rewrite append_String. intros [= -> H]. exact (IH t H).
Qed.

(** X13. URLs.  Entries of the query whose value is [None] are never sent:
    the URL is the one built from the remaining entries; when no entry
    remains ([query] is [None], empty, or all [None]) the URL is the base
    URL followed by the path, without a question mark; otherwise the
    encoded entries follow a question mark.  The base URL is stored
    without trailing slashes, so that base URLs that differ by a trailing
    slash give the same URLs. *)
Theorem build_url_query_and_slashes (urlencode : list (string * pyval) -> string)
    (base_url path : string) (query : option (list (string * pyval))) :
  let sent :=
    match query with
    | Some q => List.filter (fun kv => is_not_None (snd kv)) q
    | None => []
    end in
  _build_url urlencode base_url path query
    = _build_url urlencode base_url path (Some sent) /\
  (sent = [] -> _build_url urlencode base_url path query
                = (base_url ++ path)%string) /\
  (sent <> [] -> _build_url urlencode base_url path query
                 = (base_url ++ path ++ "?" ++ urlencode sent)%string) /\
  stored_base_url (base_url ++ "/") = stored_base_url base_url /\
  (forall t, stored_base_url base_url <> (t ++ "/")%string).
Proof.
  cbv zeta.
  set (f := fun kv : string * pyval => is_not_None (snd kv)).
  assert (Idem : forall q, List.filter f (List.filter f q) = List.filter f q).
  { induction q as [|kv q IH]; [reflexivity|]. cbn [List.filter].
    destruct (f kv) eqn:E; [|exact IH].
    cbn [List.filter]. now rewrite E, IH. }
  assert (Sub : forall q, List.filter f q <> [] -> q <> []).
  { intros q H ->. now apply H. }
  assert (U : forall q,
    _build_url urlencode base_url path (Some q)
    = match List.filter f q with
      | [] => (base_url ++ path)%string
      | _ :: _ => ((base_url ++ path) ++ "?" ++ urlencode (List.filter f q))%string
      end).
  { intros [|kv q]; [reflexivity|]. reflexivity. }
  split; [|split; [|split; [|split]]].
  - destruct query as [q|]; [|reflexivity]. now rewrite !U, Idem.
  - destruct query as [q|]; [|reflexivity]. rewrite U. now intros ->.
  - destruct query as [q|]; [|congruence]. rewrite U.
    destruct (List.filter f q); [congruence|].
    intros _. apply append_assoc.
  - apply rstrip_char_snoc.
  - intros t. apply rstrip_char_no_trailing.
Qed.

Lemma build_url_query_and_slashes_witness :
  _build_url (fun _ => EmptyString) "https://api.z402.io/v1" "/transactions"
             (Some [("status", PyNone)])
  = "https://api.z402.io/v1/transactions".
Proof.
  apply (proj1 (proj2 (build_url_query_and_slashes (fun _ => EmptyString)
                         "https://api.z402.io/v1" "/transactions"
                         (Some [("status", PyNone)])))).
  reflexivity.
Defined.

End ResponseProps.

(** ** The client: construction and [pay] *)

Module ClientProps.
Import Exceptions Builtins Budget SumFacts BudgetProps Client.
Local Open Scope Q_scope.

(** X14. A client is constructed exactly for the API keys that start with
    [z402_]; every other key, the empty one included, raises [ValueError].
    The constructed client keeps the key and the budget manager; its base
    URL is the one given, without trailing slashes, and otherwise the
    mainnet URL for the network "mainnet" and the testnet URL for every
    other network name. *)
Theorem init_accepts_prefixed_keys (key network : string)
    (url : option string) (retries seconds : Z) (dbg : bool)
    (bm : option BudgetManager) :
  ((exists c, init key network url retries seconds dbg bm = inl c)
   <-> startswith "z402_" key = true) /\
  (startswith "z402_" key = false ->
   init key network url retries seconds dbg bm = inr value_error) /\
  (forall c,
      init key network url retries seconds dbg bm = inl c ->
      api_key c = key /\ budget c = bm /\
      (forall u, url = Some u -> base_url c = Http.stored_base_url u) /\
      (url = None -> network = "mainnet" ->
       base_url c = "https://api.z402.io/v1") /\
      (url = None -> network <> "mainnet" ->
       base_url c = "https://api-testnet.z402.io/v1")).
Proof.
  unfold init.
  destruct (String.eqb_spec key EmptyString) as [->|Hne].
  { split; [|split].
    - split; [now intros [c [=]]|discriminate].
    - reflexivity.
    - discriminate. }
  destruct (startswith "z402_" key) eqn:P; cbn [negb].
  - split; [|split].
    + split; [reflexivity|]. intros _. eauto.
    + discriminate.
    + intros c [= <-]. cbn [api_key budget base_url].
      split; [reflexivity|]. split; [reflexivity|]. split; [|split].
      * now intros u ->.
      * intros -> ->. reflexivity.
      * intros -> Hn. apply String.eqb_neq in Hn. now rewrite Hn.
  - split; [|split].
    + split; [now intros [c [=]]|discriminate].
    + reflexivity.
    + discriminate.
Qed.

Lemma init_accepts_prefixed_keys_witness :
  init "sk_live_1" "mainnet" None 3 30 false None = inr value_error.
Proof.
  apply (proj1 (proj2 (init_accepts_prefixed_keys "sk_live_1" "mainnet" None
                         3 30 false None))).
  reflexivity.
Defined.

Section Pay.
Context {W PaymentIntent : Type}.
Variable id : PaymentIntent -> string.
Variable payments_create :
  Q -> string -> option (gmap string pyval) -> W -> (PaymentIntent + exn) * W.
Variable payments_pay :
  string -> string -> string -> W -> (PaymentIntent + exn) * W.

Lemma record_spend_free (b : BudgetManager) (t_check t_next : Z) (amount : Q)
    (tx_id : string) (metadata : option (gmap string pyval)) :
  _lock b = false ->
  record_spend b t_check t_next amount tx_id metadata
  = if over_transaction_limit b amount
       || negb (within_limits b t_check amount)
    then Raises (budget_exceeded b t_next) b
    else Returns tt (append_record b t_next amount tx_id metadata).
Proof. intros L. now rewrite record_spend_cases, L. Qed.

(** X15. The budget check of [pay].  With [check_budget] and a manager
    whose lock is free: when [can_spend] refuses the amount, [pay] raises
    [ValueError] without any exchange with the API and without touching
    the ledger.  When it approves, [pay] deals with the API exactly as a
    client without a manager does and fails where that one fails; where
    that one returns the payment, the payment has been made and
    [record_spend] decides again, on the manager as the other tasks have
    left it meanwhile and at its own reading of the clock: within the
    limits [pay] returns the payment and has recorded the amount under the
    id of the payment, outside them it raises [BudgetExceededError] and
    records nothing.  So an approval by [can_spend] does not make the
    final [record_spend] succeed. *)
Theorem pay_budget_check (others : interference) (b : BudgetManager)
    (t_ask t_check t_next : Z)
    (amount : Q) (resource from_address tx_id : string)
    (metadata : option (gmap string pyval)) (w : W) :
  _lock b = false ->
  let found := during_pay others (during_create others b) in
  (can_spend b t_ask amount = Returns false b ->
   pay_among id payments_create payments_pay others (Some b) t_ask t_check
             t_next amount resource from_address tx_id metadata true w
   = Failed value_error w (Some b)) /\
  (can_spend b t_ask amount = Returns true b -> _lock found = false ->
   match pay_among id payments_create payments_pay others None t_ask t_check
                   t_next amount resource from_address tx_id metadata true w
   with
   | Paid paid w' _ =>
       pay_among id payments_create payments_pay others (Some b) t_ask t_check
                 t_next amount resource from_address tx_id metadata true w
       = if over_transaction_limit found amount
            || negb (within_limits found t_check amount)
         then Failed (budget_exceeded found t_next) w' (Some found)
         else Paid paid w'
                (Some (append_record found t_next amount (id paid) metadata))
   | Failed e w' _ =>
       exists left,
         pay_among id payments_create payments_pay others (Some b) t_ask
                   t_check t_next amount resource from_address tx_id metadata
                   true w
         = Failed e w' (Some left) /\
         (left = during_create others b \/ left = found)
   | Waiting => False
   end).
Proof.
  intros L found. split.
  - intros Hcan. unfold pay_among. rewrite Hcan. reflexivity.
  - intros Hcan Lf. unfold pay_among. rewrite Hcan. cbn [negb].
    unfold submit_and_record.
    destruct (payments_create amount resource metadata w) as [[intent|e] w1];
      cbn [option_map].
    2:{ eexists. split; [reflexivity|]. now left. }
    destruct (payments_pay (id intent) from_address tx_id w1) as [[paid|e] w2].
    2:{ eexists. split; [reflexivity|]. now right. }
    fold found. rewrite (record_spend_free found _ _ _ _ _ Lf).
    destruct (over_transaction_limit found amount
              || negb (within_limits found t_check amount)); reflexivity.
Qed.

(** X16. Without [check_budget], a client with a manager submits the
    payment first and checks the budget afterwards: when the API accepts
    the payment and the amount is outside the limits, the payment has been
    made, [pay] raises [BudgetExceededError] instead of returning it, and
    the ledger does not record it. *)
Theorem pay_unchecked_over_budget (b : BudgetManager)
    (t_ask t_check t_next : Z) (amount : Q)
    (resource from_address tx_id : string)
    (metadata : option (gmap string pyval)) (w w' : W) (paid : PaymentIntent) :
  _lock b = false ->
  can_spend b t_check amount = Returns false b ->
  pay id payments_create payments_pay None t_ask t_check t_next amount
      resource from_address tx_id metadata false w = Paid paid w' None ->
  pay id payments_create payments_pay (Some b) t_ask t_check t_next amount
      resource from_address tx_id metadata false w
  = Failed (budget_exceeded b t_next) w' (Some b).
Proof.
  intros L Hcan. unfold pay, pay_among, submit_and_record.
  destruct (payments_create amount resource metadata w) as [[intent|e] w1];
    [|discriminate].
  destruct (payments_pay (id intent) from_address tx_id w1) as [[p|e] w2];
    [|discriminate].
  cbn [option_map alone during_create during_pay].
  intros [= <- <-].
  rewrite can_spend_cases, L in Hcan. rewrite record_spend_cases, L.
  destruct (over_transaction_limit b amount); [reflexivity|].
  injection Hcan as ->. reflexivity.
Qed.

(** X17. [pay] records a spend exactly when it returns the payment.
    Whatever the other tasks do to the manager while the call awaits the
    API, with the lock free when the call asks for it the call never waits;
    when it raises, it has left the manager as it found it (as it was, for
    a refusal by [can_spend]; as the other tasks left it, later); and when
    it returns, the ledger is the one that [record_spend] found with one
    more record, with the amount, the id of the returned payment and the
    metadata.  For a client whose manager no other task uses, the manager
    is as it was before the call, or has exactly one more record. *)
Theorem pay_records_iff_returns (others : interference) (b : BudgetManager)
    (t_ask t_check t_next : Z) (amount : Q)
    (resource from_address tx_id : string)
    (metadata : option (gmap string pyval)) (check_budget : bool) (w : W) :
  _lock b = false ->
  let found := during_pay others (during_create others b) in
  _lock found = false ->
  let outcome :=
    pay_among id payments_create payments_pay others (Some b) t_ask t_check
              t_next amount resource from_address tx_id metadata check_budget
              w in
  outcome <> Waiting /\
  (forall e w' budget',
      outcome = Failed e w' budget' ->
      budget' = Some b \/ budget' = Some (during_create others b) \/
      budget' = Some found) /\
  (forall paid w' budget',
      outcome = Paid paid w' budget' ->
      budget' = Some (append_record found t_next amount (id paid) metadata)) /\
  (others = alone ->
   forall e w' budget', outcome = Failed e w' budget' -> budget' = Some b).
Proof.
  intros L found Lf. cbv zeta.
  assert (S : forall outcome,
    outcome = submit_and_record id payments_create payments_pay others
                (Some b) t_check t_next amount resource from_address tx_id
                metadata w ->
    outcome <> Waiting /\
    (forall e w' budget',
        outcome = Failed e w' budget' ->
        budget' = Some b \/ budget' = Some (during_create others b) \/
        budget' = Some found) /\
    (forall paid w' budget',
        outcome = Paid paid w' budget' ->
        budget' = Some (append_record found t_next amount (id paid) metadata))).
  { intros outcome ->. unfold submit_and_record.
    destruct (payments_create amount resource metadata w) as [[intent|e] w1];
      cbn [option_map].
    2:{ split; [discriminate|].
        split; [intros ? ? ? [= _ _ <-]; auto|discriminate]. }
    destruct (payments_pay (id intent) from_address tx_id w1) as [[p|e] w2].
    2:{ split; [discriminate|].
        split; [intros ? ? ? [= _ _ <-]; auto|discriminate]. }
    fold found. rewrite (record_spend_free found _ _ _ _ _ Lf).
    destruct (over_transaction_limit found amount
              || negb (within_limits found t_check amount)).
    - split; [discriminate|].
      split; [intros ? ? ? [= _ _ <-]; auto|discriminate].
    - split; [discriminate|]. split; [discriminate|].
      now intros ? ? ? [= <- _ <-]. }
  assert (P : forall outcome,
    outcome = pay_among id payments_create payments_pay others (Some b) t_ask
                t_check t_next amount resource from_address tx_id metadata
                check_budget w ->
    outcome <> Waiting /\
    (forall e w' budget',
        outcome = Failed e w' budget' ->
        budget' = Some b \/ budget' = Some (during_create others b) \/
        budget' = Some found) /\
    (forall paid w' budget',
        outcome = Paid paid w' budget' ->
        budget' = Some (append_record found t_next amount (id paid) metadata))).
  { intros outcome ->. unfold pay_among. destruct check_budget; [|now apply S].
    rewrite can_spend_cases, L.
    destruct (over_transaction_limit b amount); cbn [negb].
    - split; [discriminate|].
      split; [intros ? ? ? [= _ _ <-]; auto|discriminate].
    - destruct (within_limits b t_ask amount); cbn [negb]; [now apply S|].
      split; [discriminate|].
      split; [intros ? ? ? [= _ _ <-]; auto|discriminate]. }
  destruct (P _ eq_refl) as (P1 & P2 & P3).
  split; [exact P1|]. split; [exact P2|]. split; [exact P3|].
  intros Ho e w' budget' H. apply P2 in H. subst found. subst others.
  cbn [alone during_create during_pay] in H. now destruct H as [H|[H|H]].
Qed.

End Pay.

Lemma scenario_two_approved :
  can_spend (scenario_state 2 0) 0 (3 # 100)
  = Returns true (scenario_state 2 0).
Proof. rewrite can_spend_cases. vm_compute. reflexivity. Qed.

Lemma pay_budget_check_witness :
  pay_among (fun p : string => p) accepting_create accepting_pay alone
      (Some (scenario_state 3 0)) 0 0 0 (3 # 100) "/api/data" "zs1" "tx1"
      None true 0%nat
  = Failed value_error 0%nat (Some (scenario_state 3 0)) /\
  pay_among (fun p : string => p) accepting_create accepting_pay
      (one_more_spend 3) (Some (scenario_state 2 0)) 0 5 6 (3 # 100)
      "/api/data" "zs1" "tx1" None true 0%nat
  = Failed (budget_exceeded
              (append_record (scenario_state 2 0) 3 (4 # 100) "tx_other" None)
              6)
           2%nat
           (Some (append_record (scenario_state 2 0) 3 (4 # 100) "tx_other"
                                None)).
Proof.
  split.
  - apply (proj1 (pay_budget_check (fun p : string => p) accepting_create
                    accepting_pay alone (scenario_state 3 0) 0 0 0 (3 # 100)
                    "/api/data" "zs1" "tx1" None 0%nat eq_refl)).
    rewrite can_spend_cases. vm_compute. reflexivity.
  - pose proof (proj2 (pay_budget_check (fun p : string => p) accepting_create
                         accepting_pay (one_more_spend 3) (scenario_state 2 0)
                         0 5 6 (3 # 100) "/api/data" "zs1" "tx1" None 0%nat
                         eq_refl) scenario_two_approved eq_refl) as H.
    unfold pay_among at 1 in H.
    cbn [submit_and_record accepting_create accepting_pay option_map] in H.
    rewrite H. vm_compute. reflexivity.
Defined.

Lemma pay_unchecked_over_budget_witness :
  pay (fun p : string => p) accepting_create accepting_pay
      (Some (scenario_state 3 0)) 0 0 0 (3 # 100) "/api/data" "zs1" "tx1"
      None false 0%nat
  = Failed (budget_exceeded (scenario_state 3 0) 0) 2%nat
           (Some (scenario_state 3 0)).
Proof.
  apply (pay_unchecked_over_budget (fun p : string => p) accepting_create
           accepting_pay (scenario_state 3 0) 0 0 0 (3 # 100)
           "/api/data" "zs1" "tx1" None 0%nat 2%nat "pi_1").
  - reflexivity.
  - reflexivity.
  - reflexivity.
Defined.

Lemma pay_records_iff_returns_witness :
  pay_among (fun p : string => p) accepting_create accepting_pay
      (one_more_spend 3) (Some (scenario_state 2 0)) 0 5 6 (3 # 100)
      "/api/data" "zs1" "tx1" None true 0%nat
  <> Waiting.
Proof.
  apply (proj1 (pay_records_iff_returns (fun p : string => p) accepting_create
                  accepting_pay (one_more_spend 3) (scenario_state 2 0) 0 5 6
                  (3 # 100) "/api/data" "zs1" "tx1" None true 0%nat eq_refl
                  eq_refl)).
Defined.

End ClientProps.

(** ** The webhook authenticator: what it accepts and how it fails *)

Module AuthenticatorProps.
Import Exceptions Builtins Sha256 Webhook MiniJson StringFacts DigestFacts.
Import WebhookProps.

Lemma after_first_timestamp_part s :
  startswith "t=" s = true -> exists r, after_first "=" s = Some r.
Proof.
  destruct s as [|a [|b r]]; cbn [startswith]; try discriminate.
  - rewrite andb_false_r. discriminate.
  - intros H. apply andb_true_iff in H. destruct H as [Ha H].
    apply andb_true_iff in H. destruct H as [Hb _].
    apply Ascii.eqb_eq in Ha, Hb. subst a b. exists r. reflexivity.
Qed.

Lemma after_first_signature_part s :
  startswith "v1=" s = true -> exists r, after_first "=" s = Some r.
Proof.
  destruct s as [|a [|b [|c r]]]; cbn [startswith]; try discriminate.
  - rewrite andb_false_r. discriminate.
  - rewrite !andb_false_r. discriminate.
  - intros H. apply andb_true_iff in H. destruct H as [Ha H].
    apply andb_true_iff in H. destruct H as [Hb H].
    apply andb_true_iff in H. destruct H as [Hc _].
    apply Ascii.eqb_eq in Ha, Hb, Hc. subst a b c. exists r. reflexivity.
Qed.

Lemma hex_length bs : String.length (hex bs) = (2 * length bs)%nat.
Proof.
  induction bs as [|b bs IH]; [reflexivity|].
  cbn [hex String.length length]. rewrite IH. lia.
Qed.

Lemma hex_digit_is_hexdigit n :
  0 <= n < 16 -> is_hexdigit (hex_digit n) = true.
Proof.
  intros H. rewrite <- (Z2Nat.id n) by lia.
  assert (Hk : (Z.to_nat n < 16)%nat) by lia.
  revert Hk. generalize (Z.to_nat n) as k. intros k Hk.
  do 16 (destruct k as [|k]; [reflexivity|]). lia.
Qed.

Lemma hex_is_hexdigits bs :
  Forall is_byte bs -> all_chars is_hexdigit (hex bs) = true.
Proof.
  induction 1 as [|b bs Hb _ IH]; cbn [hex all_chars]; [reflexivity|].
  unfold is_byte in Hb.
  rewrite hex_digit_is_hexdigit, hex_digit_is_hexdigit, IH; [reflexivity| |].
  - change 15 with (Z.ones 4). rewrite Z.land_ones by lia.
    apply Z.mod_pos_bound. lia.
  - rewrite Z.shiftr_div_pow2 by lia. change (2 ^ 4) with 16.
    split; [apply Z.div_pos; lia | apply Z.div_lt_upper_bound; lia].
Qed.

Section Json.
Variable json_dumps : list (string * pyval) -> string.
Variable json_loads : string -> option pyval.

Section Int.
Variable int : string -> option Z.

(** X18. [verify_webhook] fails closed, whatever [int] reads.  Whenever it
    returns an event, the secret is not empty, the header has a [t=]
    component that [int] reads as an integer [T] within the tolerance of
    the clock and a [v1=] component that is the HMAC-SHA256, under the
    secret, of [T] in decimal digits, a dot and the payload; and the event
    is the payload itself when it is a dict, and otherwise what
    [json.loads] makes of the payload. *)
Theorem verify_webhook_sound now p signature secret tolerance event :
  verify_webhook_with json_dumps json_loads int now p signature secret
                      tolerance
    = inl event ->
  secret <> EmptyString /\
  exists ts mac T s,
    header_parts signature = Some (ts, mac) /\
    int ts = Some T /\
    Z.abs (now - T) <= tolerance /\
    payload_string_of json_dumps p = Some s /\
    mac = sign secret T s /\
    match p with
    | PayloadDict d => event = PyDict d
    | _ => json_loads s = Some event
    end.
Proof.
  unfold verify_webhook_with, header_parts. cbv zeta.
  destruct (String.eqb signature EmptyString); [discriminate|].
  destruct (String.eqb_spec secret EmptyString) as [|Hsec]; [discriminate|].
  destruct (next_such (startswith "t=") (split "," signature)) as [tp|];
    [|discriminate].
  destruct (next_such (startswith "v1=") (split "," signature)) as [sp|];
    [|discriminate].
  destruct (String.eqb tp EmptyString || String.eqb sp EmptyString);
    [discriminate|].
  destruct (after_first "=" tp) as [ts|];
    [|destruct (after_first "=" sp); discriminate].
  destruct (after_first "=" sp) as [mac|]; [|discriminate].
  destruct (int ts) as [T|] eqn:Hint; [|discriminate].
  destruct (Z.abs (now - T) >? tolerance) eqn:F; [discriminate|].
  unfold authenticate.
  destruct (payload_string_of json_dumps p) as [s|] eqn:Hs; [|discriminate].
  destruct (compare_digest (sign secret T s) mac) as [[|]|] eqn:C;
    try discriminate.
  intros H. split; [exact Hsec|]. exists ts, mac, T, s.
  split; [reflexivity|]. split; [exact Hint|]. split.
  { destruct (Z.gtb_spec (Z.abs (now - T)) tolerance); [discriminate F|lia]. }
  split; [reflexivity|]. split.
  { unfold compare_digest in C.
    destruct (is_ascii (sign secret T s) && is_ascii mac); [|discriminate C].
    injection C as C. apply String.eqb_eq in C. now symmetry. }
  destruct p as [str|bytes|d].
  - destruct (json_loads s); [now injection H as ->|discriminate H].
  - destruct (json_loads s); [now injection H as ->|discriminate H].
  - now injection H as <-.
Qed.

(** X19. The early refusals of [verify_webhook], whatever [int] reads.  An
    empty header, an empty secret, a header without a [t=] or a [v1=]
    component and a timestamp component that [int] does not read are
    refused with their own messages, in this order and before the payload
    is looked at; and splitting a component at its [=] never fails. *)
Theorem verify_webhook_failures now p signature secret tolerance :
  let verdict :=
    verify_webhook_with json_dumps json_loads int now p signature secret
                        tolerance in
  (signature = EmptyString ->
   verdict = inr (verification_error "Missing signature header")) /\
  (signature <> EmptyString -> secret = EmptyString ->
   verdict = inr (verification_error "Webhook secret not provided")) /\
  (signature <> EmptyString -> secret <> EmptyString ->
   header_parts signature = None ->
   verdict = inr (verification_error "Invalid signature format")) /\
  (signature <> EmptyString -> secret <> EmptyString ->
   forall ts mac, header_parts signature = Some (ts, mac) ->
                  int ts = None ->
   verdict = inr (verification_error "Invalid timestamp in signature")) /\
  verdict <> inr (OtherException "IndexError").
Proof.
  cbv zeta. unfold verify_webhook_with, header_parts. cbv zeta.
  destruct (String.eqb_spec signature EmptyString) as [Hsig|Hsig].
  { repeat split; try congruence; discriminate. }
  destruct (String.eqb_spec secret EmptyString) as [Hsec|Hsec].
  { repeat split; try congruence; discriminate. }
  destruct (next_such (startswith "t=") (split "," signature)) as [tp|] eqn:Etp.
  2:{ repeat split; try congruence; discriminate. }
  destruct (next_such (startswith "v1=") (split "," signature)) as [sp|] eqn:Esp.
  2:{ repeat split; try congruence; discriminate. }
  apply next_such_holds in Etp, Esp.
  rewrite (startswith_nonempty _ _ _ Etp), (startswith_nonempty _ _ _ Esp).
  cbn [orb].
  destruct (after_first_timestamp_part tp Etp) as (ts & ->).
  destruct (after_first_signature_part sp Esp) as (mac & ->).
  destruct (int ts) as [T|] eqn:Hint.
  2:{ repeat split; try congruence; discriminate. }
  split; [congruence|]. split; [congruence|]. split; [congruence|].
  split; [intros _ _ ts' mac' [= <- <-]; congruence|].
  destruct (Z.abs (now - T) >? tolerance); [discriminate|].
  unfold authenticate.
  destruct (payload_string_of json_dumps p) as [s|]; [|discriminate].
  destruct (compare_digest (sign secret T s) mac) as [[|]|];
    try discriminate.
  destruct p as [str|b|d]; [| |discriminate];
    destruct (json_loads s); discriminate.
Qed.

End Int.

(** X20. The raw body.  A bytes payload is verified exactly as the string
    it decodes to; and the bytes of a string verify against the signature
    constructed for that string, within the tolerance and with a
    non-empty secret, giving what [json.loads] makes of it. *)
Theorem raw_body_round_trip (T now : Z) (s secret : string) (tolerance : Z) :
  secret <> EmptyString ->
  Z.abs (now - T) <= tolerance ->
  valid_utf8 (encode_utf8 s) = true ->
  (forall b signature now' secret' tolerance',
      decode_utf8 b = Some s ->
      verify_webhook json_dumps json_loads now' (PayloadBytes b) signature
                     secret' tolerance'
      = verify_webhook json_dumps json_loads now' (PayloadStr s) signature
                       secret' tolerance') /\
  verify_webhook json_dumps json_loads now (PayloadBytes (encode_utf8 s))
    (construct_webhook_signature json_dumps T (inl s) secret) secret tolerance
  = match json_loads s with
    | Some event => inl event
    | None => inr (verification_error "Invalid JSON payload")
    end.
Proof.
  intros Hsec Hfresh Hvalid.
  assert (Same : forall b signature now' secret' tolerance',
    decode_utf8 b = Some s ->
    verify_webhook json_dumps json_loads now' (PayloadBytes b) signature
                   secret' tolerance'
    = verify_webhook json_dumps json_loads now' (PayloadStr s) signature
                     secret' tolerance').
  { intros b signature now' secret' tolerance' Hb.
    unfold verify_webhook, verify_webhook_with.
    cbv zeta. unfold authenticate. cbn [payload_string_of]. rewrite Hb.
    reflexivity. }
  split; [exact Same|].
  rewrite (Same (encode_utf8 s)).
  2:{ unfold decode_utf8. rewrite Hvalid. unfold encode_utf8.
      now rewrite string_of_list_byte_of_string. }
  assert (F : (Z.abs (now - T) >? tolerance) = false).
  { destruct (Z.abs (now - T) >? tolerance) eqn:E; [|reflexivity].
    apply Z.gtb_lt in E. lia. }
  unfold verify_webhook.
  rewrite (verify_webhook_parsed json_dumps json_loads py_int now _ _ secret
             tolerance _ _ T Hsec
             (construct_webhook_signature_parts json_dumps T (inl s) secret)
             (py_int_py_str T)), F.
  unfold authenticate. cbn [payload_string_of payload_text].
  now rewrite compare_digest_signs, String.eqb_refl.
Qed.

(** X21. The header that [construct_webhook_signature] builds is [t=], the
    decimal digits of the clock, [,v1=] and the HMAC-SHA256 of the
    timestamp, a dot and the payload, as 64 lower-case hexadecimal
    characters; [verify_webhook]'s parsing reads the clock value back
    from it. *)
Theorem constructed_signature_format (now : Z)
    (p : string + list (string * pyval)) (secret : string) :
  exists mac,
    construct_webhook_signature json_dumps now p secret
      = ("t=" ++ py_str now ++ ",v1=" ++ mac)%string /\
    mac = sign secret now (payload_text json_dumps p) /\
    String.length mac = 64%nat /\
    all_chars is_hexdigit mac = true /\
    header_parts (construct_webhook_signature json_dumps now p secret)
      = Some (py_str now, mac) /\
    header_timestamp (construct_webhook_signature json_dumps now p secret)
      = Some now.
Proof.
  exists (sign secret now (payload_text json_dumps p)).
  split; [now destruct p|]. split; [reflexivity|]. split; [|split; [|split]].
  - unfold sign, hmac_sha256_hex, hmac_sha256. cbv zeta.
    now rewrite hex_length, sha256_length.
  - unfold sign, hmac_sha256_hex, hmac_sha256. cbv zeta.
    apply hex_is_hexdigits, sha256_range.
  - apply construct_webhook_signature_parts.
  - unfold header_timestamp, header_timestamp_with.
    rewrite construct_webhook_signature_parts.
    apply py_int_py_str.
Qed.

End Json.

Lemma verify_webhook_sound_witness :
  exists ts mac T s,
    header_parts (construct_webhook_signature MiniJson.dumps 1700000000
                    (inr settled_event) "whsec_test") = Some (ts, mac) /\
    py_int ts = Some T /\
    payload_string_of MiniJson.dumps (PayloadDict settled_event) = Some s /\
    mac = sign "whsec_test" T s.
Proof.
  destruct (verify_webhook_sound MiniJson.dumps MiniJson.loads py_int
              1700000100 (PayloadDict settled_event)
              (construct_webhook_signature MiniJson.dumps 1700000000
                 (inr settled_event) "whsec_test")
              "whsec_test" 300 (PyDict settled_event))
    as (_ & ts & mac & T & s & H1 & H2 & _ & H3 & H4 & _).
  - vm_compute. reflexivity.
  - exists ts, mac, T, s. auto.
Defined.

Lemma verify_webhook_failures_witness :
  verify_webhook_with MiniJson.dumps MiniJson.loads py_int 0 (PayloadStr "{}")
                      "v1=abc" "whsec_test" 300
  = inr (verification_error "Invalid signature format").
Proof.
  apply (proj1 (proj2 (proj2 (verify_webhook_failures MiniJson.dumps
                                MiniJson.loads py_int 0 (PayloadStr "{}")
                                "v1=abc" "whsec_test" 300)))).
  - discriminate.
  - discriminate.
  - reflexivity.
Defined.

Lemma raw_body_round_trip_witness :
  verify_webhook MiniJson.dumps MiniJson.loads 1700000100
    (PayloadBytes (encode_utf8 "{}"))
    (construct_webhook_signature MiniJson.dumps 1700000000 (inl "{}")
       "whsec_test")
    "whsec_test" 300
  = match MiniJson.loads "{}" with
    | Some event => inl event
    | None => inr (verification_error "Invalid JSON payload")
    end.
Proof.
  apply (proj2 (raw_body_round_trip MiniJson.dumps MiniJson.loads
                  1700000000 1700000100 "{}" "whsec_test" 300
                  ltac:(discriminate) ltac:(cbn; lia) eq_refl)).
Defined.

End AuthenticatorProps.

(** ** The paywall of FastAPI *)

Module PaywallProps.
Import Exceptions Builtins Middleware.

Lemma subscript_Some v key x :
  subscript v key = inl x -> exists d, v = PyDict d /\ dict_get d key = Some x.
Proof.
  destruct v; cbn; try discriminate.
  destruct (dict_get d key) as [y|] eqn:E; [|discriminate].
  intros [= <-]. eauto.
Qed.

Lemma subscript_raises v key e :
  subscript v key = inr e -> is_Exception e = true.
Proof.
  destruct v; cbn; try (intros [= <-]; reflexivity).
  destruct (dict_get d key); [discriminate|]. intros [= <-]. reflexivity.
Qed.

Lemma is_str_true v s : is_str v s = true -> v = PyStr s.
Proof.
  destruct v; cbn; try discriminate. intros H. apply String.eqb_eq in H.
  now subst.
Qed.

Section Paywall.
Context {W Response Float : Type}.
Variable py_float : pyval -> option Float.
Variable float_lt : Float -> Float -> bool.
Variable session_get :
  string -> gmap string string -> W -> (Http.ClientResponse + exn) * W.
Variable call_next : option pyval -> W -> (Response + exn) * W.

(** X22. The paywall fails closed.  On a protected path the application is
    reached, and its response returned, only when the request carries a
    non-empty [z402-payment-intent] header, the verification request for
    that intent (sent with the API key) was answered with a status below
    400 and a JSON object whose ["status"] is ["settled"], and whose
    ["amount"], as a float, is not less than the configured amount; the
    application is then called with that object attached. *)
Theorem paywall_serves_settled_payments_only (self : Z402Middleware)
    (path : string) (header : option string) (w w' : W) (served : Response) :
  is_protected self path = true ->
  __call__ py_float float_lt session_get call_next self path header w
    = (inl (Served served), w') ->
  exists intent_id response w1 body paid x y,
    header = Some intent_id /\ intent_id <> EmptyString /\
    session_get (verify_url self intent_id)
                (<["X-API-Key" := api_key self]> ∅) w = (inl response, w1) /\
    Http.ok response = true /\
    Http.json response = Some (PyDict body) /\
    dict_get body "status" = Some (PyStr "settled") /\
    dict_get body "amount" = Some paid /\
    py_float paid = Some x /\
    py_float (PyStr (amount self)) = Some y /\
    float_lt x y = false /\
    call_next (Some (PyDict body)) w1 = (inl served, w').
Proof.
  intros Hprot. unfold __call__. rewrite Hprot. cbn [negb].
  destruct header as [[|c s]|]; try discriminate.
  unfold verify_and_serve. cbv zeta.
  destruct (session_get (verify_url self (String c s))
              (<["X-API-Key" := api_key self]> ∅) w) as [[response|e] w1] eqn:G.
  2:{ destruct (is_Exception e); discriminate. }
  destruct (Http.ok response) eqn:Hok; cbn [negb]; [|discriminate].
  destruct (Http.json response) as [payment_intent|] eqn:Hj; [|discriminate].
  destruct (subscript payment_intent "status") as [status|e] eqn:Hs.
  2:{ rewrite (subscript_raises _ _ _ Hs). discriminate. }
  destruct (is_str status "settled") eqn:Hset; cbn [negb].
  2:{ destruct (subscript payment_intent "amount") as [paid|e] eqn:Ha;
        [discriminate|].
      rewrite (subscript_raises _ _ _ Ha). discriminate. }
  destruct (subscript payment_intent "amount") as [paid|e] eqn:Ha.
  2:{ rewrite (subscript_raises _ _ _ Ha). discriminate. }
  destruct (py_float paid) as [x|] eqn:Hx; [|discriminate].
  destruct (py_float (PyStr (amount self))) as [y|] eqn:Hy; [|discriminate].
  destruct (float_lt x y) eqn:Hlt; [discriminate|].
  destruct (call_next (Some payment_intent) w1) as [[r|e] w2] eqn:Hn.
  2:{ destruct (is_Exception e); discriminate. }
  intros [= <- <-].
  apply subscript_Some in Hs. destruct Hs as (body & -> & Hs).
  apply subscript_Some in Ha. destruct Ha as (body' & [= <-] & Ha).
  apply is_str_true in Hset. subst status.
  exists (String c s), response, w1, body, paid, x, y.
  repeat split; try assumption. discriminate.
Qed.

(** X23. The paywall always answers.  A path that is not protected goes to
    the application as it is.  On a protected path no [Exception] leaves
    the middleware: the answer is the response of the application, or a 402 for a
    missing or empty header (without any request to the API), for a payment
    that is not settled and for an insufficient one, or a 500 for
    everything else, an exception raised by the application included. *)
Theorem paywall_always_answers (self : Z402Middleware) (path : string)
    (header : option string) (w : W) :
  let outcome :=
    __call__ py_float float_lt session_get call_next self path header w in
  (is_protected self path = false ->
   outcome = let '(r, w1) := call_next None w in
             (match r with
              | inl served => inl (Served served)
              | inr e => inr e
              end, w1)) /\
  (is_protected self path = true ->
   (header = None \/ header = Some EmptyString ->
    outcome = (inl (Refused (payment_required self)), w)) /\
   match fst outcome with
   | inl (Served _) => True
   | inl (Refused r) =>
       r = payment_required self \/
       (exists status paid, r = payment_not_settled status paid) \/
       (exists paid, r = insufficient_payment self paid) \/
       r = internal_error
   | inr e => is_Exception e = false
   end /\
   (forall r, fst outcome = inl (Refused r) ->
              status_code r = 402 \/ status_code r = 500)).
Proof.
  cbv zeta. unfold __call__. split.
  - intros ->. cbn [negb]. destruct (call_next None w) as [[r|e] w1]; reflexivity.
  - intros ->. cbn [negb].
    assert (Codes : forall r : JSONResponse,
      r = payment_required self \/
      (exists status paid, r = payment_not_settled status paid) \/
      (exists paid, r = insufficient_payment self paid) \/
      r = internal_error ->
      status_code r = 402 \/ status_code r = 500).
    { intros r [->|[(st & pd & ->)|[(pd & ->)| ->]]]; cbn; auto. }
    assert (Main :
      match fst (match header with
                 | None | Some EmptyString =>
                     (inl (Refused (payment_required self)), w)
                 | Some intent_id =>
                     let '(r, w1) :=
                       verify_and_serve py_float float_lt session_get call_next
                                        self intent_id w in
                     match r with
                     | inr error =>
                         if is_Exception error
                         then (inl (Refused internal_error), w1)
                         else (inr error, w1)
                     | done => (done, w1)
                     end
                 end) with
      | inl (Served _) => True
      | inl (Refused r) =>
          r = payment_required self \/
          (exists status paid, r = payment_not_settled status paid) \/
          (exists paid, r = insufficient_payment self paid) \/
          r = internal_error
      | inr e => is_Exception e = false
      end).
    { destruct header as [[|c s]|]; cbn [fst]; auto.
      destruct (verify_and_serve py_float float_lt session_get call_next self
                  (String c s) w) as [[a|e] w1] eqn:V.
      2:{ destruct (is_Exception e) eqn:Ex; cbn [fst]; auto. }
      cbn [fst]. destruct a as [r|r]; [|exact I]. right.
      revert V. unfold verify_and_serve. cbv zeta.
      destruct (session_get _ _ w) as [[response|e] w0]; [|discriminate].
      destruct (negb (Http.ok response)); [discriminate|].
      destruct (Http.json response) as [payment_intent|]; [|discriminate].
      destruct (subscript payment_intent "status") as [status|e];
        [|discriminate].
      destruct (negb (is_str status "settled")).
      { destruct (subscript payment_intent "amount") as [paid|e];
          [|discriminate].
        intros [= <- _]. left. eauto. }
      destruct (subscript payment_intent "amount") as [paid|e]; [|discriminate].
      destruct (py_float paid) as [x|]; [|discriminate].
      destruct (py_float (PyStr (amount self))) as [y|]; [|discriminate].
      destruct (float_lt x y).
      { intros [= <- _]. right. left. eauto. }
      destruct (call_next (Some payment_intent) w0) as [[x0|e] w2];
        discriminate. }
    split; [|split].
    + intros [-> | ->]; reflexivity.
    + exact Main.
    + intros r Hr. rewrite Hr in Main. now apply Codes.
Qed.

End Paywall.

(** A paywall for one path, floats read as integers, an API that reports
    every payment as settled for 5, and an application that answers
    [tt]. *)
Lemma paywall_serves_settled_payments_only_witness :
  let self := {| api_key := "z402_key"; protected_paths := ["/premium"];
                 amount := "3"; resource := "/premium";
                 base_url := "https://api.z402.io/v1" |} in
  let py_float := fun v => match v with PyStr s => py_int s | _ => None end in
  let session_get := fun (url : string) (h : gmap string string) (w : nat) =>
    (inl {| Http.status := 200;
            Http.json := Some (PyDict [("status", PyStr "settled");
                                        ("amount", PyStr "5")]);
            Http.text := Some EmptyString; Http.headers := ∅ |} : Http.ClientResponse + exn,
     S w) in
  let call_next := fun (p : option pyval) (w : nat) => (inl tt : unit + exn, S w) in
  exists intent_id,
    Some "pi_1" = Some intent_id /\ intent_id <> EmptyString.
Proof.
  intros self py_float session_get call_next.
  destruct (paywall_serves_settled_payments_only py_float Z.ltb session_get
              call_next self "/premium/data" (Some "pi_1") 0%nat 2%nat tt
              eq_refl eq_refl)
    as (intent_id & response & w1 & body & paid & x & y & H1 & H2 & _).
  exists intent_id. split; [exact H1|exact H2].
Defined.

Lemma paywall_always_answers_witness :
  __call__ (fun _ => None) Z.ltb
           (fun _ _ (w : nat) => (inr (OtherException "ClientError"), w))
           (fun _ (w : nat) => (inl tt, w))
           {| api_key := "z402_key"; protected_paths := ["/premium"];
              amount := "3"; resource := "/premium";
              base_url := "https://api.z402.io/v1" |}
           "/premium/data" None 0%nat
  = (inl (Refused (payment_required
                     {| api_key := "z402_key"; protected_paths := ["/premium"];
                        amount := "3"; resource := "/premium";
                        base_url := "https://api.z402.io/v1" |})), 0%nat).
Proof.
  apply (proj1 (proj2 (paywall_always_answers (fun _ => None) Z.ltb
           (fun _ _ (w : nat) => (inr (OtherException "ClientError"), w))
           (fun _ (w : nat) => (inl tt, w))
           {| api_key := "z402_key"; protected_paths := ["/premium"];
              amount := "3"; resource := "/premium";
              base_url := "https://api.z402.io/v1" |}
           "/premium/data" None 0%nat) eq_refl)).
  now left.
Defined.

End PaywallProps.
